(** * ipssl-client: a shallow embedding of the certificate lifecycle

    The Go packages [config], [zerossl], [docker] and [ipssl] are embedded as
    functions of a small state monad over an explicit [World] (environment,
    file system, log, effect trace, in-memory key cache).  Everything the
    program obtains from outside its own code (the certificate authority, the
    clock, the PEM/X.509 decoders, key generation, file-system faults, the
    Docker daemon) is a field of [Externals]; those fields receive the effect
    trace so far, so that their answers may change from call to call.

    The two unbounded loops, the renewal loop of [Start] and the issuance
    wait, are driven by the list of outcomes of their [select] statements;
    a loop that has used up its list is [Blocked]: it is still waiting when
    the observation ends.  Errors are values of [error]; a Go pair
    [(T, error)] is a [result], a lone [error] an [option error]. *)

From Stdlib Require Import ZArith String Ascii List Lia.
From stdpp Require Import base option gmap strings list.
Import ListNotations.
Local Open Scope string_scope.
Local Open Scope Z_scope.

(** ** Go values *)

(** Go's [error] values.  [ErrWrap p e] is [fmt.Errorf(p + ": %w", e)]. *)
Inductive error : Type :=
| ErrNotExist (path : string)
| ErrCanceled
| ErrNew (msg : string)
| ErrWrap (prefix : string) (inner : error).

(** A Go result pair [(T, error)] in which exactly one side is meaningful. *)
Inductive result (T : Type) : Type :=
| Ok (t : T)
| Err (e : error).
Arguments Ok {T} t.
Arguments Err {T} e.

(** [os.IsNotExist]: looks at the error itself, [nil] is not an error. *)
Definition os_IsNotExist (e : option error) : bool :=
  match e with
  | Some (ErrNotExist _) => true
  | _ => false
  end.

(** [time.Duration] and [time.Time] instants, both in nanoseconds.  An
    instant read from the clock or from a certificate has no monotonic part
    in common with the other, so [After] and [Before] compare wall times;
    instants are unbounded here, as adding any 64-bit duration to a present
    day instant stays far inside the range of [time.Time]. *)
Definition Duration : Type := Z.
Definition Time : Type := Z.
Definition time_Second : Duration := 1000000000.
Definition time_Hour : Duration := 3600 * time_Second.

Definition Time_After (t u : Time) : bool := u <? t.
Definition Time_Before (t u : Time) : bool := t <? u.
Definition Time_Add (t : Time) (d : Duration) : Time := t + d.

(** File modes as written in the sources (octal literals). *)
Definition mode_0644 : Z := 6 * 64 + 4 * 8 + 4.
Definition mode_0600 : Z := 6 * 64.
Definition mode_0755 : Z := 7 * 64 + 5 * 8 + 5.

(** ** [path/filepath] on Unix, over path components *)
Module filepath.

Definition isSep (c : ascii) : bool := Ascii.eqb c "/"%char.

(** Components between separators: ["a//b"] gives [["a"; ""; "b"]]. *)
Fixpoint split (s : string) : list string :=
  match s with
  | EmptyString => [EmptyString]
  | String c s' =>
      if isSep c then EmptyString :: split s'
      else match split s' with
           | h :: t => String c h :: t
           | [] => [String c EmptyString]
           end
  end.

Fixpoint joinWith (sep : string) (l : list string) : string :=
  match l with
  | [] => ""
  | [x] => x
  | x :: rest => x +:+ sep +:+ joinWith sep rest
  end.

(** One element of [Clean]'s loop; [out] is the output stack, last
    element first. *)
Definition cleanStep (rooted : bool) (out : list string) (c : string)
  : list string :=
  if String.eqb c "" then out
  else if String.eqb c "." then out
  else if String.eqb c ".." then
    match out with
    | top :: below =>
        if String.eqb top ".." then c :: out else below
    | [] => if rooted then out else [c]
    end
  else c :: out.

Definition Clean (path : string) : string :=
  match path with
  | EmptyString => "."
  | String c _ =>
      let rooted := isSep c in
      let out := rev (fold_left (cleanStep rooted) (split path) []) in
      match rooted, out with
      | false, [] => "."
      | false, _ => joinWith "/" out
      | true, _ => "/" +:+ joinWith "/" out
      end
  end.

Fixpoint dropEmpty (l : list string) : list string :=
  match l with
  | [] => []
  | e :: rest => if String.eqb e "" then dropEmpty rest else l
  end.

Definition Join (elem : list string) : string :=
  match dropEmpty elem with
  | [] => ""
  | l => Clean (joinWith "/" l)
  end.

Definition Base (path : string) : string :=
  match path with
  | EmptyString => "."
  | _ =>
      match dropEmpty (rev (split path)) with
      | [] => "/"
      | last :: _ => last
      end
  end.

(** The path up to and including its last separator, cleaned. *)
Definition Dir (path : string) : string :=
  match removelast (split path) with
  | [] => Clean ""
  | init => Clean (joinWith "/" init +:+ "/")
  end.

End filepath.

(** [strings]-style join used for the validation content:
    the loop [for i, c := range xs { if i > 0 { s += "\n" }; s += c }]. *)
Definition newline : string := String (ascii_of_nat 10) EmptyString.

Fixpoint joinLoop (acc : string) (i : nat) (xs : list string) : string :=
  match xs with
  | [] => acc
  | c :: rest =>
      let acc1 := if (0 <? i)%nat then acc +:+ newline else acc in
      joinLoop (acc1 +:+ c) (S i) rest
  end.

(** ** Data of the external collaborators *)

(** [zerossl.ValidationObject] entries of [Validation.OtherMethods]. *)
Record ValidationMethod := {
  FileValidationURLHTTP : string;
  FileValidationContent : list string;
}.

(** [zerossl.CertificateObject]; [Validation = None] is the nil pointer,
    [OtherMethods = None] the nil map.  A Go map is iterated in an
    unspecified order: the list is the order of one iteration. *)
Record ValidationInfo := {
  OtherMethods : option (list (string * ValidationMethod));
}.

Record CertificateObject := {
  ID : string;
  CommonName : string;
  Status : string;
  Validation : option ValidationInfo;
}.

(** [zerossl.CertificateBundle]. *)
Record CertificateBundle := {
  CertificateCrt : string;
  CABundleCrt : string;
}.

(** The part of [x509.Certificate] that the program reads. *)
Record Certificate := {
  NotAfter : Time;
}.

(** RSA keys are opaque; [x509.CertificateRequest] keeps its subject. *)
Definition PrivateKey : Type := Z.

Record CertificateRequest := {
  csr_Country : list string;
  csr_Organization : list string;
  csr_CommonName : string;
}.

(** [types.Container] of the Docker API. *)
Record Container := {
  c_ID : string;
  c_Names : list string;
  c_State : string;
}.

(** ** Effects, world, externals *)

Inductive Effect : Type :=
| ENow
| EGenerateKey
| ECreateCSR
| EListCertificates
| EGetCertificate (id : string)
| ECreateCertificate (cn : string) (days : Z)
| EVerifyIdentifiers (id : string)
| EDownloadCertificate (id : string) (includeCrossSigned : bool)
| EMkdirAll (path : string) (mode : Z) (ok : bool)
| EWriteFile (path : string) (mode : Z) (ok : bool)
| EReadFile (path : string)
| EStat (path : string)
| EContainerList
| EContainerKill (id : string) (signal : string).

Inductive Level : Type := Info | Warn | Error.

(** A log line: level and message (the key/value arguments are left out). *)
Definition LogEntry : Type := (Level * string)%type.

Record File := {
  f_data : string;
  f_mode : Z;
}.

(** The process and its surroundings.  [w_log] and [w_trace] have the newest
    entry first.  [w_privateKeys] is the map [privateKeys] of the one
    [zerossl.Client] of the process. *)
Record World := {
  w_env : gmap string string;
  w_files : gmap string File;
  w_dirs : gset string;
  w_umask : Z;
  w_log : list LogEntry;
  w_trace : list Effect;
  w_privateKeys : gmap string PrivateKey;
}.

(** What the outside answers; every field sees the trace so far. *)
Record Externals := {
  x_Now : list Effect -> Time;
  x_ParseDuration : string -> option Duration;
  x_pemDecode : string -> option string;
  x_ParseCertificate : string -> result Certificate;
  x_GenerateKey : list Effect -> result PrivateKey;
  x_ParseIP : string -> bool;
  x_CreateCertificateRequest :
    list Effect -> CertificateRequest -> PrivateKey -> result string;
  x_ParseCertificateRequest : string -> result CertificateRequest;
  x_EncodeKeyPEM : PrivateKey -> string;
  x_ListCertificates : list Effect -> result (list CertificateObject);
  x_GetCertificate : list Effect -> string -> result CertificateObject;
  x_CreateCertificate :
    list Effect -> CertificateRequest -> Z -> result CertificateObject;
  x_VerifyIdentifiers : list Effect -> string -> option error;
  x_DownloadCertificate :
    list Effect -> string -> bool -> result CertificateBundle;
  x_MkdirAllErr : list Effect -> string -> option error;
  x_WriteFileErr : list Effect -> string -> option error;
  x_ReadFileErr : list Effect -> string -> option error;
  x_DockerNewClient : option error;
  x_ContainerList : list Effect -> result (list Container);
  x_ContainerKill : list Effect -> string -> string -> option error;
}.

(** ** The monad: state passing, with [Blocked] for a [select] that has no
    event left to receive *)

Inductive Step (A : Type) : Type :=
| Ret (a : A) (w : World)
| Blocked (w : World).
Arguments Ret {A} a w.
Arguments Blocked {A} w.

Definition M (A : Type) : Type := World -> Step A.

#[global] Instance M_ret : MRet M := fun A a w => Ret a w.
#[global] Instance M_bind : MBind M := fun A B f m w =>
  match m w with
  | Ret a w' => f a w'
  | Blocked w' => Blocked w'
  end.

Definition stepWorld {A} (s : Step A) : World :=
  match s with
  | Ret _ w => w
  | Blocked w => w
  end.

Definition stepValue {A} (s : Step A) : option A :=
  match s with
  | Ret a _ => Some a
  | Blocked _ => None
  end.

(** World updates. *)
Definition addLog (e : LogEntry) (w : World) : World :=
  {| w_env := w_env w; w_files := w_files w; w_dirs := w_dirs w;
     w_umask := w_umask w; w_log := e :: w_log w; w_trace := w_trace w;
     w_privateKeys := w_privateKeys w |}.

Definition addEffect (e : Effect) (w : World) : World :=
  {| w_env := w_env w; w_files := w_files w; w_dirs := w_dirs w;
     w_umask := w_umask w; w_log := w_log w; w_trace := e :: w_trace w;
     w_privateKeys := w_privateKeys w |}.

Definition setFiles (fs : gmap string File) (w : World) : World :=
  {| w_env := w_env w; w_files := fs; w_dirs := w_dirs w;
     w_umask := w_umask w; w_log := w_log w; w_trace := w_trace w;
     w_privateKeys := w_privateKeys w |}.

Definition setDirs (ds : gset string) (w : World) : World :=
  {| w_env := w_env w; w_files := w_files w; w_dirs := ds;
     w_umask := w_umask w; w_log := w_log w; w_trace := w_trace w;
     w_privateKeys := w_privateKeys w |}.

Definition setKeys (ks : gmap string PrivateKey) (w : World) : World :=
  {| w_env := w_env w; w_files := w_files w; w_dirs := w_dirs w;
     w_umask := w_umask w; w_log := w_log w; w_trace := w_trace w;
     w_privateKeys := ks |}.

(** ** Primitives: logger, [os], [time], authority, Docker *)

Definition logAt (l : Level) (msg : string) : M unit :=
  fun w => Ret tt (addLog (l, msg) w).
Definition logInfo : string -> M unit := logAt Info.
Definition logWarn : string -> M unit := logAt Warn.
Definition logError : string -> M unit := logAt Error.

(** ** Package [logger] *)
Module logger.

(** [Fatal] logs at error level and calls [os.Exit(1)]: its value is the exit
    status with which the process ends. *)
Definition Fatal (msg : string) : M Z :=
  logError msg;;
  mret 1.

End logger.

(** [os.Getenv]: the empty string for a variable that is not set. *)
Definition getenv (w : World) (key : string) : string :=
  default "" (w_env w !! key).

Definition os_Getenv (key : string) : M string :=
  fun w => Ret (getenv w key) w.

Section Primitives.
Context (X : Externals).

Definition time_Now : M Time :=
  fun w => Ret (x_Now X (w_trace w)) (addEffect ENow w).

(** [os.MkdirAll]: no error when the directory is already there. *)
Definition os_MkdirAll (path : string) (mode : Z) : M (option error) :=
  fun w =>
    match x_MkdirAllErr X (w_trace w) path with
    | Some e => Ret (Some e) (addEffect (EMkdirAll path mode false) w)
    | None =>
        Ret None (addEffect (EMkdirAll path mode true)
                    (setDirs ({[path]} ∪ w_dirs w) w))
    end.

(** [os.WriteFile]: a new file gets [mode] less the umask; an existing
    file is truncated and rewritten and keeps its mode. *)
Definition os_WriteFile (path data : string) (mode : Z) : M (option error) :=
  fun w =>
    match x_WriteFileErr X (w_trace w) path with
    | Some e => Ret (Some e) (addEffect (EWriteFile path mode false) w)
    | None =>
        let f :=
          match w_files w !! path with
          | Some old => {| f_data := data; f_mode := f_mode old |}
          | None => {| f_data := data; f_mode := Z.ldiff mode (w_umask w) |}
          end in
        Ret None (addEffect (EWriteFile path mode true)
                    (setFiles (<[path := f]> (w_files w)) w))
    end.

Definition os_ReadFile (path : string) : M (result string) :=
  fun w =>
    let w' := addEffect (EReadFile path) w in
    match x_ReadFileErr X (w_trace w) path with
    | Some e => Ret (Err e) w'
    | None =>
        match w_files w !! path with
        | Some f => Ret (Ok (f_data f)) w'
        | None => Ret (Err (ErrNotExist path)) w'
        end
    end.

(** [os.Stat], reduced to its error. *)
Definition os_Stat (path : string) : M (option error) :=
  fun w =>
    let w' := addEffect (EStat path) w in
    match w_files w !! path with
    | Some _ => Ret None w'
    | None =>
        if decide (path ∈ w_dirs w) then Ret None w'
        else Ret (Some (ErrNotExist path)) w'
    end.

Definition rsa_GenerateKey : M (result PrivateKey) :=
  fun w => Ret (x_GenerateKey X (w_trace w)) (addEffect EGenerateKey w).

Definition x509_CreateCertificateRequest
    (tmpl : CertificateRequest) (key : PrivateKey) : M (result string) :=
  fun w => Ret (x_CreateCertificateRequest X (w_trace w) tmpl key)
             (addEffect ECreateCSR w).

Definition api_ListCertificates : M (result (list CertificateObject)) :=
  fun w => Ret (x_ListCertificates X (w_trace w))
             (addEffect EListCertificates w).

Definition api_GetCertificate (id : string) : M (result CertificateObject) :=
  fun w => Ret (x_GetCertificate X (w_trace w) id)
             (addEffect (EGetCertificate id) w).

Definition api_CreateCertificate (csr : CertificateRequest) (days : Z)
  : M (result CertificateObject) :=
  fun w => Ret (x_CreateCertificate X (w_trace w) csr days)
             (addEffect (ECreateCertificate (csr_CommonName csr) days) w).

Definition api_VerifyIdentifiers (id : string) : M (option error) :=
  fun w => Ret (x_VerifyIdentifiers X (w_trace w) id)
             (addEffect (EVerifyIdentifiers id) w).

Definition api_DownloadCertificate (id : string) (includeCrossSigned : bool)
  : M (result CertificateBundle) :=
  fun w => Ret (x_DownloadCertificate X (w_trace w) id includeCrossSigned)
             (addEffect (EDownloadCertificate id includeCrossSigned) w).

Definition docker_ContainerList : M (result (list Container)) :=
  fun w => Ret (x_ContainerList X (w_trace w)) (addEffect EContainerList w).

Definition docker_ContainerKill (id signal : string) : M (option error) :=
  fun w => Ret (x_ContainerKill X (w_trace w) id signal)
             (addEffect (EContainerKill id signal) w).

End Primitives.

(** ** Package [config] *)
Module config.

Record Config := {
  ClientIP : string;
  APIKey : string;
  ValidationDir : string;
  SSLDir : string;
  ContainerName : string;
  RenewalInterval : Duration;
  CertValidity : Duration;
}.

Definition getEnv (key defaultValue : string) : M string :=
  value ← os_Getenv key;
  if negb (String.eqb value "") then mret value else mret defaultValue.

Section WithExternals.
Context (X : Externals).

Definition getDurationEnv (key : string) (defaultValue : Duration)
  : M Duration :=
  value ← os_Getenv key;
  if negb (String.eqb value "") then
    match x_ParseDuration X value with
    | Some duration => mret duration
    | None => mret defaultValue
    end
  else mret defaultValue.

Definition Load : M (result Config) :=
  clientIP ← getEnv "CLIENT_IP" "127.0.0.1";
  apiKey ← getEnv "IPSSL_API_KEY" "";
  validationDir ← getEnv "IPSSL_VALIDATION_DIR" "/usr/share/caddy/";
  sslDir ← getEnv "IPSSL_SSL_DIR" "/ipssl/";
  containerName ← getEnv "IPSSL_CONTAINER_NAME" "caddy-1";
  renewalInterval ← getDurationEnv "RENEWAL_INTERVAL" (24 * time_Hour);
  certValidity ← getDurationEnv "CERT_VALIDITY" (30 * 24 * time_Hour);
  let cfg := {| ClientIP := clientIP; APIKey := apiKey;
                ValidationDir := validationDir; SSLDir := sslDir;
                ContainerName := containerName;
                RenewalInterval := renewalInterval;
                CertValidity := certValidity |} in
  if String.eqb (APIKey cfg) "" then
    mret (Err (ErrNew "IPSSL_API_KEY environment variable is required"))
  else mret (Ok cfg).

End WithExternals.

End config.

(** The outcomes of a [select] over [ctx.Done()] and a ticker channel, in the
    order in which the loop receives them. *)
Inductive SelectEvent : Type := CtxDone | TickerC.

(** ** Package [zerossl] *)
Module zerossl.

Record Client := {
  apiKey : string;
}.

Definition NewClient (key : string) : result Client :=
  if String.eqb key "" then Err (ErrNew "API key is required")
  else Ok {| apiKey := key |}.

(** The test [cert.Status == "issued" || ... == "pending_validation" || ...
    == "draft"] of [findExistingCertificate]. *)
Definition isLiveStatus (status : string) : bool :=
  String.eqb status "issued" || String.eqb status "pending_validation"
  || String.eqb status "draft".

(** The body of [RequestCertificate] that combines the downloaded parts. *)
Definition fullCertChain (certBundle : CertificateBundle) : string :=
  let chain0 := "" in
  let chain1 :=
    if negb (String.eqb (CertificateCrt certBundle) "")
    then CertificateCrt certBundle else chain0 in
  if negb (String.eqb (CABundleCrt certBundle) "") then
    (if negb (String.eqb chain1 "") then chain1 +:+ newline else chain1)
    +:+ CABundleCrt certBundle
  else chain1.

(** [c.privateKeys[ip] = key] and [c.privateKeys[ip]]. *)
Definition storeKey (ip : string) (key : PrivateKey) : M unit :=
  fun w => Ret tt (setKeys (<[ip := key]> (w_privateKeys w)) w).

Definition lookupKey (ip : string) : M (option PrivateKey) :=
  fun w => Ret (w_privateKeys w !! ip) w.

Section WithExternals.
Context (X : Externals).

(** The [for _, cert := range certificateList.Results] loop. *)
Fixpoint findLoop (ip : string) (results : list CertificateObject)
  : M (result string) :=
  match results with
  | [] => mret (Ok "")
  | cert :: rest =>
      if String.eqb (CommonName cert) ip then
        logInfo "Found existing certificate";;
        if isLiveStatus (Status cert) then mret (Ok (ID cert))
        else
          logInfo "Skipping certificate with invalid status";;
          findLoop ip rest
      else findLoop ip rest
  end.

Definition findExistingCertificate (ip : string) : M (result string) :=
  r ← api_ListCertificates X;
  match r with
  | Err err => mret (Err (ErrWrap "failed to list certificates" err))
  | Ok certificateList => findLoop ip certificateList
  end.

Definition createIPCertificate (ip : string)
  : M (result CertificateObject) :=
  logInfo "Creating IP certificate using ZeroSSL library";;
  k ← rsa_GenerateKey X;
  match k with
  | Err err => mret (Err (ErrWrap "failed to generate private key" err))
  | Ok privateKey =>
      if negb (x_ParseIP X ip) then
        mret (Err (ErrNew ("invalid IP address: " +:+ ip)))
      else
        let csrTemplate :=
          {| csr_Country := ["US"];
             csr_Organization := ["IPSSL Client"];
             csr_CommonName := ip |} in
        d ← x509_CreateCertificateRequest X csrTemplate privateKey;
        match d with
        | Err err => mret (Err (ErrWrap "failed to create CSR" err))
        | Ok csrDER =>
            match x_ParseCertificateRequest X csrDER with
            | Err err => mret (Err (ErrWrap "failed to parse CSR" err))
            | Ok csr =>
                logInfo "CSR created successfully";;
                storeKey ip privateKey;;
                r ← api_CreateCertificate X csr 90;
                match r with
                | Err err =>
                    mret (Err (ErrWrap
                                 "failed to create certificate request"
                                 err))
                | Ok certObj => mret (Ok certObj)
                end
            end
        end
  end.

Definition getPrivateKey (certID : string) : M (result string) :=
  r ← api_GetCertificate X certID;
  match r with
  | Err err =>
      mret (Err (ErrWrap "failed to get certificate details" err))
  | Ok certDetails =>
      let ip := CommonName certDetails in
      cached ← lookupKey ip;
      match cached with
      | Some privateKey => mret (Ok (x_EncodeKeyPEM X privateKey))
      | None =>
          let keyPath := filepath.Join ["/ipssl"; "key.pem"] in
          f ← os_ReadFile X keyPath;
          match f with
          | Ok keyPEM =>
              logInfo "Loaded private key from file";;
              mret (Ok keyPEM)
          | Err _ =>
              logInfo "Generating new private key for IP";;
              k ← rsa_GenerateKey X;
              match k with
              | Err err =>
                  mret (Err (ErrWrap
                               "failed to generate new private key" err))
              | Ok privateKey =>
                  storeKey ip privateKey;;
                  let keyPEM := x_EncodeKeyPEM X privateKey in
                  e ← os_WriteFile X keyPath keyPEM mode_0600;
                  match e with
                  | Some _ =>
                      logWarn "Failed to save private key to file"
                  | None => mret tt
                  end;;
                  logInfo "Generated and stored new private key";;
                  mret (Ok keyPEM)
              end
          end
      end
  end.

(** [fmt.Errorf("certificate %s failed with status: %s", certID, status)]. *)
Definition issuanceFailed (certID status : string) : error :=
  ErrNew ("certificate " +:+ certID +:+ " failed with status: "
          +:+ status).

(** The [for { select { ... } }] of [waitForCertificateIssuance]. *)
Fixpoint waitLoop (certID : string) (events : list SelectEvent)
  : M (result CertificateObject) :=
  match events with
  | [] => fun w => Blocked w
  | CtxDone :: _ => mret (Err ErrCanceled)
  | TickerC :: rest =>
      r ← api_GetCertificate X certID;
      match r with
      | Err _ =>
          logError "Failed to get certificate details";;
          waitLoop certID rest
      | Ok certDetails =>
          logInfo "Certificate status";;
          let status := Status certDetails in
          if String.eqb status "issued" then mret (Ok certDetails)
          else if String.eqb status "cancelled"
                  || String.eqb status "expired" then
            mret (Err (issuanceFailed certID status))
          else if String.eqb status "draft"
                  || String.eqb status "pending_validation" then
            waitLoop certID rest
          else
            logWarn "Unknown certificate status";;
            waitLoop certID rest
      end
  end.

Definition waitForCertificateIssuance
    (certID : string) (events : list SelectEvent)
  : M (result CertificateObject) :=
  logInfo "Waiting for certificate issuance";;
  waitLoop certID events.

(** The [for method, validation := range ...OtherMethods] loop.  The
    source has it twice, for the first and for the updated details; the
    copies differ in their log lines only, selected by [updated]. *)
Fixpoint validationLoop (updated : bool) (validationDir : string)
    (methods : list (string * ValidationMethod)) : M (option error) :=
  match methods with
  | [] => mret None
  | (method, validation) :: rest =>
      logInfo (if updated then "Processing updated validation method"
               else "Processing validation method");;
      if (0 <? List.length (FileValidationContent validation))%nat then
        let validationContent :=
          joinLoop "" 0 (FileValidationContent validation) in
        let filename :=
          filepath.Base (FileValidationURLHTTP validation) in
        let validationPath :=
          filepath.Join
            [validationDir; ".well-known"; "pki-validation"; filename] in
        (if updated then logInfo "Creating validation file"
         else mret tt);;
        e ← os_MkdirAll X (filepath.Dir validationPath) mode_0755;
        match e with
        | Some err =>
            mret (Some (ErrWrap "failed to create validation directory"
                          err))
        | None =>
            e' ← os_WriteFile X validationPath validationContent
                   mode_0644;
            match e' with
            | Some err =>
                mret (Some (ErrWrap "failed to write validation file"
                              err))
            | None =>
                logInfo (if updated
                         then "Validation file created successfully"
                         else "Validation file created");;
                validationLoop updated validationDir rest
            end
        end
      else
        logWarn (if updated
                 then "Skipping updated validation method - no content"
                 else "Skipping validation method");;
        validationLoop updated validationDir rest
  end.

(** [if Validation != nil && Validation.OtherMethods != nil {...}]. *)
Definition writeValidationFiles (updated : bool) (validationDir : string)
    (details : CertificateObject) : M (option error) :=
  match Validation details with
  | Some {| OtherMethods := Some methods |} =>
      logInfo (if updated then "Found updated validation methods"
               else "Found validation methods");;
      validationLoop updated validationDir methods
  | _ =>
      logWarn (if updated then "No updated validation methods found"
               else "No validation methods found");;
      mret None
  end.

Definition ValidateCertificate (certID validationDir : string)
  : M (option error) :=
  logInfo "Starting certificate validation";;
  logInfo "=== ENTERING ValidateCertificate METHOD ===";;
  logInfo "Getting certificate details";;
  r ← api_GetCertificate X certID;
  match r with
  | Err err =>
      logError "Failed to get certificate details";;
      mret (Some (ErrWrap "failed to get certificate details" err))
  | Ok certDetails =>
      logInfo "Successfully got certificate details";;
      logInfo "Certificate validation details";;
      e1 ← writeValidationFiles false validationDir certDetails;
      match e1 with
      | Some err => mret (Some err)
      | None =>
          logInfo "Attempting to trigger domain validation";;
          v ← api_VerifyIdentifiers X certID;
          match v with
          | Some _ => logError "Failed to trigger domain validation"
          | None => mret tt
          end;;
          logInfo "Getting updated certificate details";;
          r2 ← api_GetCertificate X certID;
          match r2 with
          | Err err =>
              mret (Some (ErrWrap
                            "failed to get updated certificate details"
                            err))
          | Ok updatedCertDetails =>
              logInfo "Updated certificate validation details";;
              e2 ← writeValidationFiles true validationDir
                     updatedCertDetails;
              match e2 with
              | Some err => mret (Some err)
              | None =>
                  logInfo "Domain validation process completed";;
                  mret None
              end
          end
      end
  end.

(** The first half of [RequestCertificate]: reuse or create a request. *)
Definition obtainRequest (ip : string) : M (result CertificateObject) :=
  logInfo "Checking for existing certificate";;
  f ← findExistingCertificate ip;
  let existingCertID := match f with Ok id => id | Err _ => "" end in
  match f with
  | Err _ => logWarn "Failed to check for existing certificate"
  | Ok id =>
      if negb (String.eqb id "") then logInfo "Found existing certificate"
      else logInfo "No existing certificate found, will create new one"
  end;;
  if negb (String.eqb existingCertID "") then
    logInfo "Found existing certificate request";;
    r ← api_GetCertificate X existingCertID;
    match r with
    | Err err =>
        mret (Err (ErrWrap "failed to get existing certificate details"
                     err))
    | Ok certDetails => mret (Ok certDetails)
    end
  else
    r ← createIPCertificate ip;
    match r with
    | Err err => mret (Err (ErrWrap "failed to create IP certificate" err))
    | Ok newCertObj =>
        logInfo "Certificate request created";;
        mret (Ok newCertObj)
    end.

Definition RequestCertificate (ip : string) (events : list SelectEvent)
  : M (result (string * string)) :=
  logInfo "Requesting certificate from ZeroSSL";;
  logInfo "=== ENTERING RequestCertificate METHOD ===";;
  c ← obtainRequest ip;
  match c with
  | Err err => mret (Err err)
  | Ok certObj =>
      v ← os_Getenv "IPSSL_VALIDATION_DIR";
      let validationDir :=
        if String.eqb v "" then "/usr/share/caddy/" else v in
      e ← ValidateCertificate (ID certObj) validationDir;
      match e with
      | Some err =>
          mret (Err (ErrWrap "failed to validate certificate" err))
      | None =>
          i ← waitForCertificateIssuance (ID certObj) events;
          match i with
          | Err err =>
              mret (Err (ErrWrap
                           "failed to wait for certificate issuance" err))
          | Ok certDetails =>
              b ← api_DownloadCertificate X (ID certDetails) true;
              match b with
              | Err err =>
                  mret (Err (ErrWrap "failed to download certificate"
                               err))
              | Ok certBundle =>
                  k ← getPrivateKey (ID certDetails);
                  match k with
                  | Err err =>
                      mret (Err (ErrWrap "failed to get private key" err))
                  | Ok keyPEM =>
                      logInfo "Certificate downloaded successfully";;
                      mret (Ok (fullCertChain certBundle, keyPEM))
                  end
              end
          end
      end
  end.

Definition IsCertificateValid
    (certPath : string) (validityDuration : Duration)
  : M (bool * option error) :=
  r ← os_ReadFile X certPath;
  match r with
  | Err err =>
      mret (false, Some (ErrWrap "failed to read certificate file" err))
  | Ok certPEM =>
      match x_pemDecode X certPEM with
      | None => mret (false, Some (ErrNew "failed to decode PEM block"))
      | Some blockBytes =>
          match x_ParseCertificate X blockBytes with
          | Err err =>
              mret (false,
                    Some (ErrWrap "failed to parse certificate" err))
          | Ok cert =>
              now1 ← time_Now X;
              if Time_After now1 (NotAfter cert) then mret (false, None)
              else
                now2 ← time_Now X;
                let expiryThreshold := Time_Add now2 validityDuration in
                if Time_Before (NotAfter cert) expiryThreshold
                then mret (false, None)
                else mret (true, None)
          end
      end
  end.

End WithExternals.

End zerossl.

(** ** Package [docker] *)
Module docker.

Definition nameMatches (containerName name : string) : bool :=
  String.eqb name ("/" +:+ containerName) || String.eqb name containerName.

(** The nested search loops of [ReloadContainer]. *)
Fixpoint findContainer (containerName : string) (containers : list Container)
  : option Container :=
  match containers with
  | [] => None
  | container :: rest =>
      if existsb (nameMatches containerName) (c_Names container)
      then Some container
      else findContainer containerName rest
  end.

Section WithExternals.
Context (X : Externals).

Definition ReloadContainer (containerName : string) : M (option error) :=
  logInfo "Reloading container";;
  r ← docker_ContainerList X;
  match r with
  | Err err => mret (Some (ErrWrap "failed to list containers" err))
  | Ok containers =>
      match findContainer containerName containers with
      | None =>
          mret (Some (ErrNew ("container " +:+ containerName
                              +:+ " not found")))
      | Some targetContainer =>
          if negb (String.eqb (c_State targetContainer) "running") then
            mret (Some (ErrNew ("container " +:+ containerName
                                +:+ " is not running (state: "
                                +:+ c_State targetContainer +:+ ")")))
          else
            e ← docker_ContainerKill X (c_ID targetContainer) "SIGHUP";
            match e with
            | Some err =>
                mret (Some (ErrWrap
                              ("failed to send SIGHUP signal to container "
                               +:+ containerName) err))
            | None =>
                logInfo "Successfully sent reload signal to container";;
                mret None
            end
      end
  end.

(** [GetContainerStatus]: the state of the first listed container that
    carries the name. *)
Definition GetContainerStatus (containerName : string) : M (result string) :=
  r ← docker_ContainerList X;
  match r with
  | Err err => mret (Err (ErrWrap "failed to list containers" err))
  | Ok containers =>
      match findContainer containerName containers with
      | Some container => mret (Ok (c_State container))
      | None =>
          mret (Err (ErrNew ("container " +:+ containerName
                             +:+ " not found")))
      end
  end.

End WithExternals.

End docker.

(** One wake-up of the scheduler's [select]: shutdown, or a renewal tick
    together with the events that the issuance wait of that tick's attempt
    will receive. *)
Inductive SchedulerEvent : Type :=
| Shutdown
| RenewalTick (poll : list SelectEvent).

(** ** Package [ipssl] *)
Module ipssl.
Import config.

(** The fields [config], [zerossl] and [docker] of the source, renamed as
    modules have these names here; [dockerClient = true] stands for a non-nil
    Docker client, and the logger is the log of the world. *)
Record Client := {
  cfg : Config;
  zerosslClient : zerossl.Client;
  dockerClient : bool;
}.

Section WithExternals.
Context (X : Externals).

Definition NewClient (c : Config) : M (result Client) :=
  match zerossl.NewClient (APIKey c) with
  | Err err => mret (Err (ErrWrap "failed to create ZeroSSL client" err))
  | Ok z =>
      if negb (String.eqb (ContainerName c) "") then
        match x_DockerNewClient X with
        | Some err =>
            mret (Err (ErrWrap "failed to create Docker client" err))
        | None =>
            logInfo "Docker client initialized";;
            mret (Ok {| cfg := c; zerosslClient := z;
                        dockerClient := true |})
        end
      else
        logInfo
          "Docker client not initialized - no container name specified";;
        mret (Ok {| cfg := c; zerosslClient := z; dockerClient := false |})
  end.

(** The [for _, dir := range dirs] loop of [ensureDirectories]. *)
Fixpoint mkdirs (dirs : list string) : M (option error) :=
  match dirs with
  | [] => mret None
  | dir :: rest =>
      e ← os_MkdirAll X dir mode_0755;
      match e with
      | Some err =>
          mret (Some (ErrWrap ("failed to create directory " +:+ dir) err))
      | None => mkdirs rest
      end
  end.

Definition ensureDirectories (c : Client) : M (option error) :=
  mkdirs [ SSLDir (cfg c);
           ValidationDir (cfg c);
           filepath.Join
             [ValidationDir (cfg c); ".well-known"; "pki-validation"] ].

Definition certificateFilesExist (c : Client) : M (bool * string) :=
  let certPath := filepath.Join [SSLDir (cfg c); "cert.pem"] in
  let keyPath := filepath.Join [SSLDir (cfg c); "key.pem"] in
  e ← os_Stat certPath;
  if os_IsNotExist e then mret (false, "certificate file missing")
  else
    e' ← os_Stat keyPath;
    if os_IsNotExist e' then mret (false, "private key file missing")
    else mret (true, "both files exist").

Definition isCertificateValid (c : Client) : M bool :=
  let certPath := filepath.Join [SSLDir (cfg c); "cert.pem"] in
  '(filesExist, reason) ← certificateFilesExist c;
  if negb filesExist then
    logInfo "Certificate files missing, will download new certificate";;
    mret false
  else
    '(valid, err) ← zerossl.IsCertificateValid X certPath
                      (CertValidity (cfg c));
    match err with
    | Some _ =>
        logError "Failed to check certificate validity";;
        mret false
    | None =>
        (if negb valid then
           logInfo
             "Certificate is expired or will expire soon, will download new certificate"
         else mret tt);;
        mret valid
    end.

(** The two [os.WriteFile] calls of [requestCertificate]. *)
Definition saveCertificateFiles (c : Client) (cert key : string)
  : M (option error) :=
  let certPath := filepath.Join [SSLDir (cfg c); "cert.pem"] in
  let keyPath := filepath.Join [SSLDir (cfg c); "key.pem"] in
  e ← os_WriteFile X certPath cert mode_0644;
  match e with
  | Some err => mret (Some (ErrWrap "failed to save certificate" err))
  | None =>
      e' ← os_WriteFile X keyPath key mode_0600;
      match e' with
      | Some err => mret (Some (ErrWrap "failed to save private key" err))
      | None => mret None
      end
  end.

(** The count of certificate blocks that the source computes after the
    request only feeds the arguments of a log line and is left out. *)
Definition requestCertificate (c : Client) (events : list SelectEvent)
  : M (option error) :=
  logInfo "Requesting new certificate";;
  r ← zerossl.RequestCertificate X (ClientIP (cfg c)) events;
  match r with
  | Err err =>
      mret (Some (ErrWrap "failed to request certificate from ZeroSSL"
                    err))
  | Ok (cert, key) =>
      logInfo "Certificate chain received";;
      s ← saveCertificateFiles c cert key;
      match s with
      | Some err => mret (Some err)
      | None =>
          logInfo "Certificate saved successfully";;
          (if dockerClient c
              && negb (String.eqb (ContainerName (cfg c)) "") then
             e ← docker.ReloadContainer X (ContainerName (cfg c));
             match e with
             | Some _ => logError "Failed to reload Caddy container"
             | None => mret tt
             end
           else
             logInfo
               "Skipping container reload - Docker client not available or no container name specified");;
          mret None
      end
  end.

(** The [for { select { ... } }] of [Start]. *)
Fixpoint renewalLoop (c : Client) (events : list SchedulerEvent)
  : M error :=
  match events with
  | [] => fun w => Blocked w
  | Shutdown :: _ =>
      logInfo "IPSSL client stopped";;
      mret ErrCanceled
  | RenewalTick poll :: rest =>
      valid ← isCertificateValid c;
      if negb valid then
        logInfo
          "Certificate needs renewal (missing, expired, or expiring soon)";;
        e ← requestCertificate c poll;
        match e with
        | Some _ =>
            logError "Failed to renew certificate";;
            renewalLoop c rest
        | None => renewalLoop c rest
        end
      else
        logInfo "Certificate is still valid, skipping renewal";;
        renewalLoop c rest
  end.

(** [Start] only ever returns a non-nil error. [startup] are the events
    seen by the issuance wait of the attempt made before the loop. *)
Definition Start (c : Client) (startup : list SelectEvent)
    (events : list SchedulerEvent) : M error :=
  logInfo "Starting IPSSL client";;
  d ← ensureDirectories c;
  match d with
  | Some err => mret (ErrWrap "failed to ensure directories" err)
  | None =>
      valid ← isCertificateValid c;
      if (valid : bool) then
        logInfo
          "Valid certificate already exists, skipping initial download";;
        renewalLoop c events
      else
        logInfo "Certificate needs to be downloaded (missing or invalid)";;
        e ← requestCertificate c startup;
        match e with
        | Some err => mret (ErrWrap "failed to request certificate" err)
        | None => renewalLoop c events
        end
  end.

End WithExternals.

End ipssl.

(** ** Package [main] *)
Module main.

Section WithExternals.
Context (X : Externals).

(** [main], from loading the configuration on (the optional [.env] file is
    taken to be part of the environment already); its value is the exit
    status of the process.  [Start] only returns errors, so returning from
    it always ends in [Fatal]. *)
Definition main (startup : list SelectEvent) (events : list SchedulerEvent)
  : M Z :=
  l ← config.Load X;
  match l with
  | Err _ => logger.Fatal "Failed to load configuration"
  | Ok c =>
      n ← ipssl.NewClient X c;
      match n with
      | Err _ => logger.Fatal "Failed to create IPSSL client"
      | Ok client =>
          logInfo "Starting IPSSL client";;
          _ ← ipssl.Start X client startup events;
          logger.Fatal "IPSSL client failed"
      end
  end.

End WithExternals.

End main.

(** ** Concrete scenarios

    A small, fully concrete outside world: a frozen clock, an authority that
    answers from fixed tables, deterministic keys, and file-system faults
    chosen by path. *)
Module scenario.

Definition parseDuration (value : string) : option Duration :=
  if String.eqb value "1h" then Some time_Hour
  else if String.eqb value "720h" then Some (720 * time_Hour)
  else None.

(** Certificates are written as [LEAF:a] (expires at 1500) and [LEAF:b]
    (expires 90 days after the epoch); anything else does not parse. *)
Definition parseCertificate (der : string) : result Certificate :=
  if String.eqb der "LEAF:a" then Ok {| NotAfter := 1500 |}
  else if String.eqb der "LEAF:b" then Ok {| NotAfter := 2160 * time_Hour |}
  else Err (ErrNew "x509: malformed certificate").

(** The first block of a PEM text: here, its first line. *)
Fixpoint firstLine (pem : string) : string :=
  match pem with
  | EmptyString => EmptyString
  | String c rest =>
      if Ascii.eqb c (ascii_of_nat 10) then EmptyString
      else String c (firstLine rest)
  end.

Definition pemDecode (pem : string) : option string :=
  if String.eqb (firstLine pem) "" then None else Some (firstLine pem).

Definition externals
    (now : Time)
    (listing : result (list CertificateObject))
    (get : list Effect -> string -> result CertificateObject)
    (genKey : result PrivateKey)
    (mkdirErr writeErr : string -> option error) : Externals :=
  {| x_Now := fun _ => now;
     x_ParseDuration := parseDuration;
     x_pemDecode := pemDecode;
     x_ParseCertificate := parseCertificate;
     x_GenerateKey := fun _ => genKey;
     x_ParseIP := fun ip => negb (String.eqb ip "");
     x_CreateCertificateRequest := fun _ tmpl _ => Ok (csr_CommonName tmpl);
     x_ParseCertificateRequest := fun der =>
       Ok {| csr_Country := ["US"]; csr_Organization := ["IPSSL Client"];
             csr_CommonName := der |};
     x_EncodeKeyPEM := fun _ => "KEY";
     x_ListCertificates := fun _ => listing;
     x_GetCertificate := get;
     x_CreateCertificate := fun _ csr _ =>
       Ok {| ID := "abc123"; CommonName := csr_CommonName csr;
             Status := "draft"; Validation := None |};
     x_VerifyIdentifiers := fun _ _ => None;
     x_DownloadCertificate := fun _ _ _ =>
       Ok {| CertificateCrt := "LEAF:b"; CABundleCrt := "CHAIN" |};
     x_MkdirAllErr := fun _ => mkdirErr;
     x_WriteFileErr := fun _ => writeErr;
     x_ReadFileErr := fun _ _ => None;
     x_DockerNewClient := None;
     x_ContainerList := fun _ => Ok [];
     x_ContainerKill := fun _ _ _ => None |}.

Definition noFault (path : string) : option error := None.

Definition world (env : gmap string string) (files : gmap string File)
  : World :=
  {| w_env := env; w_files := files; w_dirs := ∅; w_umask := 2 * 8 + 2;
     w_log := []; w_trace := []; w_privateKeys := ∅ |}.

Definition ip : string := "203.0.113.7".

(** A request for [ip] with one validation method. *)
Definition request (status : string) : CertificateObject :=
  {| ID := "abc123"; CommonName := ip; Status := status;
     Validation :=
       Some {| OtherMethods :=
                 Some [(ip,
                        {| FileValidationURLHTTP :=
                             "http://203.0.113.7/.well-known/pki-validation/XYZ123";
                           FileValidationContent := ["abc"; "def"] |})] |} |}.

(** The authority reports [status] for every request. *)
Definition always (status : string)
  : list Effect -> string -> result CertificateObject :=
  fun _ _ => Ok (request status).

Definition unreachable : error := ErrNew "connection refused".

(** The authority moves the request on with every fetch: draft at the first,
    pending_validation at the second, issued from the third on. *)
Definition isFetch (e : Effect) : bool :=
  match e with
  | EGetCertificate _ => true
  | _ => false
  end.

Definition progressing : list Effect -> string -> result CertificateObject :=
  fun tr _ =>
    match List.length (List.filter isFetch tr) with
    | O => Ok (request "draft")
    | S O => Ok (request "pending_validation")
    | _ => Ok (request "issued")
    end.

(** The environment at startup, the configuration that [Load] produces
    from it, and the client that [NewClient] builds from that. *)
Definition startupEnv : gmap string string :=
  {[ "CLIENT_IP" := ip; "IPSSL_API_KEY" := "secret" ]}.

Definition configuration : config.Config :=
  {| config.ClientIP := ip; config.APIKey := "secret";
     config.ValidationDir := "/usr/share/caddy/";
     config.SSLDir := "/ipssl/"; config.ContainerName := "caddy-1";
     config.RenewalInterval := 24 * time_Hour;
     config.CertValidity := 720 * time_Hour |}.

Definition client : ipssl.Client :=
  {| ipssl.cfg := configuration;
     ipssl.zerosslClient := {| zerossl.apiKey := "secret" |};
     ipssl.dockerClient := true |}.

(** The scenario of the boundary: the clock stands at 1000, the stored
    certificate expires at 1500, the threshold is 500. *)
Definition boundaryExternals : Externals :=
  externals 1000 (Ok []) (always "issued") (Ok 7)
    noFault noFault.

Definition boundaryWorld : World :=
  world ∅
    {[ "/ipssl/cert.pem" := {| f_data := "LEAF:a"; f_mode := mode_0644 |} ]}.

(** The scenario: the authority knows a draft request with one validation
    method, and directories cannot be created. *)
Definition readOnly (path : string) : option error :=
  Some (ErrNew "read-only file system").

Definition readOnlyExternals : Externals :=
  externals 1000 (Ok [request "draft"])
    (always "draft") (Ok 7) readOnly noFault.

(** The same, with directories that can be created and files that cannot
    be written. *)
Definition writeFaultExternals : Externals :=
  externals 1000 (Ok [request "draft"])
    (always "draft") (Ok 7) noFault readOnly.

(** The scenario: a key file readable by everyone is already in place. *)
Definition looseKeyWorld : World :=
  world ∅
    {[ "/ipssl/key.pem" := {| f_data := "OLD KEY"; f_mode := mode_0644 |} ]}.

Definition quietExternals : Externals :=
  externals 1000 (Ok []) (always "issued") (Ok 7)
    noFault noFault.

(** The scenario: no certificate on disk, and the authority cannot be
    reached for listing or fetching requests. *)
Definition offlineExternals : Externals :=
  externals 1000 (Err unreachable)
    (fun _ _ => Err unreachable) (Ok 7)
    noFault noFault.

Definition freshWorld : World := world startupEnv ∅.

Definition startupError : error :=
  ErrWrap "failed to request certificate"
    (ErrWrap "failed to request certificate from ZeroSSL"
       (ErrWrap "failed to validate certificate"
          (ErrWrap "failed to get certificate details"
             unreachable))).

(** The scenario: the authority has an issued request for the subject, and
    after the configuration was loaded IPSSL_VALIDATION_DIR is set. *)
Definition issuedExternals : Externals :=
  externals 1000 (Ok [request "issued"])
    (always "issued") (Ok 7) noFault noFault.


(** Durations that are set but are not durations. *)
Definition sloppyWorld : World :=
  world
    {[ "IPSSL_API_KEY" := "secret"; "RENEWAL_INTERVAL" := "daily";
       "CERT_VALIDITY" := "30 days" ]} ∅.

(** A list in which an expired request for the subject and a request for
    another subject come before the pending one. *)
Definition mixedList : list CertificateObject :=
  [ {| ID := "old"; CommonName := ip; Status := "expired";
       Validation := None |};
    {| ID := "other"; CommonName := "198.51.100.1"; Status := "issued";
       Validation := None |};
    {| ID := "pending"; CommonName := ip;
       Status := "pending_validation"; Validation := None |};
    {| ID := "newer"; CommonName := ip; Status := "issued";
       Validation := None |} ].

Definition mixedExternals : Externals :=
  externals 1000 (Ok mixedList) (always "issued") (Ok 7)
    noFault noFault.

(** A failed attempt on a tick, followed by a shutdown. *)
Definition tickError : error :=
  ErrWrap "failed to request certificate from ZeroSSL"
    (ErrWrap "failed to validate certificate"
       (ErrWrap "failed to get certificate details" unreachable)).

(** Three ticks take the request from draft over pending_validation to
    issued; the wait returns at the third. *)
Definition progressingExternals : Externals :=
  externals 1000 (Ok []) progressing (Ok 7)
    noFault noFault.


Definition xyzMethod : ValidationMethod :=
  {| FileValidationURLHTTP :=
       "http://203.0.113.7/.well-known/pki-validation/XYZ123";
     FileValidationContent := ["abc"; "def"] |}.

(** The scenario: a certificate that is good for 90 days from the epoch and
    its key are in place. *)
Definition servedWorld : World :=
  world startupEnv
    {[ "/ipssl/cert.pem" := {| f_data := "LEAF:b"; f_mode := mode_0644 |};
       "/ipssl/key.pem" := {| f_data := "KEY"; f_mode := mode_0600 |} ]}.

(** The scenario: the key file cannot be written. *)
Definition keyFault (path : string) : option error :=
  if String.eqb path "/ipssl/key.pem" then Some (ErrNew "disk full")
  else None.

Definition keyFaultExternals : Externals :=
  externals 1000 (Ok []) (always "issued") (Ok 7) noFault keyFault.

(** The scenario: Docker lists a stopped container before a running one of
    the same name. *)
Definition withContainers (X : Externals) (containers : list Container)
  : Externals :=
  {| x_Now := x_Now X;
     x_ParseDuration := x_ParseDuration X;
     x_pemDecode := x_pemDecode X;
     x_ParseCertificate := x_ParseCertificate X;
     x_GenerateKey := x_GenerateKey X;
     x_ParseIP := x_ParseIP X;
     x_CreateCertificateRequest := x_CreateCertificateRequest X;
     x_ParseCertificateRequest := x_ParseCertificateRequest X;
     x_EncodeKeyPEM := x_EncodeKeyPEM X;
     x_ListCertificates := x_ListCertificates X;
     x_GetCertificate := x_GetCertificate X;
     x_CreateCertificate := x_CreateCertificate X;
     x_VerifyIdentifiers := x_VerifyIdentifiers X;
     x_DownloadCertificate := x_DownloadCertificate X;
     x_MkdirAllErr := x_MkdirAllErr X;
     x_WriteFileErr := x_WriteFileErr X;
     x_ReadFileErr := x_ReadFileErr X;
     x_DockerNewClient := x_DockerNewClient X;
     x_ContainerList := fun _ => Ok containers;
     x_ContainerKill := x_ContainerKill X |}.

Definition stoppedFirst : list Container :=
  [ {| c_ID := "c0"; c_Names := ["/caddy-1"]; c_State := "exited" |};
    {| c_ID := "c1"; c_Names := ["/caddy-1"]; c_State := "running" |} ].

Definition dockerExternals : Externals :=
  withContainers quietExternals stoppedFirst.

End scenario.

(** ** Vocabulary of the statements

    The predicates in which the properties below are phrased. *)
Module vocabulary.
Import filepath config zerossl ipssl.

(** A value that is set but is not a duration. *)
Definition malformed (X : Externals) (value : string) : Prop :=
  value <> "" /\ x_ParseDuration X value = None.

(** The statuses for which an existing request is reused. *)
Definition live (status : string) : Prop :=
  status = "issued" \/ status = "pending_validation" \/ status = "draft".

(** A request that the lookup accepts for [ip]. *)
Definition qualifies (ip : string) (c : CertificateObject) : Prop :=
  CommonName c = ip /\ live (Status c).

(** Two worlds that differ at most in log and trace. *)
Definition sameStore (w w' : World) : Prop :=
  w_env w' = w_env w /\ w_files w' = w_files w /\ w_dirs w' = w_dirs w
  /\ w_umask w' = w_umask w /\ w_privateKeys w' = w_privateKeys w.




(** The file at [path] reads, decodes and parses as [cert]. *)
Definition parsesAs (X : Externals) (w : World) (path : string)
    (cert : Certificate) : Prop :=
  exists (f : File) (der : string),
    x_ReadFileErr X (w_trace w) path = None
    /\ w_files w !! path = Some f
    /\ x_pemDecode X (f_data f) = Some der
    /\ x_ParseCertificate X der = Ok cert.

(** A single path element: no separator in it. *)
Fixpoint noSep (s : string) : bool :=
  match s with
  | EmptyString => true
  | String c s' => negb (isSep c) && noSep s'
  end.

(** An element that [Clean] keeps as it is. *)
Definition plain (s : string) : bool :=
  noSep s && negb (String.eqb s "") && negb (String.eqb s ".")
  && negb (String.eqb s "..").

(** Where the file of a validation method goes. *)
Definition validationPath (validationDir : string) (v : ValidationMethod)
  : string :=
  filepath.Join [validationDir; ".well-known"; "pki-validation";
                 filepath.Base (FileValidationURLHTTP v)].

(** A failed directory creation or file write. *)
Definition failedFsEffect (e : Effect) : Prop :=
  match e with
  | EMkdirAll _ _ false => True
  | EWriteFile _ _ false => True
  | _ => False
  end.

(** The errors that the writer produces for them. *)
Definition filesystemError (err : error) : Prop :=
  exists inner : error,
    err = ErrWrap "failed to create validation directory" inner
    \/ err = ErrWrap "failed to write validation file" inner.

(** The newest effect of [w] is a failed directory creation or write. *)
Definition endsInFsFailure (w : World) : Prop :=
  exists (e : Effect) (tr : list Effect),
    w_trace w = e :: tr /\ failedFsEffect e.

(** The failed operation [e], made when the trace was [tr], and the error
    that reports it: the error of the operating system, wrapped with the
    message for a directory or for a file. *)
Definition reportsFailure (X : Externals) (tr : list Effect) (e : Effect)
    (err : error) : Prop :=
  (exists (path : string) (mode : Z) (inner : error),
      e = EMkdirAll path mode false
      /\ x_MkdirAllErr X tr path = Some inner
      /\ err = ErrWrap "failed to create validation directory" inner)
  \/ (exists (path : string) (mode : Z) (inner : error),
         e = EWriteFile path mode false
         /\ x_WriteFileErr X tr path = Some inner
         /\ err = ErrWrap "failed to write validation file" inner).

(** No failed directory creation or write among the effects. *)
Definition noFsFailure (effects : list Effect) : Prop :=
  Forall (fun e => ~ failedFsEffect e) effects.

(** What a run from [w] to [w'] with result [res] did to the file system:
    either its newest effect is a failed operation, the only one, and [res]
    is the error that reports it; or no operation failed and [res] is no
    file-system error. *)
Definition fsVerdict (X : Externals) (w w' : World) (res : option error)
  : Prop :=
  exists new : list Effect,
    w_trace w' = (new ++ w_trace w)%list
    /\ ((exists (e : Effect) (earlier : list Effect) (err : error),
            new = e :: earlier
            /\ reportsFailure X (earlier ++ w_trace w)%list e err
            /\ noFsFailure earlier
            /\ res = Some err)
        \/ (noFsFailure new
            /\ forall err, res = Some err -> ~ filesystemError err)).

(** [w'] has the trace of [w] with newer effects in front, all in [P]. *)
Definition extends (P : Effect -> Prop) (w w' : World) : Prop :=
  exists new : list Effect,
    w_trace w' = (new ++ w_trace w)%list /\ Forall P new.

(** Every run of [m] only adds effects in [P]. *)
Definition grows {A : Type} (P : Effect -> Prop) (m : M A) : Prop :=
  forall w : World, extends P w (stepWorld (m w)).

Definition notDownload (e : Effect) : Prop :=
  match e with
  | EDownloadCertificate _ _ => False
  | _ => True
  end.

(** Every download in sight asks for the cross-signed intermediates. *)
Definition fullDownload (e : Effect) : Prop :=
  match e with
  | EDownloadCertificate _ includeCrossSigned => includeCrossSigned = true
  | _ => True
  end.

Definition certPathOf (c : Client) : string :=
  filepath.Join [SSLDir (cfg c); "cert.pem"].
Definition keyPathOf (c : Client) : string :=
  filepath.Join [SSLDir (cfg c); "key.pem"].

(** The file that [os.WriteFile] leaves at a path: the new bytes, with the
    mode of the file that was there, or else the requested mode less the
    umask. *)
Definition written (w : World) (path data : string) (mode : Z) : File :=
  {| f_data := data;
     f_mode := match w_files w !! path with
               | Some old => f_mode old
               | None => Z.ldiff mode (w_umask w)
               end |}.

(** Two worlds that agree on everything except, possibly, environment
    variables other than IPSSL_VALIDATION_DIR. *)
Definition agree (w1 w2 : World) : Prop :=
  w_files w1 = w_files w2 /\ w_dirs w1 = w_dirs w2
  /\ w_umask w1 = w_umask w2 /\ w_log w1 = w_log w2
  /\ w_trace w1 = w_trace w2 /\ w_privateKeys w1 = w_privateKeys w2
  /\ getenv w1 "IPSSL_VALIDATION_DIR" = getenv w2 "IPSSL_VALIDATION_DIR".

Definition stepAgree {A : Type} (s1 s2 : Step A) : Prop :=
  match s1, s2 with
  | Ret a1 w1, Ret a2 w2 => a1 = a2 /\ agree w1 w2
  | Blocked w1, Blocked w2 => agree w1 w2
  | _, _ => False
  end.

(** [m] behaves alike in worlds that agree. *)
Definition envBlind {A : Type} (m : M A) : Prop :=
  forall w1 w2 : World, agree w1 w2 -> stepAgree (m w1) (m w2).

(** The directory under which [RequestCertificate] puts validation files
    when it runs in world [w]. *)
Definition validationDirRead (w : World) : string :=
  if String.eqb (getenv w "IPSSL_VALIDATION_DIR") ""
  then "/usr/share/caddy/" else getenv w "IPSSL_VALIDATION_DIR".

(** The value of a setting: the variable when it is set and not empty, the
    default otherwise. *)
Definition envOr (w : World) (key dflt : string) : string :=
  if String.eqb (getenv w key) "" then dflt else getenv w key.

(** The same for a duration; a value that does not parse gives the default. *)
Definition durationOr (X : Externals) (w : World) (key : string)
    (dflt : Duration) : Duration :=
  if String.eqb (getenv w key) "" then dflt
  else match x_ParseDuration X (getenv w key) with
       | Some d => d
       | None => dflt
       end.

(** The signing request template that [createIPCertificate] fills in. *)
Definition csrTemplateFor (ip : string) : CertificateRequest :=
  {| csr_Country := ["US"]; csr_Organization := ["IPSSL Client"];
     csr_CommonName := ip |}.

(** A failed fetch of the request, as [ValidateCertificate] reports it. *)
Definition fetchError (X : Externals) (certID : string) (err : error) : Prop :=
  exists (tr : list Effect) (e : error),
    x_GetCertificate X tr certID = Err e
    /\ (err = ErrWrap "failed to get certificate details" e
        \/ err = ErrWrap "failed to get updated certificate details" e).

(** Directory creations and file writes. *)
Definition fsEffect (e : Effect) : Prop :=
  match e with
  | EMkdirAll _ _ _ => True
  | EWriteFile _ _ _ => True
  | _ => False
  end.

(** The ticks that a wait receives before its context is done: those in
    front of the first cancellation among the events. *)
Fixpoint ticksUntilDone (events : list SelectEvent) : nat :=
  match events with
  | TickerC :: rest => S (ticksUntilDone rest)
  | _ => O
  end.

(** The separator of tokens and of certificates: one line feed, the
    character with code 10. *)
Definition lineFeed : string := String "010"%char EmptyString.

(** [Clean]'s output stack for a path, and the path that a stack stands
    for. *)
Definition cleanStack (rooted : bool) (path : string) : list string :=
  fold_left (cleanStep rooted) (split path) [].

Definition render (rooted : bool) (out : list string) : string :=
  match rooted, out with
  | false, [] => "."
  | false, _ => joinWith "/" out
  | true, _ => "/" +:+ joinWith "/" out
  end.

(** Whether a path starts at the root. *)
Definition rootedPath (path : string) : bool :=
  match path with
  | EmptyString => false
  | String c _ => isSep c
  end.

(** The string that [Join] cleans for a directory and [.well-known]. *)
Definition wellKnownOf (dir : string) : string :=
  match dir with
  | EmptyString => ".well-known"
  | _ => dir +:+ "/" +:+ ".well-known"
  end.

(** Every run of [m], finished or blocked, leaves a world that [R] relates
    to the one it started in. *)
Definition keeps {A : Type} (R : World -> World -> Prop) (m : M A) : Prop :=
  forall w : World, R w (stepWorld (m w)).

(** A relation that runs can be checked against step by step: a preorder
    that log lines do not leave, nor effects in [P] that change nothing
    else. *)
Class Frame (P : Effect -> Prop) (R : World -> World -> Prop) : Prop := {
  frame_refl : forall w, R w w;
  frame_trans : forall w1 w2 w3, R w1 w2 -> R w2 w3 -> R w1 w3;
  frame_log : forall e w, R w (addLog e w);
  frame_effect : forall e w, P e -> R w (addEffect e w);
}.

(** Nothing but log and trace changed, and the new effects are in [P]. *)
Definition onlyEffects (P : Effect -> Prop) (w w' : World) : Prop :=
  sameStore w w' /\ extends P w w'.

(** Looking at the file system and at the clock. *)
Definition readEffect (e : Effect) : Prop :=
  match e with
  | EStat _ => True
  | EReadFile _ => True
  | ENow => True
  | _ => False
  end.

(** Everything but a call to the Docker daemon. *)
Definition notDocker (e : Effect) : Prop :=
  match e with
  | EContainerList => False
  | EContainerKill _ _ => False
  | _ => True
  end.

(** The environment and the umask are as before, no directory and no file
    is gone, and files differ at [allowed] paths only. *)
Definition writesWithin (allowed : string -> Prop) (w w' : World) : Prop :=
  w_env w' = w_env w /\ w_umask w' = w_umask w /\ w_dirs w ⊆ w_dirs w'
  /\ (forall path, is_Some (w_files w !! path) ->
                   is_Some (w_files w' !! path))
  /\ (forall path, ~ allowed path -> w_files w' !! path = w_files w !! path).

(** The paths of validation files below [dir]. *)
Definition validationFile (dir path : string) : Prop :=
  exists v : ValidationMethod, path = validationPath dir v.

(** The paths that a request to the authority may write. *)
Definition requestFile (dir path : string) : Prop :=
  path = filepath.Join ["/ipssl"; "key.pem"] \/ validationFile dir path.

(** The paths that the client may write. *)
Definition clientFile (c : Client) (dir path : string) : Prop :=
  path = certPathOf c \/ path = keyPathOf c \/ requestFile dir path.

(** [writesWithin], for paths that depend on the validation directory: the
    directory is the one that the environment of the first world names. *)
Definition writesByEnv (allowedAt : string -> string -> Prop)
    (w w' : World) : Prop :=
  writesWithin (allowedAt (validationDirRead w)) w w'.

(** What a run of the client may change. *)
Definition clientWrites (c : Client) : World -> World -> Prop :=
  writesByEnv (clientFile c).

(** [m] never waits for an event that does not come: every run finishes. *)
Definition returns {A : Type} (m : M A) : Prop :=
  forall w : World, exists (a : A) (w' : World), m w = Ret a w'.

(** The store holds a certificate that every check finds valid: the
    certificate file can be read and parses, the key is there, and whenever
    the clock is read the expiry is at least the renewal threshold away. *)
Definition servable (X : Externals) (c : Client) (w : World) : Prop :=
  exists (f : File) (der : string) (cert : Certificate),
    w_files w !! certPathOf c = Some f
    /\ (is_Some (w_files w !! keyPathOf c) \/ keyPathOf c ∈ w_dirs w)
    /\ x_pemDecode X (f_data f) = Some der
    /\ x_ParseCertificate X der = Ok cert
    /\ forall tr : list Effect,
         x_ReadFileErr X tr (certPathOf c) = None
         /\ x_Now X tr <= NotAfter cert
         /\ x_Now X tr + CertValidity (cfg c) <= NotAfter cert.

(** Looking at the file system and the clock, and creating directories. *)
Definition quietEffect (e : Effect) : Prop :=
  match e with
  | EMkdirAll _ _ _ => True
  | _ => readEffect e
  end.

(** No file changed, no key, nothing in the environment; directories may
    have been created, and the new effects are quiet ones. *)
Definition quietly (w w' : World) : Prop :=
  w_env w' = w_env w /\ w_files w' = w_files w /\ w_umask w' = w_umask w
  /\ w_privateKeys w' = w_privateKeys w /\ w_dirs w ⊆ w_dirs w'
  /\ extends quietEffect w w'.

(** The directories that [ensureDirectories] creates, in its order. *)
Definition directoriesOf (c : Client) : list string :=
  [ SSLDir (cfg c); ValidationDir (cfg c);
    filepath.Join [ValidationDir (cfg c); ".well-known"; "pki-validation"] ].

(** The effects of creating [dirs] one after the other, newest first. *)
Definition created (dirs : list string) : list Effect :=
  rev (map (fun d => EMkdirAll d mode_0755 true) dirs).

(** A container that is listed under [name], with or without the leading
    slash that Docker puts in front of names. *)
Definition carries (name : string) (container : Container) : Prop :=
  exists n : string,
    In n (c_Names container) /\ (n = "/" +:+ name \/ n = name).

(** [target] is the first of [containers] that carries [name]. *)
Definition firstCarrying (name : string) (containers : list Container)
    (target : Container) : Prop :=
  exists pre post : list Container,
    containers = (pre ++ target :: post)%list
    /\ Forall (fun c => ~ carries name c) pre
    /\ carries name target.

(** No request for [ip] can be reused: the listing failed, or lists no
    request that qualifies, or the first that qualifies has an empty id. *)
Definition nothingToReuse (X : Externals) (ip : string) (w : World) : Prop :=
  (exists e, x_ListCertificates X (w_trace w) = Err e)
  \/ exists results,
       x_ListCertificates X (w_trace w) = Ok results
       /\ (Forall (fun c => ~ qualifies ip c) results
           \/ exists pre c post,
                results = (pre ++ c :: post)%list
                /\ Forall (fun c' => ~ qualifies ip c') pre
                /\ qualifies ip c /\ ID c = "").

End vocabulary.

(** * Properties *)

(** Unfolding of the monad's operations, for running a definition. *)
Ltac run_monad :=
  unfold mbind, M_bind, mret, M_ret, logInfo, logWarn, logError, logAt,
    os_Getenv in *.

(** ** Configuration loading *)
Module config_facts.
Import vocabulary.
Import config.

Lemma getEnv_run (key dflt : string) (w : World) :
  getEnv key dflt w =
  Ret (if String.eqb (getenv w key) "" then dflt else getenv w key) w.
Proof.
  unfold getEnv. run_monad.
  destruct (String.eqb (getenv w key) ""); reflexivity.
Qed.

Lemma getDurationEnv_run (X : Externals) (key : string) (dflt : Duration)
    (w : World) :
  getDurationEnv X key dflt w =
  Ret (if String.eqb (getenv w key) "" then dflt
       else match x_ParseDuration X (getenv w key) with
            | Some d => d
            | None => dflt
            end) w.
Proof.
  unfold getDurationEnv. run_monad.
  destruct (String.eqb (getenv w key) ""); simpl; [reflexivity|].
  destruct (x_ParseDuration X (getenv w key)); reflexivity.
Qed.

Lemma getDurationEnv_malformed (X : Externals) (key : string)
    (dflt : Duration) (w : World) :
  malformed X (getenv w key) ->
  getDurationEnv X key dflt w = Ret dflt w.
Proof.
  intros [Hne Hparse]. rewrite getDurationEnv_run, Hparse.
  destruct (String.eqb (getenv w key) ""); reflexivity.
Qed.

(** C10. A renewal interval or validity threshold that is set but does not
    parse as a duration is replaced by the built-in default (24h, 720h):
    loading leaves the world, and so the log, untouched, and it fails
    exactly when the API key is empty, whatever the duration values are. *)
Theorem Load_malformed_duration_defaults (X : Externals) (w : World) :
  (getenv w "IPSSL_API_KEY" = "" ->
   Load X w =
   Ret (Err (ErrNew "IPSSL_API_KEY environment variable is required")) w)
  /\
  (getenv w "IPSSL_API_KEY" <> "" ->
   exists c : Config,
     Load X w = Ret (Ok c) w
     /\ (malformed X (getenv w "RENEWAL_INTERVAL") ->
         RenewalInterval c = 24 * time_Hour)
     /\ (malformed X (getenv w "CERT_VALIDITY") ->
         CertValidity c = 720 * time_Hour)).
Proof.
  assert (Hrun : forall k d, getEnv k d w = Ret
            (if String.eqb (getenv w k) "" then d else getenv w k) w)
    by (intros; apply getEnv_run).
  split; intros Hkey.
  - unfold Load. unfold mbind at 1, M_bind at 1. rewrite Hrun.
    unfold mbind at 1, M_bind at 1. rewrite Hrun.
    unfold mbind at 1, M_bind at 1. rewrite Hrun.
    unfold mbind at 1, M_bind at 1. rewrite Hrun.
    unfold mbind at 1, M_bind at 1. rewrite Hrun.
    unfold mbind at 1, M_bind at 1. rewrite getDurationEnv_run.
    unfold mbind at 1, M_bind at 1. rewrite getDurationEnv_run.
    cbn [APIKey]. rewrite Hkey. reflexivity.
  - eexists. split; [|split].
    + unfold Load. unfold mbind at 1, M_bind at 1. rewrite Hrun.
      unfold mbind at 1, M_bind at 1. rewrite Hrun.
      unfold mbind at 1, M_bind at 1. rewrite Hrun.
      unfold mbind at 1, M_bind at 1. rewrite Hrun.
      unfold mbind at 1, M_bind at 1. rewrite Hrun.
      unfold mbind at 1, M_bind at 1. rewrite getDurationEnv_run.
      unfold mbind at 1, M_bind at 1. rewrite getDurationEnv_run.
      cbn [APIKey].
      assert (Hf : String.eqb (getenv w "IPSSL_API_KEY") "" = false)
        by (apply String.eqb_neq; exact Hkey).
      rewrite Hf. rewrite Hf. reflexivity.
    + intros [Hne Hparse]. cbn [RenewalInterval]. rewrite Hparse.
      destruct (String.eqb (getenv w "RENEWAL_INTERVAL") ""); reflexivity.
    + intros [Hne Hparse]. cbn [CertValidity]. rewrite Hparse.
      destruct (String.eqb (getenv w "CERT_VALIDITY") ""); reflexivity.
Qed.

End config_facts.

(** ** The authority client *)
Module zerossl_facts.
Import vocabulary.
Import zerossl.

Lemma isLiveStatus_spec (status : string) :
  isLiveStatus status = true <-> live status.
Proof.
  unfold isLiveStatus, live.
  rewrite !orb_true_iff, !String.eqb_eq. tauto.
Qed.

Lemma sameStore_refl (w : World) : sameStore w w.
Proof. repeat split. Qed.

Lemma sameStore_trans (w1 w2 w3 : World) :
  sameStore w1 w2 -> sameStore w2 w3 -> sameStore w1 w3.
Proof.
  unfold sameStore. intros (?&?&?&?&?) (?&?&?&?&?).
  repeat split; congruence.
Qed.

Lemma sameStore_addLog (e : LogEntry) (w : World) : sameStore w (addLog e w).
Proof. repeat split. Qed.

Lemma sameStore_addEffect (e : Effect) (w : World) :
  sameStore w (addEffect e w).
Proof. repeat split. Qed.

Section Lookup.
Context (X : Externals).

Lemma findLoop_first_match (ip : string) (results : list CertificateObject) :
  forall w : World,
    exists w' : World,
      sameStore w w' /\ w_trace w' = w_trace w /\
      ((exists pre c post,
           results = (pre ++ c :: post)%list
           /\ Forall (fun c' => ~ qualifies ip c') pre
           /\ qualifies ip c
           /\ findLoop ip results w = Ret (Ok (ID c)) w')
       \/ (Forall (fun c' => ~ qualifies ip c') results
           /\ findLoop ip results w = Ret (Ok "") w')).
Proof.
  induction results as [|c rest IH]; intros w.
  - exists w. split; [apply sameStore_refl|]. split; [reflexivity|].
    right. split; [constructor | reflexivity].
  - cbn [findLoop].
    destruct (String.eqb_spec (CommonName c) ip) as [Hcn|Hcn].
    + run_monad.
      destruct (isLiveStatus (Status c)) eqn:Hlive.
      * eexists. split; [apply sameStore_addLog|]. split; [reflexivity|].
        left. exists [], c, rest.
        split; [reflexivity|]. split; [constructor|].
        split; [|reflexivity].
        split; [exact Hcn | apply isLiveStatus_spec; exact Hlive].
      * assert (Hnq : ~ qualifies ip c).
        { intros [_ Hl]. apply isLiveStatus_spec in Hl. congruence. }
        destruct (IH (addLog (Info, "Skipping certificate with invalid status")
                        (addLog (Info, "Found existing certificate") w)))
          as (w' & Hs & Ht & Hcases).
        exists w'. split.
        { eapply sameStore_trans; [|exact Hs].
          eapply sameStore_trans; apply sameStore_addLog. }
        split; [exact Ht|].
        destruct Hcases as [(pre & c0 & post & -> & Hpre & Hq & Hrun)
                           | (Hall & Hrun)].
        -- left. exists (c :: pre), c0, post.
           split; [reflexivity|]. split; [constructor; assumption|].
           split; assumption.
        -- right. split; [constructor; assumption | exact Hrun].
    + assert (Hnq : ~ qualifies ip c) by (intros [Hc _]; contradiction).
      destruct (IH w) as (w' & Hs & Ht & Hcases).
      exists w'. split; [exact Hs|]. split; [exact Ht|].
      destruct Hcases as [(pre & c0 & post & -> & Hpre & Hq & Hrun)
                         | (Hall & Hrun)].
      * left. exists (c :: pre), c0, post.
        split; [reflexivity|]. split; [constructor; assumption|].
        split; assumption.
      * right. split; [constructor; assumption | exact Hrun].
Qed.

(** C8. Given the authority's list, the lookup returns, without error,
    the identifier of the first request in list order whose subject is
    the IP and whose status is issued, pending_validation or draft;
    entries before it do not qualify (other subject, or the subject with
    another status); when no entry qualifies the result is the empty
    identifier.  The lookup lists once and changes nothing but log and
    trace. *)
Theorem findExistingCertificate_first_match
    (ip : string) (results : list CertificateObject) (w : World) :
  x_ListCertificates X (w_trace w) = Ok results ->
  exists w' : World,
    sameStore w w'
    /\ w_trace w' = EListCertificates :: w_trace w
    /\ ((exists pre c post,
            results = (pre ++ c :: post)%list
            /\ Forall (fun c' => ~ qualifies ip c') pre
            /\ qualifies ip c
            /\ findExistingCertificate X ip w = Ret (Ok (ID c)) w')
        \/ (Forall (fun c' => ~ qualifies ip c') results
            /\ findExistingCertificate X ip w = Ret (Ok "") w')).
Proof.
  intros Hlist.
  destruct (findLoop_first_match ip results (addEffect EListCertificates w))
    as (w' & Hs & Ht & Hcases).
  exists w'. split.
  { eapply sameStore_trans; [apply sameStore_addEffect | exact Hs]. }
  split; [exact Ht|].
  unfold findExistingCertificate, api_ListCertificates. run_monad.
  rewrite Hlist. exact Hcases.
Qed.

End Lookup.

End zerossl_facts.

(** ** The issuance poll loop *)
Module poll_facts.
Import vocabulary.
Import zerossl zerossl_facts.

Section Poll.
Context (X : Externals).








End Poll.

End poll_facts.

(** ** The certificate store: validity *)
Module validity_facts.
Import vocabulary.
Import zerossl.

(** C1, as the code has it. The check reads the clock twice, [now1] for
    the expiry test and [now2] for the threshold test.  It returns true
    exactly when the file parses as a certificate, [now1] is not after
    NotAfter, and NotAfter is not before [now2 + threshold]: both
    comparisons admit equality, so a certificate whose NotAfter is exactly
    now + threshold is still valid.  A true result carries no error. *)
Theorem IsCertificateValid_true_iff
    (X : Externals) (certPath : string) (threshold : Duration) (w : World) :
  let tr := EReadFile certPath :: w_trace w in
  let now1 := x_Now X tr in
  let now2 := x_Now X (ENow :: tr) in
  exists (b : bool) (e : option error) (w' : World),
    IsCertificateValid X certPath threshold w = Ret (b, e) w'
    /\ (b = true <->
        exists cert, parsesAs X w certPath cert
                     /\ now1 <= NotAfter cert
                     /\ now2 + threshold <= NotAfter cert)
    /\ (b = true -> e = None).
Proof.
  intros tr now1 now2. subst tr now1 now2.
  unfold IsCertificateValid, parsesAs, os_ReadFile, time_Now. run_monad.
  destruct (x_ReadFileErr X (w_trace w) certPath) as [e|] eqn:Hread.
  { eexists _, _, _. split; [reflexivity|]. split; [|discriminate].
    split; [discriminate|].
    intros (c & (f & der & H & _) & _). discriminate H. }
  destruct (w_files w !! certPath) as [f|] eqn:Hfile.
  2:{ eexists _, _, _. split; [reflexivity|]. split; [|discriminate].
      split; [discriminate|].
      intros (c & (f & der & _ & H & _) & _). discriminate H. }
  destruct (x_pemDecode X (f_data f)) as [der|] eqn:Hpem.
  2:{ eexists _, _, _. split; [reflexivity|]. split; [|discriminate].
      split; [discriminate|].
      intros (c & (f' & der & _ & H & Hd & _) & _).
      injection H as <-. congruence. }
  destruct (x_ParseCertificate X der) as [cert|e] eqn:Hparse.
  2:{ eexists _, _, _. split; [reflexivity|]. split; [|discriminate].
      split; [discriminate|].
      intros (c & (f' & der' & _ & H & Hd & Hp) & _).
      injection H as <-. rewrite Hpem in Hd. injection Hd as <-.
      congruence. }
  cbn [addEffect w_trace].
  unfold Time_After, Time_Before, Time_Add.
  destruct (Z.ltb_spec (NotAfter cert)
              (x_Now X (EReadFile certPath :: w_trace w))) as [Hexp|Hexp].
  { eexists _, _, _. split; [reflexivity|]. split; [|discriminate].
    split; [discriminate|].
    intros (c & (f' & der' & _ & H & Hd & Hp) & Hle & _).
    injection H as <-. rewrite Hpem in Hd. injection Hd as <-.
    rewrite Hparse in Hp. injection Hp as <-. lia. }
  cbn [addEffect w_trace].
  destruct (Z.ltb_spec (NotAfter cert)
              (x_Now X (ENow :: EReadFile certPath :: w_trace w)
               + threshold)) as [Hthr|Hthr].
  { eexists _, _, _. split; [reflexivity|]. split; [|discriminate].
    split; [discriminate|].
    intros (c & (f' & der' & _ & H & Hd & Hp) & _ & Hle).
    injection H as <-. rewrite Hpem in Hd. injection Hd as <-.
    rewrite Hparse in Hp. injection Hp as <-. lia. }
  eexists _, _, _. split; [reflexivity|]. split; [|reflexivity].
  split; [|reflexivity]. intros _.
  exists cert. split; [|split; assumption].
  exists f, der. auto.
Qed.

(** C1 as stated fails at the boundary: the clock stands at [now], the
    stored certificate has NotAfter = now + threshold, and the check answers
    true. *)
Lemma IsCertificateValid_boundary_is_valid :
  let X := scenario.boundaryExternals in
  let w := scenario.boundaryWorld in
  let now := 1000 in
  let threshold := 500 in
  (forall tr, x_Now X tr = now)
  /\ parsesAs X w "/ipssl/cert.pem" {| NotAfter := now + threshold |}
  /\ stepValue (IsCertificateValid X "/ipssl/cert.pem" threshold w)
     = Some (true, None).
Proof.
  split; [reflexivity|]. split; [|vm_compute; reflexivity].
  eexists _, "LEAF:a". repeat split; reflexivity.
Qed.

End validity_facts.

(** ** Strings and paths *)
Module filepath_facts.
Import vocabulary.
Import filepath.

Lemma app_cons (a : ascii) (s t : string) :
  String a s +:+ t = String a (s +:+ t).
Proof. reflexivity. Qed.


Lemma app_assoc (s t u : string) : (s +:+ t) +:+ u = s +:+ t +:+ u.
Proof.
  induction s as [|a s IH]; [reflexivity|].
  rewrite !app_cons, IH. reflexivity.
Qed.

Lemma split_nonempty (s : string) : split s <> [].
Proof.
  destruct s as [|c s]; cbn; [discriminate|].
  destruct (isSep c); [discriminate|].
  destruct (split s); discriminate.
Qed.

Lemma split_noSep (s : string) : noSep s = true -> split s = [s].
Proof.
  induction s as [|c s IH]; cbn; [reflexivity|].
  intros [Hc Hs]%andb_true_iff.
  destruct (isSep c); [discriminate|].
  rewrite (IH Hs). reflexivity.
Qed.

Lemma split_app_sep (a b : string) :
  split (a +:+ "/" +:+ b) = (split a ++ split b)%list.
Proof.
  induction a as [|c a IH]; [reflexivity|].
  rewrite app_cons. cbn [split]. rewrite IH.
  destruct (isSep c); [reflexivity|].
  destruct (split a) as [|h t] eqn:Hsplit; [|reflexivity].
  exfalso. exact (split_nonempty a Hsplit).
Qed.


Lemma joinWith_snoc (sep : string) (l : list string) (n : string) :
  joinWith sep (l ++ [n]) =
  match l with
  | [] => n
  | _ => joinWith sep l +:+ sep +:+ n
  end.
Proof.
  induction l as [|x l IH]; [reflexivity|].
  destruct l as [|y l]; [reflexivity|].
  change (joinWith sep ((x :: y :: l) ++ [n]))
    with (x +:+ sep +:+ joinWith sep ((y :: l) ++ [n])).
  rewrite IH.
  change (joinWith sep (x :: y :: l))
    with (x +:+ sep +:+ joinWith sep (y :: l)).
  rewrite !app_assoc. reflexivity.
Qed.

Lemma cleanStep_plain (rooted : bool) (out : list string) (n : string) :
  plain n = true -> cleanStep rooted out n = n :: out.
Proof.
  unfold plain, cleanStep.
  intros [[[_ H1]%andb_true_iff H2]%andb_true_iff H3]%andb_true_iff.
  apply negb_true_iff in H1, H2, H3. rewrite H1, H2, H3. reflexivity.
Qed.

(** Joining a directory with a plain file name keeps the name as the end
    of the result; what comes before depends on the directory only. *)
Lemma Join_plain_suffix (dir : string) :
  exists pre : string,
    forall n : string, plain n = true -> Join [dir; n] = pre +:+ n.
Proof.
  destruct dir as [|c d].
  - exists "". intros n Hp.
    assert (Hparts := Hp). unfold plain in Hparts.
    apply andb_true_iff in Hparts as [Hparts _].
    apply andb_true_iff in Hparts as [Hparts _].
    apply andb_true_iff in Hparts as [Hns Hne].
    apply negb_true_iff in Hne.
    unfold Join. cbn [dropEmpty].
    change (String.eqb "" "") with true. cbn iota. rewrite Hne.
    cbn [joinWith]. unfold Clean.
    destruct n as [|a n']; [discriminate Hne|].
    rewrite (split_noSep _ Hns). cbn [fold_left].
    rewrite (cleanStep_plain _ _ _ Hp).
    cbn in Hns. apply andb_true_iff in Hns as [Ha _].
    apply negb_true_iff in Ha. rewrite Ha. reflexivity.
  - set (st := fold_left (cleanStep (isSep c)) (split (String c d)) []).
    exists (if isSep c
            then "/" +:+ match rev st with
                         | [] => ""
                         | _ => joinWith "/" (rev st) +:+ "/"
                         end
            else match rev st with
                 | [] => ""
                 | _ => joinWith "/" (rev st) +:+ "/"
                 end).
    intros n Hp.
    assert (Hparts := Hp). unfold plain in Hparts.
    apply andb_true_iff in Hparts as [Hparts _].
    apply andb_true_iff in Hparts as [Hparts _].
    apply andb_true_iff in Hparts as [Hns Hne].
    apply negb_true_iff in Hne.
    unfold Join. cbn [dropEmpty].
    change (String.eqb (String c d) "") with false. cbn iota.
    change (joinWith "/" [String c d; n]) with (String c d +:+ "/" +:+ n).
    unfold Clean. rewrite app_cons. rewrite <- app_cons.
    rewrite split_app_sep, (split_noSep n Hns), fold_left_app.
    cbn [fold_left]. fold st. rewrite (cleanStep_plain _ _ _ Hp).
    cbn [rev]. rewrite joinWith_snoc.
    destruct (isSep c).
    + destruct (rev st) as [|x l]; [reflexivity|].
      rewrite !app_assoc. reflexivity.
    + destruct (rev st) as [|x l] eqn:Hrev; [reflexivity|].
      cbn [app]. rewrite <- Hrev.
      destruct (rev st ++ [n])%list eqn:Hsn.
      { destruct (rev st); discriminate Hsn. }
      rewrite Hrev, !app_assoc. reflexivity.
Qed.

Lemma Join_plain_inj (dir n1 n2 : string) :
  plain n1 = true -> plain n2 = true ->
  Join [dir; n1] = Join [dir; n2] -> n1 = n2.
Proof.
  intros H1 H2 Heq.
  destruct (Join_plain_suffix dir) as [pre Hpre].
  rewrite (Hpre n1 H1), (Hpre n2 H2) in Heq.
  exact (String.app_inj pre _ _ Heq).
Qed.



End filepath_facts.

(** ** The validation file writer *)
Module validation_facts.
Import vocabulary.
Import zerossl zerossl_facts filepath_facts.

Section Writer.
Context (X : Externals).




End Writer.

End validation_facts.

(** ** Failures while writing validation files *)
Module validation_failure_facts.
Import vocabulary.
Import zerossl zerossl_facts validation_facts.

Section Failure.
Context (X : Externals).

Lemma validationLoop_error (updated : bool) (validationDir : string)
    (methods : list (string * ValidationMethod)) :
  forall (w : World) (err : error) (w' : World),
    validationLoop X updated validationDir methods w = Ret (Some err) w' ->
    filesystemError err /\ endsInFsFailure w'.
Proof.
  induction methods as [|[method v] rest IH]; intros w err w' Hrun.
  - discriminate Hrun.
  - cbn [validationLoop] in Hrun.
    unfold os_MkdirAll, os_WriteFile in Hrun. run_monad.
    destruct (0 <? List.length (FileValidationContent v))%nat.
    + destruct updated;
        cbn [addLog addEffect setDirs setFiles w_trace] in Hrun;
        match type of Hrun with
        | context [x_MkdirAllErr X ?tr ?p] =>
            destruct (x_MkdirAllErr X tr p) as [e1|]
        end;
        try (injection Hrun as <- <-;
             split; [eexists; left; reflexivity|];
             eexists _, _; split; [reflexivity | exact I]);
        cbn [addLog addEffect setDirs setFiles w_trace] in Hrun;
        match type of Hrun with
        | context [x_WriteFileErr X ?tr ?p] =>
            destruct (x_WriteFileErr X tr p) as [e2|]
        end;
        try (injection Hrun as <- <-;
             split; [eexists; right; reflexivity|];
             eexists _, _; split; [reflexivity | exact I]);
        eapply IH; exact Hrun.
    + eapply IH; exact Hrun.
Qed.

Lemma writeValidationFiles_error (updated : bool) (validationDir : string)
    (details : CertificateObject) (w : World) (err : error) (w' : World) :
  writeValidationFiles X updated validationDir details w
  = Ret (Some err) w' ->
  filesystemError err /\ endsInFsFailure w'.
Proof.
  unfold writeValidationFiles. intros Hrun.
  destruct (Validation details) as [[[methods|]]|];
    run_monad; try discriminate Hrun.
  eapply validationLoop_error. exact Hrun.
Qed.

Lemma ValidateCertificate_fs_failure (certID validationDir : string)
    (w : World) (err : error) (w' : World) :
  ValidateCertificate X certID validationDir w = Ret (Some err) w' ->
  filesystemError err ->
  endsInFsFailure w'.
Proof.
  unfold ValidateCertificate, api_GetCertificate, api_VerifyIdentifiers.
  run_monad. intros Hrun Hfs.
  destruct (x_GetCertificate X _ certID) as [d|e].
  2:{ injection Hrun as <- <-. destruct Hfs as [inner [H|H]];
      discriminate H. }
  match type of Hrun with
  | context [writeValidationFiles X false validationDir d ?w0] =>
      destruct (writeValidationFiles X false validationDir d w0)
        as [[err1|] w1|w1] eqn:Hfirst
  end; try discriminate Hrun.
  { injection Hrun as <- <-.
    eapply writeValidationFiles_error. exact Hfirst. }
  cbn [addLog addEffect w_trace] in Hrun.
  destruct (x_VerifyIdentifiers X _ certID);
    cbn [addLog addEffect w_trace] in Hrun;
    (destruct (x_GetCertificate X _ certID) as [d2|e2];
     [|injection Hrun as <- <-; destruct Hfs as [inner [H|H]];
       discriminate H]);
    match type of Hrun with
    | context [writeValidationFiles X true validationDir d2 ?w0] =>
        destruct (writeValidationFiles X true validationDir d2 w0)
          as [[err2|] w2|w2] eqn:Hsecond
    end; try discriminate Hrun;
    injection Hrun as <- <-;
    eapply writeValidationFiles_error; exact Hsecond.
Qed.

Lemma validationLoop_mkdir_fails (updated : bool)
    (validationDir method : string) (v : ValidationMethod)
    (rest : list (string * ValidationMethod)) (w : World) (e : error) :
  let path := validationPath validationDir v in
  let dir := filepath.Dir path in
  FileValidationContent v <> [] ->
  x_MkdirAllErr X (w_trace w) dir = Some e ->
  exists w1 : World,
    validationLoop X updated validationDir ((method, v) :: rest) w =
    Ret (Some (ErrWrap "failed to create validation directory" e)) w1
    /\ w_trace w1 = EMkdirAll dir mode_0755 false :: w_trace w
    /\ sameStore w w1.
Proof.
  intros path dir Hne Hmk. subst path dir. unfold validationPath in *.
  cbn [validationLoop].
  destruct (FileValidationContent v) as [|t ts] eqn:Htokens;
    [contradiction|].
  rewrite <- Htokens.
  assert (Hlen : (0 <? List.length (FileValidationContent v))%nat = true)
    by (rewrite Htokens; reflexivity).
  rewrite Hlen. unfold os_MkdirAll. run_monad.
  destruct updated; cbn [addLog addEffect w_trace]; rewrite Hmk;
    (eexists; split; [reflexivity|]; split; [reflexivity|]);
    repeat split.
Qed.

Lemma validationLoop_write_fails (updated : bool)
    (validationDir method : string) (v : ValidationMethod)
    (rest : list (string * ValidationMethod)) (w : World) (e : error) :
  let path := validationPath validationDir v in
  let dir := filepath.Dir path in
  FileValidationContent v <> [] ->
  x_MkdirAllErr X (w_trace w) dir = None ->
  x_WriteFileErr X (EMkdirAll dir mode_0755 true :: w_trace w) path
  = Some e ->
  exists w1 : World,
    validationLoop X updated validationDir ((method, v) :: rest) w =
    Ret (Some (ErrWrap "failed to write validation file" e)) w1
    /\ w_trace w1 =
       EWriteFile path mode_0644 false :: EMkdirAll dir mode_0755 true
         :: w_trace w.
Proof.
  intros path dir Hne Hmk Hwr. subst path dir. unfold validationPath in *.
  cbn [validationLoop].
  destruct (FileValidationContent v) as [|t ts] eqn:Htokens;
    [contradiction|].
  rewrite <- Htokens.
  assert (Hlen : (0 <? List.length (FileValidationContent v))%nat = true)
    by (rewrite Htokens; reflexivity).
  rewrite Hlen. unfold os_MkdirAll, os_WriteFile. run_monad.
  destruct updated; cbn [addLog addEffect setDirs w_trace]; rewrite Hmk;
    cbn [addLog addEffect setDirs w_trace]; rewrite Hwr;
    (eexists; split; [reflexivity|]; reflexivity).
Qed.

Lemma fsVerdict_quiet (w w' : World) (res : option error)
    (new : list Effect) :
  w_trace w' = (new ++ w_trace w)%list ->
  noFsFailure new ->
  (forall err, res = Some err -> ~ filesystemError err) ->
  fsVerdict X w w' res.
Proof. intros Htr Hall Hres. exists new. split; [exact Htr|]. right. auto. Qed.

Lemma fsVerdict_after (w w1 w' : World) (res : option error)
    (pre : list Effect) :
  w_trace w1 = (pre ++ w_trace w)%list ->
  noFsFailure pre ->
  fsVerdict X w1 w' res ->
  fsVerdict X w w' res.
Proof.
  intros Hpre Hall (new & Htr & Hcase). exists (new ++ pre)%list.
  split; [rewrite Htr, Hpre, List.app_assoc; reflexivity|].
  destruct Hcase as [(e & earlier & err & -> & Hrep & Hearlier & ->)
                    | (Hnew & Hres)].
  - left. exists e, (earlier ++ pre)%list, err.
    split; [reflexivity|].
    split; [rewrite <- List.app_assoc, <- Hpre; exact Hrep|].
    split; [apply Forall_app; split; assumption | reflexivity].
  - right. split; [apply Forall_app; split; assumption | exact Hres].
Qed.

Lemma fsVerdict_then (w w1 w' : World) (res : option error) :
  fsVerdict X w w1 None -> fsVerdict X w1 w' res -> fsVerdict X w w' res.
Proof.
  intros (pre & Hpre & Hcase) Hnext.
  destruct Hcase as [(e & earlier & err & _ & _ & _ & Hres) | (Hall & _)];
    [discriminate Hres|].
  eapply fsVerdict_after; eassumption.
Qed.

Lemma noFsFailure_one (e : Effect) : ~ failedFsEffect e -> noFsFailure [e].
Proof. intros H. constructor; [exact H | constructor]. Qed.

Lemma validationLoop_verdict (updated : bool) (validationDir : string)
    (methods : list (string * ValidationMethod)) :
  forall (w : World) (res : option error) (w' : World),
    validationLoop X updated validationDir methods w = Ret res w' ->
    fsVerdict X w w' res.
Proof.
  induction methods as [|[method v] rest IH]; intros w res w' Hrun.
  - injection Hrun as <- <-.
    apply (fsVerdict_quiet w w None []); [reflexivity | constructor|].
    discriminate.
  - cbn [validationLoop] in Hrun.
    unfold os_MkdirAll, os_WriteFile in Hrun. run_monad.
    destruct (0 <? List.length (FileValidationContent v))%nat.
    + destruct updated;
        cbn [addLog addEffect setDirs setFiles w_trace] in Hrun;
        match type of Hrun with
        | context [x_MkdirAllErr X ?tr ?p] =>
            destruct (x_MkdirAllErr X tr p) as [e1|] eqn:Hmk
        end.
      1,3: injection Hrun as <- <-;
        eexists [_]; (split; [reflexivity|]); left;
        eexists _, [], _; (split; [reflexivity|]);
        (split; [left; eexists _, _, _; split; [reflexivity|];
                 split; [exact Hmk | reflexivity]|]);
        split; [constructor | reflexivity].
      all: cbn [addLog addEffect setDirs setFiles w_trace] in Hrun;
        match type of Hrun with
        | context [x_WriteFileErr X ?tr ?p] =>
            destruct (x_WriteFileErr X tr p) as [e2|] eqn:Hwr
        end.
      1,3: injection Hrun as <- <-;
        eexists [_; _]; (split; [reflexivity|]); left;
        eexists _, [_], _; (split; [reflexivity|]);
        (split; [right; eexists _, _, _; split; [reflexivity|];
                 split; [exact Hwr | reflexivity]|]);
        split; [apply noFsFailure_one; intros [] | reflexivity].
      all: apply IH in Hrun;
        eapply (fsVerdict_after w _ w' res [_; _]); [| |exact Hrun];
        [reflexivity
        |constructor; [intros [] | apply noFsFailure_one; intros []]].
    + apply IH in Hrun.
      eapply (fsVerdict_after w _ w' res []); [| |exact Hrun];
        [reflexivity | constructor].
Qed.

Lemma writeValidationFiles_verdict (updated : bool) (validationDir : string)
    (details : CertificateObject) (w : World) (res : option error)
    (w' : World) :
  writeValidationFiles X updated validationDir details w = Ret res w' ->
  fsVerdict X w w' res.
Proof.
  unfold writeValidationFiles. intros Hrun.
  destruct (Validation details) as [[[methods|]]|]; run_monad;
    try (injection Hrun as <- <-;
         apply (fsVerdict_quiet w _ None []);
         [reflexivity | constructor | discriminate]).
  apply validationLoop_verdict in Hrun.
  eapply (fsVerdict_after w _ w' res []); [| |exact Hrun];
    [reflexivity | constructor].
Qed.

Lemma fetchError_not_fs (prefix : string) (e : error) :
  prefix = "failed to get certificate details"
  \/ prefix = "failed to get updated certificate details" ->
  forall err, Some (ErrWrap prefix e) = Some err -> ~ filesystemError err.
Proof.
  intros Hp err [= <-] [inner [H|H]]; destruct Hp as [-> | ->];
    discriminate H.
Qed.

Lemma ValidateCertificate_verdict (certID validationDir : string)
    (w : World) (res : option error) (w' : World) :
  ValidateCertificate X certID validationDir w = Ret res w' ->
  fsVerdict X w w' res.
Proof.
  unfold ValidateCertificate, api_GetCertificate, api_VerifyIdentifiers.
  run_monad. intros Hrun.
  destruct (x_GetCertificate X _ certID) as [d|e].
  2:{ injection Hrun as <- <-.
      eapply (fsVerdict_quiet w _ _ [_]);
        [reflexivity | apply noFsFailure_one; intros []|].
      apply fetchError_not_fs. left. reflexivity. }
  match type of Hrun with
  | context [writeValidationFiles X false validationDir d ?w0] =>
      destruct (writeValidationFiles X false validationDir d w0)
        as [[err1|] w1|w1] eqn:Hfirst
  end; try discriminate Hrun;
    apply writeValidationFiles_verdict in Hfirst;
    (eapply (fsVerdict_after w _ _ _ [_]) in Hfirst;
     [|reflexivity | apply noFsFailure_one; intros []]).
  { injection Hrun as <- <-. exact Hfirst. }
  eapply fsVerdict_then; [exact Hfirst|]. clear Hfirst.
  cbn [addLog addEffect w_trace] in Hrun.
  destruct (x_VerifyIdentifiers X _ certID);
    cbn [addLog addEffect w_trace] in Hrun;
    (destruct (x_GetCertificate X _ certID) as [d2|e2];
     [|injection Hrun as <- <-;
       eapply (fsVerdict_quiet w1 _ _ [_; _]);
       [reflexivity
       |constructor; [intros [] | apply noFsFailure_one; intros []]
       |apply fetchError_not_fs; right; reflexivity]]);
    (match type of Hrun with
     | context [writeValidationFiles X true validationDir d2 ?w0] =>
         destruct (writeValidationFiles X true validationDir d2 w0)
           as [[err2|] w2|w2] eqn:Hsecond
     end; try discriminate Hrun;
     apply writeValidationFiles_verdict in Hsecond;
     (eapply (fsVerdict_after w1 _ _ _ [_; _]) in Hsecond;
      [|reflexivity
       |constructor; [intros [] | apply noFsFailure_one; intros []]]);
     injection Hrun as <- <-);
    [exact Hsecond | | exact Hsecond |];
    (eapply fsVerdict_then; [exact Hsecond|];
     apply (fsVerdict_quiet _ _ None []);
     [reflexivity | constructor | discriminate]).
Qed.

Lemma reportsFailure_fs (tr : list Effect) (e : Effect) (err : error) :
  reportsFailure X tr e err -> failedFsEffect e /\ filesystemError err.
Proof.
  intros [(path & mode & inner & -> & _ & ->)
         |(path & mode & inner & -> & _ & ->)];
    (split; [exact I|]); exists inner; [left | right]; reflexivity.
Qed.

(** C4, as the code has it. A failed creation of the validation
    directory or a failed write of a validation file makes the loop return
    at once with the error of the operating system, wrapped as failed to
    create validation directory or failed to write validation file.  For
    the validation as a whole: a file-system operation has failed during
    [ValidateCertificate] exactly when its result is such an error; the
    failed operation is then its last effect, the only one that failed,
    and the one that the error reports, so no fetch of the request follows
    it; and [RequestCertificate] gives up in the very same world with the
    error wrapped. *)
Theorem ValidateCertificate_fs_failure_is_final
    (ip : string) (events : list SelectEvent) (w : World)
    (certObj : CertificateObject) (w1 : World) (res : option error)
    (w2 : World) :
  let w0 :=
    addLog (Info, "=== ENTERING RequestCertificate METHOD ===")
      (addLog (Info, "Requesting certificate from ZeroSSL") w) in
  let validationDir :=
    if String.eqb (getenv w1 "IPSSL_VALIDATION_DIR") ""
    then "/usr/share/caddy/" else getenv w1 "IPSSL_VALIDATION_DIR" in
  (forall (updated : bool) (dir method : string) (v : ValidationMethod)
          (rest : list (string * ValidationMethod)) (w3 : World)
          (e : error),
      FileValidationContent v <> [] ->
      x_MkdirAllErr X (w_trace w3) (filepath.Dir (validationPath dir v))
      = Some e ->
      exists w4 : World,
        validationLoop X updated dir ((method, v) :: rest) w3 =
        Ret (Some (ErrWrap "failed to create validation directory" e)) w4
        /\ w_trace w4 =
           EMkdirAll (filepath.Dir (validationPath dir v)) mode_0755 false
             :: w_trace w3)
  /\ (forall (updated : bool) (dir method : string) (v : ValidationMethod)
             (rest : list (string * ValidationMethod)) (w3 : World)
             (e : error),
         FileValidationContent v <> [] ->
         x_MkdirAllErr X (w_trace w3) (filepath.Dir (validationPath dir v))
         = None ->
         x_WriteFileErr X
           (EMkdirAll (filepath.Dir (validationPath dir v)) mode_0755 true
              :: w_trace w3)
           (validationPath dir v) = Some e ->
         exists w4 : World,
           validationLoop X updated dir ((method, v) :: rest) w3 =
           Ret (Some (ErrWrap "failed to write validation file" e)) w4
           /\ w_trace w4 =
              EWriteFile (validationPath dir v) mode_0644 false
                :: EMkdirAll (filepath.Dir (validationPath dir v))
                     mode_0755 true
                :: w_trace w3)
  /\ (obtainRequest X ip w0 = Ret (Ok certObj) w1 ->
      ValidateCertificate X (ID certObj) validationDir w1 = Ret res w2 ->
      exists new : list Effect,
        w_trace w2 = (new ++ w_trace w1)%list
        /\ (Exists failedFsEffect new <->
            exists err, res = Some err /\ filesystemError err)
        /\ forall err : error,
             res = Some err -> filesystemError err ->
             (exists (e : Effect) (earlier : list Effect),
                 new = e :: earlier
                 /\ reportsFailure X (earlier ++ w_trace w1)%list e err
                 /\ noFsFailure earlier)
             /\ endsInFsFailure w2
             /\ RequestCertificate X ip events w =
                Ret (Err (ErrWrap "failed to validate certificate" err)) w2).
Proof.
  intros w0 validationDir.
  split.
  { intros updated dir method v rest w3 e Hne Hmk.
    destruct (validationLoop_mkdir_fails updated dir method v rest w3 e
                Hne Hmk) as (w4 & Hrun & Htr & _).
    exists w4. split; assumption. }
  split.
  { intros updated dir method v rest w3 e Hne Hmk Hwr.
    exact (validationLoop_write_fails updated dir method v rest w3 e
             Hne Hmk Hwr). }
  intros Hreq Hval.
  destruct (ValidateCertificate_verdict _ _ _ _ _ Hval)
    as (new & Htr & Hcase).
  exists new. split; [exact Htr|].
  destruct Hcase as [(e & earlier & err & -> & Hrep & Hearlier & ->)
                    | (Hall & Hres)].
  - destruct (reportsFailure_fs _ _ _ Hrep) as [Hfailed Hfs].
    split.
    { split; [intros _; exists err; split; [reflexivity | exact Hfs]|].
      intros _. apply Exists_cons_hd. exact Hfailed. }
    intros err' [= <-] _.
    split; [exists e, earlier; split; [reflexivity|]; split; assumption|].
    split; [exists e, (earlier ++ w_trace w1)%list;
            split; [exact Htr | exact Hfailed]|].
    unfold RequestCertificate. run_monad. fold w0. rewrite Hreq.
    fold validationDir. rewrite Hval. reflexivity.
  - split.
    { split.
      - intros Hex. exfalso. apply List.Exists_exists in Hex.
        destruct Hex as (e & Hin & Hfailed).
        exact (proj1 (List.Forall_forall _ _) Hall e Hin Hfailed).
      - intros (err & -> & Hfs). exfalso. exact (Hres err eq_refl Hfs). }
    intros err -> Hfs. exfalso. exact (Hres err eq_refl Hfs).
Qed.

End Failure.

(** C4 as stated fails: after the failed directory creation nothing more
    is asked of the authority. The whole attempt consists of the listing,
    the fetch of the found request, the first fetch of the validation and
    the failed [MkdirAll]. *)
Lemma RequestCertificate_no_fetch_after_fs_failure :
  let run :=
    RequestCertificate scenario.readOnlyExternals scenario.ip [TickerC; TickerC]
      (scenario.world ∅ ∅) in
  stepValue run =
  Some (Err (ErrWrap "failed to validate certificate"
               (ErrWrap "failed to create validation directory"
                  (ErrNew "read-only file system"))))
  /\ w_trace (stepWorld run) =
     [ EMkdirAll "/usr/share/caddy/.well-known/pki-validation" mode_0755
         false;
       EGetCertificate "abc123";
       EGetCertificate "abc123";
       EListCertificates ].
Proof. split; vm_compute; reflexivity. Qed.

End validation_failure_facts.

(** ** What a run adds to the effect trace *)
Module trace_facts.
Import vocabulary.

Lemma extends_refl (P : Effect -> Prop) (w w' : World) :
  w_trace w' = w_trace w -> extends P w w'.
Proof. intros H. exists []. split; [exact H | constructor]. Qed.

Lemma extends_one (P : Effect -> Prop) (e : Effect) (w w' : World) :
  P e -> w_trace w' = e :: w_trace w -> extends P w w'.
Proof.
  intros HP H. exists [e]. split; [exact H | repeat constructor; exact HP].
Qed.

Lemma extends_trans (P : Effect -> Prop) (w1 w2 w3 : World) :
  extends P w1 w2 -> extends P w2 w3 -> extends P w1 w3.
Proof.
  intros (n1 & H1 & F1) (n2 & H2 & F2). exists (n2 ++ n1)%list.
  split; [rewrite H2, H1, app_assoc; reflexivity|].
  apply Forall_app; split; assumption.
Qed.

Section Grows.
Context (X : Externals) (P : Effect -> Prop).

Lemma grows_ret {A : Type} (a : A) : grows P (mret a).
Proof. intros w. apply extends_refl. reflexivity. Qed.

Lemma grows_bind {A B : Type} (m : M A) (f : A -> M B) :
  grows P m -> (forall a, grows P (f a)) -> grows P (m ≫= f).
Proof.
  intros Hm Hf w. unfold mbind, M_bind. specialize (Hm w).
  destruct (m w) as [a w1|w1]; cbn [stepWorld] in *.
  - eapply extends_trans; [exact Hm | apply Hf].
  - exact Hm.
Qed.

Lemma grows_blocked {A : Type} : grows P (fun w => @Blocked A w).
Proof. intros w. apply extends_refl. reflexivity. Qed.

Lemma grows_logInfo (msg : string) : grows P (logInfo msg).
Proof. intros w. apply extends_refl. reflexivity. Qed.

Lemma grows_logWarn (msg : string) : grows P (logWarn msg).
Proof. intros w. apply extends_refl. reflexivity. Qed.

Lemma grows_logError (msg : string) : grows P (logError msg).
Proof. intros w. apply extends_refl. reflexivity. Qed.

Lemma grows_Getenv (key : string) : grows P (os_Getenv key).
Proof. intros w. apply extends_refl. reflexivity. Qed.

Lemma grows_storeKey (ip : string) (k : PrivateKey) :
  grows P (zerossl.storeKey ip k).
Proof. intros w. apply extends_refl. reflexivity. Qed.

Lemma grows_lookupKey (ip : string) : grows P (zerossl.lookupKey ip).
Proof. intros w. apply extends_refl. reflexivity. Qed.

Lemma grows_Now : P ENow -> grows P (time_Now X).
Proof. intros HP w. eapply extends_one; [exact HP | reflexivity]. Qed.

Lemma grows_GenerateKey : P EGenerateKey -> grows P (rsa_GenerateKey X).
Proof. intros HP w. eapply extends_one; [exact HP | reflexivity]. Qed.

Lemma grows_CreateCSR (t : CertificateRequest) (k : PrivateKey) :
  P ECreateCSR -> grows P (x509_CreateCertificateRequest X t k).
Proof. intros HP w. eapply extends_one; [exact HP | reflexivity]. Qed.

Lemma grows_ListCertificates :
  P EListCertificates -> grows P (api_ListCertificates X).
Proof. intros HP w. eapply extends_one; [exact HP | reflexivity]. Qed.

Lemma grows_GetCertificate (id : string) :
  P (EGetCertificate id) -> grows P (api_GetCertificate X id).
Proof. intros HP w. eapply extends_one; [exact HP | reflexivity]. Qed.

Lemma grows_CreateCertificate (csr : CertificateRequest) (days : Z) :
  P (ECreateCertificate (csr_CommonName csr) days) ->
  grows P (api_CreateCertificate X csr days).
Proof. intros HP w. eapply extends_one; [exact HP | reflexivity]. Qed.

Lemma grows_VerifyIdentifiers (id : string) :
  P (EVerifyIdentifiers id) -> grows P (api_VerifyIdentifiers X id).
Proof. intros HP w. eapply extends_one; [exact HP | reflexivity]. Qed.

Lemma grows_DownloadCertificate (id : string) (b : bool) :
  P (EDownloadCertificate id b) ->
  grows P (api_DownloadCertificate X id b).
Proof. intros HP w. eapply extends_one; [exact HP | reflexivity]. Qed.

Lemma grows_MkdirAll (path : string) (mode : Z) :
  (forall ok, P (EMkdirAll path mode ok)) ->
  grows P (os_MkdirAll X path mode).
Proof.
  intros HP w. unfold os_MkdirAll.
  destruct (x_MkdirAllErr X (w_trace w) path);
    (eapply extends_one; [apply HP | reflexivity]).
Qed.

Lemma grows_WriteFile (path data : string) (mode : Z) :
  (forall ok, P (EWriteFile path mode ok)) ->
  grows P (os_WriteFile X path data mode).
Proof.
  intros HP w. unfold os_WriteFile.
  destruct (x_WriteFileErr X (w_trace w) path);
    (eapply extends_one; [apply HP | reflexivity]).
Qed.

Lemma grows_ReadFile (path : string) :
  P (EReadFile path) -> grows P (os_ReadFile X path).
Proof.
  intros HP w. unfold os_ReadFile.
  destruct (x_ReadFileErr X (w_trace w) path);
    [|destruct (w_files w !! path)];
    (eapply extends_one; [exact HP | reflexivity]).
Qed.

Lemma grows_Stat (path : string) : P (EStat path) -> grows P (os_Stat path).
Proof.
  intros HP w. unfold os_Stat.
  destruct (w_files w !! path); [|destruct (decide (path ∈ w_dirs w))];
    (eapply extends_one; [exact HP | reflexivity]).
Qed.

Lemma grows_ContainerList :
  P EContainerList -> grows P (docker_ContainerList X).
Proof. intros HP w. eapply extends_one; [exact HP | reflexivity]. Qed.

Lemma grows_ContainerKill (id signal : string) :
  P (EContainerKill id signal) -> grows P (docker_ContainerKill X id signal).
Proof. intros HP w. eapply extends_one; [exact HP | reflexivity]. Qed.

End Grows.

(** The side condition of a primitive: its effect is in [P], outright or
    by a hypothesis that puts a class of effects in [P]. *)
Ltac grow_side :=
  first
    [ exact I
    | match goal with
      | H : forall e : Effect, _ -> ?P e |- ?P _ => apply H; exact I
      end ].

(** One step of a growth proof: split a bind, settle a primitive, or take
    the cases of the scrutinee. *)
Ltac grow_step :=
  first
    [ apply grows_ret
    | apply grows_blocked
    | apply grows_logInfo
    | apply grows_logWarn
    | apply grows_logError
    | apply grows_Getenv
    | apply grows_storeKey
    | apply grows_lookupKey
    | apply grows_Now; grow_side
    | apply grows_GenerateKey; grow_side
    | apply grows_CreateCSR; grow_side
    | apply grows_ListCertificates; grow_side
    | apply grows_GetCertificate; grow_side
    | apply grows_CreateCertificate; grow_side
    | apply grows_VerifyIdentifiers; grow_side
    | apply grows_DownloadCertificate; grow_side
    | apply grows_MkdirAll; intros []; grow_side
    | apply grows_WriteFile; intros []; grow_side
    | apply grows_ReadFile; grow_side
    | apply grows_Stat; grow_side
    | apply grows_ContainerList; grow_side
    | apply grows_ContainerKill; grow_side
    | assumption
    | apply grows_bind; [|intros ?]
    | progress cbv zeta
    | match goal with
      | |- grows _ (match ?x with _ => _ end) => destruct x
      | |- grows _ (if ?b then _ else _) => destruct b
      end ].

Ltac grow := repeat grow_step.

End trace_facts.

(** ** The download of the issued certificate *)
Module download_facts.
Import vocabulary.
Import zerossl trace_facts.

Lemma notDownload_fullDownload (e : Effect) : notDownload e -> fullDownload e.
Proof. destruct e; cbn; tauto. Qed.

Section Growth.
Context (X : Externals) (P : Effect -> Prop).
Context (HP : forall e : Effect, notDownload e -> P e).

Lemma grows_findLoop (ip : string) (results : list CertificateObject) :
  grows P (findLoop ip results).
Proof. induction results as [|c rest IH]; cbn [findLoop]; grow. Qed.

Lemma grows_findExistingCertificate (ip : string) :
  grows P (findExistingCertificate X ip).
Proof. unfold findExistingCertificate. grow. apply grows_findLoop. Qed.

Lemma grows_createIPCertificate (ip : string) :
  grows P (createIPCertificate X ip).
Proof. unfold createIPCertificate. grow. Qed.

Lemma grows_getPrivateKey (certID : string) :
  grows P (getPrivateKey X certID).
Proof. unfold getPrivateKey. grow. Qed.

Lemma grows_waitLoop (certID : string) (events : list SelectEvent) :
  grows P (waitLoop X certID events).
Proof.
  induction events as [|ev rest IH]; cbn [waitLoop]; [grow|].
  destruct ev; grow.
Qed.

Lemma grows_validationLoop (updated : bool) (validationDir : string)
    (methods : list (string * ValidationMethod)) :
  grows P (validationLoop X updated validationDir methods).
Proof.
  induction methods as [|[method v] rest IH]; cbn [validationLoop]; grow.
Qed.

Lemma grows_writeValidationFiles (updated : bool) (validationDir : string)
    (details : CertificateObject) :
  grows P (writeValidationFiles X updated validationDir details).
Proof.
  unfold writeValidationFiles. grow. apply grows_validationLoop.
Qed.

Lemma grows_ValidateCertificate (certID validationDir : string) :
  grows P (ValidateCertificate X certID validationDir).
Proof.
  unfold ValidateCertificate. grow; apply grows_writeValidationFiles.
Qed.

Lemma grows_obtainRequest (ip : string) : grows P (obtainRequest X ip).
Proof.
  unfold obtainRequest.
  grow; apply grows_findLoop.
Qed.

End Growth.

Section Download.
Context (X : Externals).

Lemma grows_RequestCertificate (ip : string) (events : list SelectEvent) :
  grows fullDownload (RequestCertificate X ip events).
Proof.
  pose proof notDownload_fullDownload as HP.
  unfold RequestCertificate, waitForCertificateIssuance.
  grow;
    first [ apply grows_findLoop; exact HP
          | apply grows_writeValidationFiles; exact HP
          | apply grows_waitLoop; exact HP
          | apply grows_DownloadCertificate; reflexivity ].
Qed.

Lemma fullCertChain_cases (b : CertificateBundle) :
  (CertificateCrt b <> "" -> CABundleCrt b <> "" ->
   fullCertChain b = CertificateCrt b +:+ newline +:+ CABundleCrt b)
  /\ (CABundleCrt b = "" -> fullCertChain b = CertificateCrt b)
  /\ (CertificateCrt b = "" -> fullCertChain b = CABundleCrt b).
Proof.
  unfold fullCertChain.
  destruct (String.eqb_spec (CertificateCrt b) "") as [Hc|Hc];
    destruct (String.eqb_spec (CABundleCrt b) "") as [Ha|Ha]; cbn [negb].
  - repeat split; intros; congruence.
  - repeat split; intros; try congruence; reflexivity.
  - repeat split; intros; congruence.
  - apply String.eqb_neq in Hc. rewrite Hc. cbn [negb].
    apply String.eqb_neq in Hc.
    repeat split; intros; try congruence.
    apply filepath_facts.app_assoc.
Qed.

(** C7. Every download that [RequestCertificate] makes asks for the
    bundle with the cross-signed intermediates; and when it succeeds, the
    certificate bytes it returns come from the last such download: leaf,
    one line feed (the character with code 10), chain when both are there,
    and the part that is there alone, without separator, when the other
    is empty. *)
Theorem RequestCertificate_download
    (ip : string) (events : list SelectEvent) (w : World) :
  extends fullDownload w (stepWorld (RequestCertificate X ip events w))
  /\ forall (cert key : string) (w' : World),
      RequestCertificate X ip events w = Ret (Ok (cert, key)) w' ->
      exists (id : string) (bundle : CertificateBundle)
             (later earlier : list Effect),
        w_trace w' =
        (later ++ EDownloadCertificate id true :: earlier)%list
        /\ Forall notDownload later
        /\ x_DownloadCertificate X earlier id true = Ok bundle
        /\ (CertificateCrt bundle <> "" -> CABundleCrt bundle <> "" ->
            cert =
            CertificateCrt bundle +:+ lineFeed +:+ CABundleCrt bundle)
        /\ (CABundleCrt bundle = "" -> cert = CertificateCrt bundle)
        /\ (CertificateCrt bundle = "" -> cert = CABundleCrt bundle).
Proof.
  split; [apply grows_RequestCertificate|].
  intros cert key w' Hrun.
  unfold RequestCertificate in Hrun. run_monad.
  destruct (obtainRequest X ip _) as [[certObj|e] w1|w1];
    try discriminate Hrun.
  destruct (ValidateCertificate X (ID certObj) _ w1) as [[e|] w2|w2];
    try discriminate Hrun.
  destruct (waitForCertificateIssuance X (ID certObj) events w2)
    as [[d|e] w3|w3]; try discriminate Hrun.
  unfold api_DownloadCertificate in Hrun.
  destruct (x_DownloadCertificate X (w_trace w3) (ID d) true)
    as [bundle|e] eqn:Hdl; try discriminate Hrun.
  pose proof (grows_getPrivateKey X notDownload (fun e H => H) (ID d)
                (addEffect (EDownloadCertificate (ID d) true) w3))
    as (later & Htrace & Hlater).
  destruct (getPrivateKey X (ID d) _) as [[keyPEM|e] w4|w4];
    try discriminate Hrun.
  injection Hrun as <- <- <-.
  exists (ID d), bundle, later, (w_trace w3).
  split; [exact Htrace|]. split; [exact Hlater|]. split; [exact Hdl|].
  apply fullCertChain_cases.
Qed.

End Download.

End download_facts.

(** ** The certificate store: persisting *)
Module store_facts.
Import vocabulary.
Import config ipssl filepath_facts.

Lemma paths_differ (c : Client) : certPathOf c <> keyPathOf c.
Proof.
  unfold certPathOf, keyPathOf. intros Heq.
  apply Join_plain_inj in Heq; [discriminate Heq | reflexivity..].
Qed.

Section Persist.
Context (X : Externals).

Lemma saveCertificateFiles_run (c : Client) (cert key : string) (w : World) :
  x_WriteFileErr X (w_trace w) (certPathOf c) = None ->
  x_WriteFileErr X (EWriteFile (certPathOf c) mode_0644 true :: w_trace w)
    (keyPathOf c) = None ->
  exists w1 : World,
    saveCertificateFiles X c cert key w = Ret None w1
    /\ w_files w1 =
       <[keyPathOf c := written w (keyPathOf c) key mode_0600]>
         (<[certPathOf c := written w (certPathOf c) cert mode_0644]>
            (w_files w))
    /\ w_dirs w1 = w_dirs w.
Proof.
  intros Hc Hk. unfold saveCertificateFiles, os_WriteFile. run_monad.
  fold (certPathOf c) (keyPathOf c). rewrite Hc.
  cbn [addEffect setFiles w_trace w_files w_umask]. rewrite Hk.
  eexists. split; [reflexivity|].
  cbn [addEffect setFiles w_trace w_files w_umask w_dirs].
  split; [|reflexivity].
  unfold written.
  rewrite lookup_insert_ne by apply paths_differ.
  destruct (w_files w !! certPathOf c), (w_files w !! keyPathOf c);
    reflexivity.
Qed.

Lemma certificateFilesExist_present (c : Client) (w : World) :
  is_Some (w_files w !! certPathOf c) ->
  is_Some (w_files w !! keyPathOf c) ->
  stepValue (certificateFilesExist c w) = Some (true, "both files exist").
Proof.
  intros [fc Hc] [fk Hk]. unfold certificateFilesExist, os_Stat. run_monad.
  fold (certPathOf c) (keyPathOf c). rewrite Hc.
  cbn [os_IsNotExist addEffect w_files]. rewrite Hk. reflexivity.
Qed.

(** Writing again what a file already holds leaves it as it is. *)
Lemma written_again (w : World) (path data : string) (mode : Z) (f : File) :
  w_files w !! path = Some f -> f_data f = data ->
  written w path data mode = f.
Proof.
  intros Hf Hd. unfold written. rewrite Hf. destruct f as [d m].
  cbn in Hd |- *. rewrite Hd. reflexivity.
Qed.

(** C9, as the code has it. Persisting makes the certificate bytes the full
    content of cert.pem and the key bytes that of key.pem, whatever was there
    before; a file that did not exist is created with the requested mode
    (0644 for the certificate, 0600 for the key) less the umask, while a file
    that existed keeps the mode it had.  Right after, the existence check
    answers true; and persisting the same bytes once more, when its writes
    succeed too, leaves every file exactly as it is, with the existence check
    still true. *)
Theorem saveCertificateFiles_persist (c : Client) (cert key : string)
    (w : World) :
  x_WriteFileErr X (w_trace w) (certPathOf c) = None ->
  x_WriteFileErr X (EWriteFile (certPathOf c) mode_0644 true :: w_trace w)
    (keyPathOf c) = None ->
  exists w1 : World,
    saveCertificateFiles X c cert key w = Ret None w1
    /\ w_files w1 !! certPathOf c
       = Some (written w (certPathOf c) cert mode_0644)
    /\ w_files w1 !! keyPathOf c
       = Some (written w (keyPathOf c) key mode_0600)
    /\ (forall p, p <> certPathOf c -> p <> keyPathOf c ->
                  w_files w1 !! p = w_files w !! p)
    /\ stepValue (certificateFilesExist c w1)
       = Some (true, "both files exist")
    /\ (x_WriteFileErr X (w_trace w1) (certPathOf c) = None ->
        x_WriteFileErr X
          (EWriteFile (certPathOf c) mode_0644 true :: w_trace w1)
          (keyPathOf c) = None ->
        exists w2 : World,
          saveCertificateFiles X c cert key w1 = Ret None w2
          /\ w_files w2 = w_files w1
          /\ stepValue (certificateFilesExist c w2)
             = Some (true, "both files exist")).
Proof.
  intros Hc Hk.
  destruct (saveCertificateFiles_run c cert key w Hc Hk)
    as (w1 & Hrun & Hfiles & _).
  assert (Hcert : w_files w1 !! certPathOf c
                  = Some (written w (certPathOf c) cert mode_0644)).
  { rewrite Hfiles, lookup_insert_ne by (apply not_eq_sym, paths_differ).
    apply lookup_insert_eq. }
  assert (Hkey : w_files w1 !! keyPathOf c
                 = Some (written w (keyPathOf c) key mode_0600)).
  { rewrite Hfiles. apply lookup_insert_eq. }
  exists w1. split; [exact Hrun|]. split; [exact Hcert|].
  split; [exact Hkey|]. split; [|split].
  - intros p Hpc Hpk. rewrite Hfiles.
    rewrite !lookup_insert_ne by congruence. reflexivity.
  - apply certificateFilesExist_present; eexists; eassumption.
  - intros Hc2 Hk2.
    destruct (saveCertificateFiles_run c cert key w1 Hc2 Hk2)
      as (w2 & Hrun2 & Hfiles2 & _).
    assert (Hsame : w_files w2 = w_files w1).
    { rewrite Hfiles2.
      rewrite (written_again w1 (certPathOf c) cert mode_0644 _ Hcert eq_refl).
      rewrite (written_again w1 (keyPathOf c) key mode_0600 _ Hkey eq_refl).
      rewrite (insert_id _ _ _ Hcert). apply insert_id. exact Hkey. }
    exists w2. split; [exact Hrun2|]. split; [exact Hsame|].
    apply certificateFilesExist_present; rewrite Hsame; eexists; eassumption.
Qed.

End Persist.

(** C9 as stated fails for a key file that exists: persisting replaces its
    bytes and leaves its mode, here 0644, as it was. *)
Lemma saveCertificateFiles_keeps_mode_of_existing_key :
  let run :=
    saveCertificateFiles scenario.quietExternals scenario.client "LEAF:b" "KEY"
      scenario.looseKeyWorld in
  stepValue run = Some None
  /\ w_files (stepWorld run) !! "/ipssl/key.pem"
     = Some {| f_data := "KEY"; f_mode := mode_0644 |}
  /\ mode_0644 <> mode_0600.
Proof.
  split; [vm_compute; reflexivity|].
  split; [vm_compute; reflexivity | discriminate].
Qed.

End store_facts.

(** ** The renewal scheduler *)
Module scheduler_facts.
Import vocabulary.
Import config ipssl.

Section Scheduler.
Context (X : Externals).

Lemma renewalLoop_returns_only_on_shutdown (c : Client)
    (events : list SchedulerEvent) :
  forall (w : World) (e : error) (w' : World),
    renewalLoop X c events w = Ret e w' ->
    e = ErrCanceled /\ In Shutdown events.
Proof.
  induction events as [|ev rest IH]; intros w e w' Hrun.
  - discriminate Hrun.
  - destruct ev as [|poll].
    + cbn [renewalLoop] in Hrun. run_monad.
      injection Hrun as <- <-. split; [reflexivity | left; reflexivity].
    + cbn [renewalLoop] in Hrun. run_monad.
      destruct (isCertificateValid X c w) as [[|] w1|w1];
        try discriminate Hrun; cbn [negb] in Hrun.
      * apply IH in Hrun as [-> Hin]. split; [reflexivity | right; exact Hin].
      * destruct (requestCertificate X c poll _) as [[err|] w2|w2];
          try discriminate Hrun;
          apply IH in Hrun as [-> Hin];
          (split; [reflexivity | right; exact Hin]).
Qed.

Lemma renewalLoop_failed_attempt (c : Client) (poll : list SelectEvent)
    (rest : list SchedulerEvent) (w w1 w2 : World) (err : error) :
  isCertificateValid X c w = Ret false w1 ->
  requestCertificate X c poll
    (addLog (Info,
             "Certificate needs renewal (missing, expired, or expiring soon)")
       w1) = Ret (Some err) w2 ->
  renewalLoop X c (RenewalTick poll :: rest) w =
  renewalLoop X c rest (addLog (Error, "Failed to renew certificate") w2).
Proof.
  intros Hvalid Hreq. cbn [renewalLoop]. run_monad.
  rewrite Hvalid. cbn [negb]. rewrite Hreq. reflexivity.
Qed.

Lemma Start_failed_startup_attempt (c : Client)
    (startup : list SelectEvent) (events : list SchedulerEvent)
    (w w1 w2 w3 : World) (err : error) :
  ensureDirectories X c (addLog (Info, "Starting IPSSL client") w)
  = Ret None w1 ->
  isCertificateValid X c w1 = Ret false w2 ->
  requestCertificate X c startup
    (addLog (Info,
             "Certificate needs to be downloaded (missing or invalid)") w2)
  = Ret (Some err) w3 ->
  Start X c startup events w =
  Ret (ErrWrap "failed to request certificate" err) w3.
Proof.
  intros Hdirs Hvalid Hreq. unfold Start. run_monad.
  rewrite Hdirs, Hvalid, Hreq. reflexivity.
Qed.

(** C2, as the code has it. A renewal attempt that fails on an interval
    tick does not end the scheduler: the error is logged at error level
    and the loop goes on with the next event; the loop itself only ever
    returns on shutdown, with the cancellation error, so that without a
    shutdown it is still waiting when the events end, whatever failed.  The
    attempt made at startup is outside the loop: when it fails, [Start]
    returns the error, wrapped, without ever entering the loop. *)
Theorem scheduler_attempt_failures (c : Client) :
  (forall poll rest w w1 w2 err,
      isCertificateValid X c w = Ret false w1 ->
      requestCertificate X c poll
        (addLog (Info,
                 "Certificate needs renewal (missing, expired, or expiring soon)")
           w1) = Ret (Some err) w2 ->
      renewalLoop X c (RenewalTick poll :: rest) w =
      renewalLoop X c rest
        (addLog (Error, "Failed to renew certificate") w2))
  /\ (forall events w e w',
         renewalLoop X c events w = Ret e w' ->
         e = ErrCanceled /\ In Shutdown events)
  /\ (forall events w,
         ~ In Shutdown events ->
         exists w', renewalLoop X c events w = Blocked w')
  /\ (forall startup events w w1 w2 w3 err,
         ensureDirectories X c (addLog (Info, "Starting IPSSL client") w)
         = Ret None w1 ->
         isCertificateValid X c w1 = Ret false w2 ->
         requestCertificate X c startup
           (addLog (Info,
                    "Certificate needs to be downloaded (missing or invalid)")
              w2) = Ret (Some err) w3 ->
         Start X c startup events w =
         Ret (ErrWrap "failed to request certificate" err) w3).
Proof.
  split; [|split; [|split]].
  - intros. eapply renewalLoop_failed_attempt; eassumption.
  - intros. eapply renewalLoop_returns_only_on_shutdown; eassumption.
  - intros events w Hno.
    destruct (renewalLoop X c events w) as [e w'|w'] eqn:Hrun.
    + apply renewalLoop_returns_only_on_shutdown in Hrun as [_ Hin].
      contradiction.
    + exists w'. reflexivity.
  - intros. eapply Start_failed_startup_attempt; eassumption.
Qed.

End Scheduler.

(** C2 as stated fails for the attempt made at startup: its failure makes
    [Start] return at once, although ticks were still to come and no
    shutdown was requested, and [main] leaves with exit status 1. *)
Lemma Start_returns_on_failed_startup_attempt :
  let later := [RenewalTick [TickerC]; RenewalTick [TickerC]] in
  stepValue (Start scenario.offlineExternals scenario.client [TickerC] later
               scenario.freshWorld) = Some scenario.startupError
  /\ stepValue (main.main scenario.offlineExternals [TickerC] later
                  scenario.freshWorld) = Some 1
  /\ ~ In Shutdown later.
Proof.
  split; [vm_compute; reflexivity|].
  split; [vm_compute; reflexivity|].
  intros [H|[H|[]]]; discriminate H.
Qed.

End scheduler_facts.

(** ** Which environment variables a renewal attempt reads *)
Module env_facts.
Import vocabulary.
Import config ipssl.

Ltac world_cbn :=
  cbn [w_env w_files w_dirs w_umask w_log w_trace w_privateKeys
       addLog addEffect setFiles setDirs setKeys stepAgree].

(** A primitive is blind: rewrite the second world's components into the
    first's, then take the cases of what the outside answers. *)
Ltac prim_blind :=
  let w1 := fresh "w1" in let w2 := fresh "w2" in
  let Hf := fresh "Hf" in let Hd := fresh "Hd" in
  let Hu := fresh "Hu" in let Hl := fresh "Hl" in
  let Ht := fresh "Ht" in let Hk := fresh "Hk" in
  let He := fresh "He" in
  intros w1 w2 (Hf & Hd & Hu & Hl & Ht & Hk & He);
  unfold logInfo, logWarn, logError, logAt, agree, getenv in *;
  try rewrite <- Hf; try rewrite <- Hd; try rewrite <- Hu;
  try rewrite <- Hl; try rewrite <- Ht; try rewrite <- Hk;
  repeat match goal with
         | |- context [match ?x with _ => _ end] => destruct x
         end;
  world_cbn; unfold agree, getenv in *; world_cbn;
  repeat split; congruence.

Section Blind.
Context (X : Externals).

Lemma envBlind_ret {A : Type} (a : A) : envBlind (mret a).
Proof. intros w1 w2 H. split; [reflexivity | exact H]. Qed.

Lemma envBlind_bind {A B : Type} (m : M A) (f : A -> M B) :
  envBlind m -> (forall a, envBlind (f a)) -> envBlind (m ≫= f).
Proof.
  intros Hm Hf w1 w2 H. unfold mbind, M_bind. specialize (Hm w1 w2 H).
  destruct (m w1) as [a1 v1|v1], (m w2) as [a2 v2|v2];
    cbn [stepAgree] in Hm; try contradiction.
  - destruct Hm as [<- Hv]. apply Hf. exact Hv.
  - exact Hm.
Qed.

Lemma envBlind_blocked {A : Type} : envBlind (fun w => @Blocked A w).
Proof. intros w1 w2 H. exact H. Qed.

Lemma envBlind_logInfo (msg : string) : envBlind (logInfo msg).
Proof. prim_blind. Qed.

Lemma envBlind_logWarn (msg : string) : envBlind (logWarn msg).
Proof. prim_blind. Qed.

Lemma envBlind_logError (msg : string) : envBlind (logError msg).
Proof. prim_blind. Qed.

Lemma envBlind_Getenv_validationDir :
  envBlind (os_Getenv "IPSSL_VALIDATION_DIR").
Proof.
  intros w1 w2 H. split; [apply H | exact H].
Qed.

Lemma envBlind_storeKey (ip : string) (k : PrivateKey) :
  envBlind (zerossl.storeKey ip k).
Proof. unfold zerossl.storeKey. prim_blind. Qed.

Lemma envBlind_lookupKey (ip : string) : envBlind (zerossl.lookupKey ip).
Proof. unfold zerossl.lookupKey. prim_blind. Qed.

Lemma envBlind_Now : envBlind (time_Now X).
Proof. unfold time_Now. prim_blind. Qed.

Lemma envBlind_GenerateKey : envBlind (rsa_GenerateKey X).
Proof. unfold rsa_GenerateKey. prim_blind. Qed.

Lemma envBlind_CreateCSR (t : CertificateRequest) (k : PrivateKey) :
  envBlind (x509_CreateCertificateRequest X t k).
Proof. unfold x509_CreateCertificateRequest. prim_blind. Qed.

Lemma envBlind_ListCertificates : envBlind (api_ListCertificates X).
Proof. unfold api_ListCertificates. prim_blind. Qed.

Lemma envBlind_GetCertificate (id : string) :
  envBlind (api_GetCertificate X id).
Proof. unfold api_GetCertificate. prim_blind. Qed.

Lemma envBlind_CreateCertificate (csr : CertificateRequest) (days : Z) :
  envBlind (api_CreateCertificate X csr days).
Proof. unfold api_CreateCertificate. prim_blind. Qed.

Lemma envBlind_VerifyIdentifiers (id : string) :
  envBlind (api_VerifyIdentifiers X id).
Proof. unfold api_VerifyIdentifiers. prim_blind. Qed.

Lemma envBlind_DownloadCertificate (id : string) (b : bool) :
  envBlind (api_DownloadCertificate X id b).
Proof. unfold api_DownloadCertificate. prim_blind. Qed.

Lemma envBlind_MkdirAll (path : string) (mode : Z) :
  envBlind (os_MkdirAll X path mode).
Proof. unfold os_MkdirAll. prim_blind. Qed.

Lemma envBlind_WriteFile (path data : string) (mode : Z) :
  envBlind (os_WriteFile X path data mode).
Proof. unfold os_WriteFile. prim_blind. Qed.

Lemma envBlind_ReadFile (path : string) : envBlind (os_ReadFile X path).
Proof. unfold os_ReadFile. prim_blind. Qed.

Lemma envBlind_Stat (path : string) : envBlind (os_Stat path).
Proof. unfold os_Stat. prim_blind. Qed.

Lemma envBlind_ContainerList : envBlind (docker_ContainerList X).
Proof. unfold docker_ContainerList. prim_blind. Qed.

Lemma envBlind_ContainerKill (id signal : string) :
  envBlind (docker_ContainerKill X id signal).
Proof. unfold docker_ContainerKill. prim_blind. Qed.

End Blind.

Ltac blind_step :=
  first
    [ apply envBlind_ret
    | apply envBlind_blocked
    | apply envBlind_logInfo
    | apply envBlind_logWarn
    | apply envBlind_logError
    | apply envBlind_Getenv_validationDir
    | apply envBlind_storeKey
    | apply envBlind_lookupKey
    | apply envBlind_Now
    | apply envBlind_GenerateKey
    | apply envBlind_CreateCSR
    | apply envBlind_ListCertificates
    | apply envBlind_GetCertificate
    | apply envBlind_CreateCertificate
    | apply envBlind_VerifyIdentifiers
    | apply envBlind_DownloadCertificate
    | apply envBlind_MkdirAll
    | apply envBlind_WriteFile
    | apply envBlind_ReadFile
    | apply envBlind_Stat
    | apply envBlind_ContainerList
    | apply envBlind_ContainerKill
    | assumption
    | apply envBlind_bind; [|intros ?]
    | progress cbv zeta
    | match goal with
      | |- envBlind (match ?x with _ => _ end) => destruct x
      | |- envBlind (if ?b then _ else _) => destruct b
      end ].

Ltac blind := repeat blind_step.

End env_facts.

(** ** The configuration snapshot and the environment *)
Module snapshot_facts.
Import vocabulary.
Import config ipssl env_facts.

Section Blind.
Context (X : Externals).

Lemma envBlind_findLoop (ip : string) (results : list CertificateObject) :
  envBlind (zerossl.findLoop ip results).
Proof.
  induction results as [|c rest IH]; cbn [zerossl.findLoop]; blind.
Qed.

Lemma envBlind_waitLoop (certID : string) (events : list SelectEvent) :
  envBlind (zerossl.waitLoop X certID events).
Proof.
  induction events as [|ev rest IH]; cbn [zerossl.waitLoop]; [blind|].
  destruct ev; blind.
Qed.

Lemma envBlind_validationLoop (updated : bool) (validationDir : string)
    (methods : list (string * ValidationMethod)) :
  envBlind (zerossl.validationLoop X updated validationDir methods).
Proof.
  induction methods as [|[method v] rest IH];
    cbn [zerossl.validationLoop]; blind.
Qed.

Lemma envBlind_writeValidationFiles (updated : bool)
    (validationDir : string) (details : CertificateObject) :
  envBlind (zerossl.writeValidationFiles X updated validationDir details).
Proof.
  unfold zerossl.writeValidationFiles. blind.
  apply envBlind_validationLoop.
Qed.

Lemma envBlind_mkdirs (dirs : list string) : envBlind (mkdirs X dirs).
Proof. induction dirs as [|d rest IH]; cbn [mkdirs]; blind. Qed.

(** What [blind] leaves over are the loops and the guarded writer. *)
Ltac blind_loops :=
  blind;
  first [ apply envBlind_findLoop
        | apply envBlind_writeValidationFiles
        | apply envBlind_waitLoop
        | apply envBlind_mkdirs ].

Lemma envBlind_RequestCertificate (ip : string)
    (events : list SelectEvent) :
  envBlind (zerossl.RequestCertificate X ip events).
Proof.
  unfold zerossl.RequestCertificate, zerossl.waitForCertificateIssuance.
  blind_loops.
Qed.







End Blind.


End snapshot_facts.

(** * Further properties of the code *)

(** ** What [Load] returns, and the client built from it *)
Module load_facts.
Import vocabulary.
Import config.

Lemma envOr_nonempty (w : World) (key dflt : string) :
  dflt <> "" -> envOr w key dflt <> "".
Proof.
  intros Hd. unfold envOr.
  destruct (String.eqb_spec (getenv w key) ""); assumption.
Qed.

Lemma Load_run (X : Externals) (w : World) :
  Load X w =
  Ret (if String.eqb (envOr w "IPSSL_API_KEY" "") ""
       then Err (ErrNew "IPSSL_API_KEY environment variable is required")
       else Ok {| ClientIP := envOr w "CLIENT_IP" "127.0.0.1";
                  APIKey := envOr w "IPSSL_API_KEY" "";
                  ValidationDir :=
                    envOr w "IPSSL_VALIDATION_DIR" "/usr/share/caddy/";
                  SSLDir := envOr w "IPSSL_SSL_DIR" "/ipssl/";
                  ContainerName := envOr w "IPSSL_CONTAINER_NAME" "caddy-1";
                  RenewalInterval :=
                    durationOr X w "RENEWAL_INTERVAL" (24 * time_Hour);
                  CertValidity :=
                    durationOr X w "CERT_VALIDITY" (30 * 24 * time_Hour) |})
    w.
Proof.
  unfold Load.
  do 5 (unfold mbind at 1, M_bind at 1; rewrite config_facts.getEnv_run).
  do 2 (unfold mbind at 1, M_bind at 1;
        rewrite config_facts.getDurationEnv_run).
  cbv zeta. cbn [APIKey]. fold (envOr w "IPSSL_API_KEY" "").
  destruct (String.eqb (envOr w "IPSSL_API_KEY" "") ""); reflexivity.
Qed.

(** X1. Every setting of a loaded configuration is the value of its variable
    when that is set and not empty (for a duration: and parses, whatever its
    sign), and the built-in default otherwise; loading changes nothing in the
    world.  No string setting is ever empty: an empty variable cannot
    override a default. *)
Theorem Load_fields (X : Externals) (w : World) (c : Config) (w' : World) :
  Load X w = Ret (Ok c) w' ->
  w' = w
  /\ ClientIP c = envOr w "CLIENT_IP" "127.0.0.1"
  /\ APIKey c = getenv w "IPSSL_API_KEY"
  /\ ValidationDir c = envOr w "IPSSL_VALIDATION_DIR" "/usr/share/caddy/"
  /\ SSLDir c = envOr w "IPSSL_SSL_DIR" "/ipssl/"
  /\ ContainerName c = envOr w "IPSSL_CONTAINER_NAME" "caddy-1"
  /\ RenewalInterval c = durationOr X w "RENEWAL_INTERVAL" (24 * time_Hour)
  /\ CertValidity c = durationOr X w "CERT_VALIDITY" (720 * time_Hour)
  /\ ClientIP c <> "" /\ APIKey c <> "" /\ ValidationDir c <> ""
  /\ SSLDir c <> "" /\ ContainerName c <> "".
Proof.
  rewrite Load_run. intros Hrun.
  destruct (String.eqb_spec (envOr w "IPSSL_API_KEY" "") "") as [Hk|Hk];
    [discriminate Hrun|].
  injection Hrun as <- <-. cbn.
  assert (Hkey : envOr w "IPSSL_API_KEY" "" = getenv w "IPSSL_API_KEY").
  { unfold envOr in *.
    destruct (String.eqb_spec (getenv w "IPSSL_API_KEY") "") as [E|_];
      [rewrite E|]; reflexivity. }
  repeat (split; [first [ reflexivity | exact Hkey | exact Hk
                        | apply envOr_nonempty; discriminate ]|]).
  apply envOr_nonempty; discriminate.
Qed.

(** X2. A loaded configuration always names a reload target, so the client
    built from it always creates the Docker client: construction succeeds
    with [dockerClient = true] when the Docker client can be created, and
    fails with that error otherwise; the API key check of the authority
    client cannot fail. *)
Theorem Load_then_NewClient (X : Externals) (w : World) (c : Config)
    (w' : World) :
  Load X w = Ret (Ok c) w' ->
  match x_DockerNewClient X with
  | None =>
      ipssl.NewClient X c w' =
      Ret (Ok {| ipssl.cfg := c;
                 ipssl.zerosslClient := {| zerossl.apiKey := APIKey c |};
                 ipssl.dockerClient := true |})
        (addLog (Info, "Docker client initialized") w')
  | Some err =>
      ipssl.NewClient X c w' =
      Ret (Err (ErrWrap "failed to create Docker client" err)) w'
  end.
Proof.
  rewrite Load_run. intros Hload.
  destruct (String.eqb (envOr w "IPSSL_API_KEY" "") "") eqn:Hkey;
    [discriminate Hload|].
  injection Hload as <- <-.
  unfold ipssl.NewClient, zerossl.NewClient. cbn [APIKey ContainerName].
  rewrite Hkey.
  assert (Hname : String.eqb (envOr w "IPSSL_CONTAINER_NAME" "caddy-1") ""
                  = false)
    by (apply String.eqb_neq, envOr_nonempty; discriminate).
  rewrite Hname. cbn [negb].
  destruct (x_DockerNewClient X); reflexivity.
Qed.

End load_facts.

(** ** Keys: creation of a request and retrieval of its key *)
Module key_facts.
Import vocabulary.
Import zerossl zerossl_facts.

Section Keys.
Context (X : Externals).

Lemma keyPath_value : filepath.Join ["/ipssl"; "key.pem"] = "/ipssl/key.pem".
Proof. reflexivity. Qed.

(** X3. A request is created only after a key was generated, the address was
    accepted and the signing request was built from the template and parsed
    back; the authority is asked once, for 90 days of validity, and the key
    is in the cache under the address.  Files, directories and environment
    are untouched. *)
Theorem createIPCertificate_success (ip : string) (w : World)
    (obj : CertificateObject) (w' : World) :
  createIPCertificate X ip w = Ret (Ok obj) w' ->
  exists (key : PrivateKey) (der : string) (csr : CertificateRequest),
    x_GenerateKey X (w_trace w) = Ok key
    /\ x_ParseIP X ip = true
    /\ x_CreateCertificateRequest X (EGenerateKey :: w_trace w)
         (csrTemplateFor ip) key = Ok der
    /\ x_ParseCertificateRequest X der = Ok csr
    /\ x_CreateCertificate X (ECreateCSR :: EGenerateKey :: w_trace w) csr 90
       = Ok obj
    /\ w_trace w' =
       ECreateCertificate (csr_CommonName csr) 90 :: ECreateCSR
         :: EGenerateKey :: w_trace w
    /\ w_privateKeys w' = <[ip := key]> (w_privateKeys w)
    /\ w_files w' = w_files w /\ w_dirs w' = w_dirs w
    /\ w_env w' = w_env w.
Proof.
  unfold createIPCertificate, rsa_GenerateKey, x509_CreateCertificateRequest,
    api_CreateCertificate, storeKey. run_monad.
  cbn [addLog addEffect setKeys w_trace w_privateKeys].
  intros Hrun.
  destruct (x_GenerateKey X (w_trace w)) as [key|e] eqn:Hkey;
    [|discriminate Hrun].
  destruct (x_ParseIP X ip) eqn:Hip; cbn [negb] in Hrun;
    [|discriminate Hrun].
  fold (csrTemplateFor ip) in Hrun.
  destruct (x_CreateCertificateRequest X _ (csrTemplateFor ip) key)
    as [der|e] eqn:Hder; [|discriminate Hrun].
  destruct (x_ParseCertificateRequest X der) as [csr|e] eqn:Hcsr;
    [|discriminate Hrun].
  cbn [addLog addEffect setKeys w_trace w_privateKeys] in Hrun.
  destruct (x_CreateCertificate X _ csr 90) as [o|e] eqn:Hcreate;
    [|discriminate Hrun].
  injection Hrun as <- <-.
  exists key, der, csr. repeat split; assumption || reflexivity.
Qed.

(** X4. An address that does not parse, or a failed key generation, ends the
    creation with an error before anything is asked of the authority: the
    only effect is the key generation, and the store (files, directories,
    key cache) is as before. *)
Theorem createIPCertificate_rejected (ip : string) (w : World) :
  x_ParseIP X ip = false \/ (exists e, x_GenerateKey X (w_trace w) = Err e) ->
  exists (err : error) (w' : World),
    createIPCertificate X ip w = Ret (Err err) w'
    /\ w_trace w' = EGenerateKey :: w_trace w
    /\ sameStore w w'
    /\ (forall key, x_GenerateKey X (w_trace w) = Ok key ->
                    err = ErrNew ("invalid IP address: " +:+ ip)).
Proof.
  intros Hcase.
  unfold createIPCertificate, rsa_GenerateKey. run_monad.
  cbn [addLog addEffect w_trace].
  destruct (x_GenerateKey X (w_trace w)) as [key|e] eqn:Hkey.
  - destruct Hcase as [Hip|[e He]]; [|discriminate He].
    rewrite Hip. cbn [negb]. eexists _, _.
    split; [reflexivity|]. split; [reflexivity|]. split.
    + eapply sameStore_trans; [apply sameStore_addLog|].
      apply sameStore_addEffect.
    + intros key' _. reflexivity.
  - eexists _, _. split; [reflexivity|]. split; [reflexivity|]. split.
    + eapply sameStore_trans; [apply sameStore_addLog|].
      apply sameStore_addEffect.
    + intros key' Hk. discriminate Hk.
Qed.

(** X5. The key generated for a new request is the key handed out for it: once
    [createIPCertificate] has succeeded for an address, and as long as the
    cache is as it left it, [getPrivateKey] for a certificate whose common
    name is that address returns the encoding of the generated key, with no
    other effect than the fetch of the certificate. *)
Theorem created_key_is_retrieved (ip : string) (w : World)
    (obj : CertificateObject) (w1 w2 : World) (certID : string)
    (d : CertificateObject) :
  createIPCertificate X ip w = Ret (Ok obj) w1 ->
  w_privateKeys w2 = w_privateKeys w1 ->
  x_GetCertificate X (w_trace w2) certID = Ok d ->
  CommonName d = ip ->
  exists key : PrivateKey,
    x_GenerateKey X (w_trace w) = Ok key
    /\ getPrivateKey X certID w2 =
       Ret (Ok (x_EncodeKeyPEM X key)) (addEffect (EGetCertificate certID) w2).
Proof.
  intros Hcreate Hcache Hget Hcn.
  unfold createIPCertificate, rsa_GenerateKey, x509_CreateCertificateRequest,
    api_CreateCertificate, storeKey in Hcreate. run_monad.
  cbn [addLog addEffect setKeys w_trace w_privateKeys] in Hcreate.
  destruct (x_GenerateKey X (w_trace w)) as [key|e] eqn:Hkey;
    [|discriminate Hcreate].
  destruct (x_ParseIP X ip); cbn [negb] in Hcreate; [|discriminate Hcreate].
  destruct (x_CreateCertificateRequest X _ _ key) as [der|e];
    [|discriminate Hcreate].
  destruct (x_ParseCertificateRequest X der) as [csr|e];
    [|discriminate Hcreate].
  cbn [addLog addEffect setKeys w_trace w_privateKeys] in Hcreate.
  destruct (x_CreateCertificate X _ csr 90) as [o|e]; [|discriminate Hcreate].
  injection Hcreate as <- <-.
  cbn [addLog addEffect setKeys w_trace w_privateKeys] in Hcache.
  exists key. split; [reflexivity|].
  unfold getPrivateKey, api_GetCertificate, lookupKey.
  unfold mbind, M_bind, mret, M_ret.
  rewrite Hget. cbn [addEffect w_privateKeys]. rewrite Hcache, Hcn.
  rewrite lookup_insert_eq. reflexivity.
Qed.

(** The two runs of [getPrivateKey] without a cached key. *)
Lemma getPrivateKey_uncached_runs (certID : string) (w : World)
    (d : CertificateObject) :
  x_GetCertificate X (w_trace w) certID = Ok d ->
  w_privateKeys w !! CommonName d = None ->
  let keyPath := "/ipssl/key.pem" in
  let tr := EGetCertificate certID :: w_trace w in
  (forall f,
      x_ReadFileErr X tr keyPath = None ->
      w_files w !! keyPath = Some f ->
      exists w',
        getPrivateKey X certID w = Ret (Ok (f_data f)) w'
        /\ sameStore w w'
        /\ w_trace w' = EReadFile keyPath :: tr)
  /\ (forall key,
         x_ReadFileErr X tr keyPath <> None \/ w_files w !! keyPath = None ->
         x_GenerateKey X (EReadFile keyPath :: tr) = Ok key ->
         exists w',
           getPrivateKey X certID w = Ret (Ok (x_EncodeKeyPEM X key)) w'
           /\ w_privateKeys w' = <[CommonName d := key]> (w_privateKeys w)
           /\ w_files w' =
              match x_WriteFileErr X
                      (EGenerateKey :: EReadFile keyPath :: tr) keyPath with
              | None =>
                  <[keyPath := written w keyPath (x_EncodeKeyPEM X key)
                                 mode_0600]> (w_files w)
              | Some _ => w_files w
              end).
Proof.
  intros Hget Hmiss keyPath tr. subst keyPath tr.
  unfold getPrivateKey, api_GetCertificate, lookupKey, os_ReadFile,
    rsa_GenerateKey, os_WriteFile, storeKey.
  rewrite keyPath_value. run_monad.
  rewrite Hget.
  cbn [addLog addEffect setKeys setFiles w_trace w_privateKeys w_files
         w_umask].
  rewrite Hmiss.
  cbn [addLog addEffect setKeys setFiles w_trace w_privateKeys w_files
         w_umask].
  split.
  - intros f Hread Hfile. rewrite Hread, Hfile.
    eexists. split; [reflexivity|]. split; [|reflexivity].
    eapply sameStore_trans; [apply sameStore_addEffect|].
    eapply sameStore_trans; [apply sameStore_addEffect|].
    apply sameStore_addLog.
  - intros key Hcase Hgen.
    destruct (x_ReadFileErr X (EGetCertificate certID :: w_trace w)
                "/ipssl/key.pem") as [e|] eqn:Hread.
    + cbn [addLog addEffect setKeys setFiles w_trace w_privateKeys w_files
             w_umask].
      rewrite Hgen.
      cbn [addLog addEffect setKeys setFiles w_trace w_privateKeys w_files
             w_umask].
      destruct (x_WriteFileErr X _ "/ipssl/key.pem");
        (eexists; split; [reflexivity|]); split; try reflexivity.
      cbn [addLog addEffect setKeys setFiles w_trace w_privateKeys w_files].
      unfold written. destruct (w_files w !! "/ipssl/key.pem"); reflexivity.
    + destruct Hcase as [Hc|Hc]; [contradiction|]. rewrite Hc.
      cbn [addLog addEffect setKeys setFiles w_trace w_privateKeys w_files
             w_umask].
      rewrite Hgen.
      cbn [addLog addEffect setKeys setFiles w_trace w_privateKeys w_files
             w_umask].
      destruct (x_WriteFileErr X _ "/ipssl/key.pem");
        (eexists; split; [reflexivity|]); split; try reflexivity.
      cbn [addLog addEffect setKeys setFiles w_trace w_privateKeys w_files].
      unfold written. rewrite Hc. reflexivity.
Qed.

(** X6. Without a cached key for the certificate's common name, the key file
    /ipssl/key.pem is handed out as it is when it can be read, and nothing
    is generated or written; otherwise a new key is generated, cached under
    the common name and written to that file (requesting mode 0600): no
    other file changes, and a failure of this write does not fail the
    retrieval. *)
Theorem getPrivateKey_fallback (certID : string) (w : World)
    (d : CertificateObject) :
  x_GetCertificate X (w_trace w) certID = Ok d ->
  w_privateKeys w !! CommonName d = None ->
  let keyPath := "/ipssl/key.pem" in
  let tr := EGetCertificate certID :: w_trace w in
  (forall f,
      x_ReadFileErr X tr keyPath = None ->
      w_files w !! keyPath = Some f ->
      exists w',
        getPrivateKey X certID w = Ret (Ok (f_data f)) w'
        /\ sameStore w w'
        /\ w_trace w' = EReadFile keyPath :: tr)
  /\ (forall key,
         x_ReadFileErr X tr keyPath <> None \/ w_files w !! keyPath = None ->
         x_GenerateKey X (EReadFile keyPath :: tr) = Ok key ->
         exists w',
           getPrivateKey X certID w = Ret (Ok (x_EncodeKeyPEM X key)) w'
           /\ w_privateKeys w' = <[CommonName d := key]> (w_privateKeys w)
           /\ (x_WriteFileErr X (EGenerateKey :: EReadFile keyPath :: tr)
                 keyPath = None ->
               w_files w' !! keyPath =
               Some (written w keyPath (x_EncodeKeyPEM X key) mode_0600))
           /\ (forall p, p <> keyPath -> w_files w' !! p = w_files w !! p)).
Proof.
  intros Hget Hmiss keyPath tr.
  destruct (getPrivateKey_uncached_runs certID w d Hget Hmiss) as [Hold Hnew].
  split; [exact Hold|].
  intros key Hcase Hgen.
  destruct (Hnew key Hcase Hgen) as (w' & Hrun & Hkeys & Hfiles).
  exists w'. split; [exact Hrun|]. split; [exact Hkeys|].
  fold keyPath tr in Hfiles. rewrite Hfiles.
  destruct (x_WriteFileErr X (EGenerateKey :: EReadFile keyPath :: tr) keyPath).
  - split; [discriminate | reflexivity].
  - split.
    + intros _. apply lookup_insert_eq.
    + intros p Hp. apply lookup_insert_ne. congruence.
Qed.

(** X7. Retrieval is repeatable: a key handed out once is handed out again for
    the same common name, whether it came from the cache, from the key file
    (which must still be readable) or was generated at the first call. *)
Theorem getPrivateKey_repeatable (certID : string) (w : World) (pem : string)
    (w1 : World) (d d' : CertificateObject) :
  getPrivateKey X certID w = Ret (Ok pem) w1 ->
  x_GetCertificate X (w_trace w) certID = Ok d ->
  x_GetCertificate X (w_trace w1) certID = Ok d' ->
  CommonName d' = CommonName d ->
  x_ReadFileErr X (EGetCertificate certID :: w_trace w1) "/ipssl/key.pem"
  = None ->
  exists w2 : World, getPrivateKey X certID w1 = Ret (Ok pem) w2.
Proof.
  intros Hfirst Hget Hget' Hcn Hread2.
  unfold getPrivateKey, api_GetCertificate, lookupKey, os_ReadFile,
    rsa_GenerateKey, os_WriteFile, storeKey in *.
  rewrite keyPath_value in *. run_monad.
  rewrite Hget in Hfirst. rewrite Hget'.
  cbn [addLog addEffect setKeys setFiles w_trace w_privateKeys w_files
         w_umask] in *.
  rewrite Hcn.
  destruct (w_privateKeys w !! CommonName d) as [k|] eqn:Hcache.
  { injection Hfirst as <- <-. cbn [addEffect w_privateKeys].
    rewrite Hcache. eexists. reflexivity. }
  cbn [addLog addEffect setKeys setFiles w_trace w_privateKeys w_files
         w_umask] in Hfirst.
  destruct (x_ReadFileErr X (EGetCertificate certID :: w_trace w)
              "/ipssl/key.pem") as [e|] eqn:Hread;
    [|destruct (w_files w !! "/ipssl/key.pem") as [f|] eqn:Hfile].
  2:{ cbn [addLog] in Hfirst. injection Hfirst as <- <-.
      cbn [addLog addEffect setKeys setFiles w_trace w_privateKeys w_files]
        in *.
      rewrite Hcache.
      cbn [addLog addEffect setKeys setFiles w_trace w_privateKeys w_files].
      rewrite Hread2.
      cbn [addLog addEffect setKeys setFiles w_trace w_privateKeys w_files].
      rewrite Hfile. eexists. reflexivity. }
  all: cbn [addLog addEffect setKeys setFiles w_trace w_privateKeys w_files
              w_umask] in Hfirst;
    match type of Hfirst with
    | context [x_GenerateKey X ?t] =>
        destruct (x_GenerateKey X t) as [key|e']; [|discriminate Hfirst]
    end;
    cbn [addLog addEffect setKeys setFiles w_trace w_privateKeys w_files
           w_umask] in Hfirst;
    match type of Hfirst with
    | context [x_WriteFileErr X ?t ?p] => destruct (x_WriteFileErr X t p)
    end;
    injection Hfirst as <- <-;
    cbn [addLog addEffect setKeys setFiles w_trace w_privateKeys w_files];
    rewrite lookup_insert_eq; eexists; reflexivity.
Qed.

End Keys.

End key_facts.

(** ** Where validation files can go *)
Module path_facts.
Import vocabulary.
Import filepath filepath_facts.

Lemma split_parts_noSep (s : string) :
  Forall (fun c => noSep c = true) (split s).
Proof.
  induction s as [|c s IH]; cbn [split].
  - repeat constructor.
  - destruct (isSep c) eqn:Hc; [constructor; [reflexivity | exact IH]|].
    destruct (split s) as [|h t]; [repeat constructor; cbn; rewrite Hc;
                                   reflexivity|].
    inversion IH as [|? ? Hh Ht]; subst.
    constructor; [|exact Ht]. cbn. rewrite Hc, Hh. reflexivity.
Qed.

Lemma dropEmpty_head (l : list string) (x : string) (t : list string) :
  dropEmpty l = x :: t -> x <> "" /\ In x l.
Proof.
  induction l as [|e rest IH]; cbn [dropEmpty]; [discriminate|].
  destruct (String.eqb_spec e "") as [He|He].
  - intros H. destruct (IH H) as [Hx Hin]. split; [exact Hx | right; exact Hin].
  - intros H. injection H as <- <-. split; [exact He | left; reflexivity].
Qed.

(** A base name is a plain element, or one of the three special names. *)
Lemma Base_cases (s : string) :
  plain (Base s) = true \/ Base s = "." \/ Base s = ".." \/ Base s = "/".
Proof.
  unfold Base. destruct s as [|c s]; [right; left; reflexivity|].
  destruct (dropEmpty (rev (split (String c s)))) as [|x t] eqn:Hdrop;
    [right; right; right; reflexivity|].
  apply dropEmpty_head in Hdrop as [Hne Hin].
  apply in_rev in Hin.
  pose proof (proj1 (List.Forall_forall _ _) (split_parts_noSep (String c s)) x Hin)
    as Hns.
  unfold plain. rewrite Hns.
  destruct (String.eqb_spec x ""); [contradiction|].
  destruct (String.eqb_spec x "."); [right; left; assumption|].
  destruct (String.eqb_spec x ".."); [right; right; left; assumption|].
  left. reflexivity.
Qed.

Lemma Clean_render (path : string) :
  path <> "" ->
  Clean path =
  render (rootedPath path) (rev (cleanStack (rootedPath path) path)).
Proof. destruct path; [contradiction | reflexivity]. Qed.

Lemma rootedPath_app (a b : string) :
  a <> "" -> rootedPath (a +:+ b) = rootedPath a.
Proof. destruct a; [contradiction | reflexivity]. Qed.

Lemma app_nonempty (a b : string) : a <> "" -> a +:+ b <> "".
Proof. destruct a; [contradiction | discriminate]. Qed.

Lemma cleanStack_app (r : bool) (a n : string) :
  cleanStack r (a +:+ "/" +:+ n) =
  fold_left (cleanStep r) (split n) (cleanStack r a).
Proof. unfold cleanStack. rewrite split_app_sep, fold_left_app. reflexivity. Qed.

Lemma plain_noSep (n : string) : plain n = true -> noSep n = true.
Proof.
  unfold plain. intros H.
  apply andb_true_iff in H as [H _]. apply andb_true_iff in H as [H _].
  apply andb_true_iff in H as [H _]. exact H.
Qed.

Lemma plain_not_dotdot (n : string) : plain n = true -> n <> "..".
Proof.
  unfold plain. intros H Heq. subst n. discriminate H.
Qed.

Lemma cleanStack_child (r : bool) (a n : string) :
  plain n = true -> cleanStack r (a +:+ "/" +:+ n) = n :: cleanStack r a.
Proof.
  intros Hp. rewrite cleanStack_app, (split_noSep n (plain_noSep n Hp)).
  cbn [fold_left]. apply cleanStep_plain. exact Hp.
Qed.

Lemma render_snoc (r : bool) (out : list string) (n : string) :
  out <> [] ->
  render r (rev (n :: out)) = render r (rev out) +:+ "/" +:+ n.
Proof.
  intros Hne. cbn [rev]. unfold render.
  assert (Hrev : rev out <> []).
  { intros H. apply Hne. rewrite <- (rev_involutive out), H. reflexivity. }
  rewrite joinWith_snoc.
  destruct (rev out) as [|x l] eqn:Hr; [contradiction|].
  destruct r.
  - rewrite !app_assoc. reflexivity.
  - destruct ((x :: l) ++ [n])%list eqn:Happ; [discriminate Happ|].
    reflexivity.
Qed.

(** Below a path that keeps at least one element, a plain name is appended
    as it is. *)
Lemma Clean_child (a n : string) :
  a <> "" -> plain n = true ->
  cleanStack (rootedPath a) a <> [] ->
  Clean (a +:+ "/" +:+ n) = Clean a +:+ "/" +:+ n.
Proof.
  intros Ha Hp Hst.
  rewrite (Clean_render _ (app_nonempty a _ Ha)), (Clean_render a Ha).
  rewrite (rootedPath_app a _ Ha), (cleanStack_child _ a n Hp).
  apply render_snoc. exact Hst.
Qed.

Lemma Clean_same (a n : string) :
  a <> "" -> n = "" \/ n = "." \/ n = "/" ->
  Clean (a +:+ "/" +:+ n) = Clean a.
Proof.
  intros Ha Hn.
  rewrite (Clean_render _ (app_nonempty a _ Ha)), (Clean_render a Ha).
  rewrite (rootedPath_app a _ Ha), cleanStack_app.
  destruct Hn as [->|[->| ->]]; reflexivity.
Qed.

Lemma Clean_parent (a b : string) :
  a <> "" -> plain b = true ->
  Clean ((a +:+ "/" +:+ b) +:+ "/" +:+ "..") = Clean a.
Proof.
  intros Ha Hb.
  assert (Hab : a +:+ "/" +:+ b <> "") by (apply app_nonempty; exact Ha).
  rewrite (Clean_render _ (app_nonempty _ _ Hab)), (Clean_render a Ha).
  rewrite (rootedPath_app _ _ Hab), (rootedPath_app a _ Ha).
  rewrite cleanStack_app, (cleanStack_child _ a b Hb).
  cbn [split isSep Ascii.eqb Bool.eqb fold_left]. unfold cleanStep at 1.
  cbn [String.eqb Ascii.eqb Bool.eqb].
  apply plain_not_dotdot in Hb. apply String.eqb_neq in Hb. rewrite Hb.
  reflexivity.
Qed.

Lemma wellKnownOf_nonempty (dir : string) : wellKnownOf dir <> "".
Proof. destruct dir; discriminate. Qed.

Lemma wellKnownOf_stack (dir : string) :
  cleanStack (rootedPath (wellKnownOf dir)) (wellKnownOf dir) <> [].
Proof.
  destruct dir as [|c d]; [discriminate|].
  unfold wellKnownOf. rewrite cleanStack_child by reflexivity. discriminate.
Qed.

Lemma Join_wellKnown (dir : string) :
  Join [dir; ".well-known"] = Clean (wellKnownOf dir).
Proof. destruct dir; reflexivity. Qed.

Lemma Join_pki (dir : string) :
  Join [dir; ".well-known"; "pki-validation"] =
  Clean (wellKnownOf dir +:+ "/" +:+ "pki-validation").
Proof.
  destruct dir as [|c d]; [reflexivity|].
  unfold Join, wellKnownOf. cbn [dropEmpty String.eqb]. cbn [joinWith].
  rewrite !app_assoc. reflexivity.
Qed.

Lemma Join_file (dir name : string) :
  Join [dir; ".well-known"; "pki-validation"; name] =
  Clean ((wellKnownOf dir +:+ "/" +:+ "pki-validation") +:+ "/" +:+ name).
Proof.
  destruct dir as [|c d]; [reflexivity|].
  unfold Join, wellKnownOf. cbn [dropEmpty String.eqb]. cbn [joinWith].
  rewrite !app_assoc. reflexivity.
Qed.

(** X8. The name that the authority's URL supplies cannot direct the write out
    of the validation tree: the path written is [root/name] for a plain
    name (no separator, not empty, not a dot name), or the directory [root]
    itself, or its parent, where [root] is
    <validationDir>/.well-known/pki-validation; and [root] is the child
    pki-validation of <validationDir>/.well-known. *)
Theorem validationPath_confined (dir : string) (v : ValidationMethod) :
  let wellKnown := Join [dir; ".well-known"] in
  let root := Join [dir; ".well-known"; "pki-validation"] in
  let name := Base (FileValidationURLHTTP v) in
  root = wellKnown +:+ "/" +:+ "pki-validation"
  /\ ((plain name = true /\ validationPath dir v = root +:+ "/" +:+ name)
      \/ validationPath dir v = root
      \/ validationPath dir v = wellKnown).
Proof.
  intros wellKnown root name. subst wellKnown root. unfold validationPath.
  fold name. rewrite Join_wellKnown, Join_pki, Join_file.
  pose proof (wellKnownOf_nonempty dir) as Hne.
  pose proof (wellKnownOf_stack dir) as Hst.
  assert (Hroot : Clean (wellKnownOf dir +:+ "/" +:+ "pki-validation")
                  = Clean (wellKnownOf dir) +:+ "/" +:+ "pki-validation")
    by (apply Clean_child; [exact Hne | reflexivity | exact Hst]).
  split; [exact Hroot|].
  assert (Hne2 : wellKnownOf dir +:+ "/" +:+ "pki-validation" <> "")
    by (apply app_nonempty; exact Hne).
  destruct (Base_cases (FileValidationURLHTTP v)) as [Hp|[Hd|[Hdd|Hs]]];
    fold name in Hp || fold name in Hd || fold name in Hdd || fold name in Hs.
  - left. split; [exact Hp|]. apply Clean_child; [exact Hne2 | exact Hp|].
    rewrite (rootedPath_app _ _ Hne), cleanStack_child by reflexivity.
    discriminate.
  - right. left. apply Clean_same; [exact Hne2 | right; left; exact Hd].
  - right. right. rewrite Hdd. apply Clean_parent; [exact Hne | reflexivity].
  - right. left. apply Clean_same; [exact Hne2 | right; right; exact Hs].
Qed.

End path_facts.

(** ** What a run leaves as it was *)
Module frame_facts.
Import vocabulary.
Import filepath zerossl docker ipssl trace_facts.

Lemma sameStore_refl' (w : World) : sameStore w w.
Proof. repeat split. Qed.

Lemma sameStore_trans' (w1 w2 w3 : World) :
  sameStore w1 w2 -> sameStore w2 w3 -> sameStore w1 w3.
Proof.
  intros (A1 & A2 & A3 & A4 & A5) (B1 & B2 & B3 & B4 & B5).
  repeat split; congruence.
Qed.

#[global] Instance extends_frame (P : Effect -> Prop) : Frame P (extends P).
Proof.
  split.
  - intros w. apply extends_refl. reflexivity.
  - apply extends_trans.
  - intros e w. apply extends_refl. reflexivity.
  - intros e w HP. eapply extends_one; [exact HP | reflexivity].
Qed.

#[global] Instance onlyEffects_frame (P : Effect -> Prop) :
  Frame P (onlyEffects P).
Proof.
  split.
  - intros w. split; [apply sameStore_refl' | apply extends_refl; reflexivity].
  - intros w1 w2 w3 [S1 E1] [S2 E2].
    split; [eapply sameStore_trans' | eapply extends_trans]; eassumption.
  - intros e w. split; [repeat split | apply extends_refl; reflexivity].
  - intros e w HP.
    split; [repeat split | eapply extends_one; [exact HP | reflexivity]].
Qed.

Lemma writesWithin_refl (allowed : string -> Prop) (w w' : World) :
  w_env w' = w_env w -> w_umask w' = w_umask w -> w_dirs w' = w_dirs w ->
  w_files w' = w_files w -> writesWithin allowed w w'.
Proof.
  intros He Hu Hd Hf. unfold writesWithin. rewrite He, Hu, Hd, Hf.
  repeat split; auto.
Qed.

#[global] Instance writesWithin_frame (allowed : string -> Prop) :
  Frame (fun _ => True) (writesWithin allowed).
Proof.
  split.
  - intros w. apply writesWithin_refl; reflexivity.
  - intros w1 w2 w3 (A1 & A2 & A3 & A4 & A5) (B1 & B2 & B3 & B4 & B5).
    unfold writesWithin. repeat split.
    + congruence.
    + congruence.
    + set_solver.
    + intros path H. apply B4, A4, H.
    + intros path H. rewrite (B5 path H). apply A5, H.
  - intros e w. apply writesWithin_refl; reflexivity.
  - intros e w _. apply writesWithin_refl; reflexivity.
Qed.

Lemma writesWithin_mono (allowed allowed' : string -> Prop) (w w' : World) :
  (forall path, allowed path -> allowed' path) ->
  writesWithin allowed w w' -> writesWithin allowed' w w'.
Proof.
  intros Hsub (A1 & A2 & A3 & A4 & A5). unfold writesWithin.
  split; [exact A1|]. split; [exact A2|]. split; [exact A3|].
  split; [exact A4|].
  intros path H. apply A5. intros Ha. apply H, Hsub, Ha.
Qed.

Lemma writesWithin_MkdirAll (X : Externals) (allowed : string -> Prop)
    (path : string) (mode : Z) :
  keeps (writesWithin allowed) (os_MkdirAll X path mode).
Proof.
  intros w. unfold os_MkdirAll.
  destruct (x_MkdirAllErr X (w_trace w) path); cbn [stepWorld].
  - apply writesWithin_refl; reflexivity.
  - unfold writesWithin. cbn. repeat split; auto. set_solver.
Qed.

Lemma writesWithin_WriteFile (X : Externals) (allowed : string -> Prop)
    (path data : string) (mode : Z) :
  allowed path -> keeps (writesWithin allowed) (os_WriteFile X path data mode).
Proof.
  intros Ha w. unfold os_WriteFile.
  destruct (x_WriteFileErr X (w_trace w) path); cbn [stepWorld].
  - apply writesWithin_refl; reflexivity.
  - unfold writesWithin. cbn. repeat split; auto.
    + intros p Hp. destruct (decide (p = path)) as [->|Hne].
      * rewrite lookup_insert_eq. eauto.
      * rewrite lookup_insert_ne by congruence. exact Hp.
    + intros p Hp. apply lookup_insert_ne. intros ->. apply Hp, Ha.
Qed.

Lemma writesWithin_storeKey (allowed : string -> Prop) (ip : string)
    (k : PrivateKey) :
  keeps (writesWithin allowed) (storeKey ip k).
Proof. intros w. apply writesWithin_refl; reflexivity. Qed.

Lemma extends_MkdirAll (X : Externals) (P : Effect -> Prop)
    (path : string) (mode : Z) :
  (forall ok, P (EMkdirAll path mode ok)) ->
  keeps (extends P) (os_MkdirAll X path mode).
Proof. intros HP. apply grows_MkdirAll. exact HP. Qed.

Lemma extends_WriteFile (X : Externals) (P : Effect -> Prop)
    (path data : string) (mode : Z) :
  (forall ok, P (EWriteFile path mode ok)) ->
  keeps (extends P) (os_WriteFile X path data mode).
Proof. intros HP. apply grows_WriteFile. exact HP. Qed.

Lemma extends_storeKey (P : Effect -> Prop) (ip : string) (k : PrivateKey) :
  keeps (extends P) (storeKey ip k).
Proof. intros w. apply extends_refl. reflexivity. Qed.

Section Keeps.
Context (X : Externals) (P : Effect -> Prop) (R : World -> World -> Prop).
Context `{!Frame P R}.

Lemma keeps_ret {A : Type} (a : A) : keeps R (mret a).
Proof. intros w. apply frame_refl. Qed.

Lemma keeps_blocked {A : Type} : keeps R (fun w => @Blocked A w).
Proof. intros w. apply frame_refl. Qed.

Lemma keeps_bind {A B : Type} (m : M A) (f : A -> M B) :
  keeps R m -> (forall a, keeps R (f a)) -> keeps R (m ≫= f).
Proof.
  intros Hm Hf w. unfold mbind, M_bind. specialize (Hm w).
  destruct (m w) as [a w1|w1]; cbn [stepWorld] in *.
  - eapply frame_trans; [exact Hm | apply Hf].
  - exact Hm.
Qed.

Lemma keeps_logInfo (msg : string) : keeps R (logInfo msg).
Proof. intros w. apply frame_log. Qed.

Lemma keeps_logWarn (msg : string) : keeps R (logWarn msg).
Proof. intros w. apply frame_log. Qed.

Lemma keeps_logError (msg : string) : keeps R (logError msg).
Proof. intros w. apply frame_log. Qed.

Lemma keeps_Getenv (key : string) : keeps R (os_Getenv key).
Proof. intros w. apply frame_refl. Qed.

(** The value read from the environment may be used in what follows. *)
Lemma keeps_Getenv_bind {B : Type} (key : string) (f : string -> M B) :
  (forall w, R w (stepWorld (f (getenv w key) w))) ->
  keeps R (os_Getenv key ≫= f).
Proof. intros H w. apply H. Qed.

Lemma keeps_lookupKey (ip : string) : keeps R (lookupKey ip).
Proof. intros w. apply frame_refl. Qed.

Lemma keeps_Now : P ENow -> keeps R (time_Now X).
Proof. intros HP w. apply frame_effect, HP. Qed.

Lemma keeps_GenerateKey : P EGenerateKey -> keeps R (rsa_GenerateKey X).
Proof. intros HP w. apply frame_effect, HP. Qed.

Lemma keeps_CreateCSR (t : CertificateRequest) (k : PrivateKey) :
  P ECreateCSR -> keeps R (x509_CreateCertificateRequest X t k).
Proof. intros HP w. apply frame_effect, HP. Qed.

Lemma keeps_ListCertificates :
  P EListCertificates -> keeps R (api_ListCertificates X).
Proof. intros HP w. apply frame_effect, HP. Qed.

Lemma keeps_GetCertificate (id : string) :
  P (EGetCertificate id) -> keeps R (api_GetCertificate X id).
Proof. intros HP w. apply frame_effect, HP. Qed.

Lemma keeps_CreateCertificate (csr : CertificateRequest) (days : Z) :
  P (ECreateCertificate (csr_CommonName csr) days) ->
  keeps R (api_CreateCertificate X csr days).
Proof. intros HP w. apply frame_effect, HP. Qed.

Lemma keeps_VerifyIdentifiers (id : string) :
  P (EVerifyIdentifiers id) -> keeps R (api_VerifyIdentifiers X id).
Proof. intros HP w. apply frame_effect, HP. Qed.

Lemma keeps_DownloadCertificate (id : string) (b : bool) :
  P (EDownloadCertificate id b) -> keeps R (api_DownloadCertificate X id b).
Proof. intros HP w. apply frame_effect, HP. Qed.

Lemma keeps_ReadFile (path : string) :
  P (EReadFile path) -> keeps R (os_ReadFile X path).
Proof.
  intros HP w. unfold os_ReadFile.
  destruct (x_ReadFileErr X (w_trace w) path);
    [|destruct (w_files w !! path)]; apply frame_effect, HP.
Qed.

Lemma keeps_Stat (path : string) : P (EStat path) -> keeps R (os_Stat path).
Proof.
  intros HP w. unfold os_Stat.
  destruct (w_files w !! path); [|destruct (decide (path ∈ w_dirs w))];
    apply frame_effect, HP.
Qed.

Lemma keeps_ContainerList :
  P EContainerList -> keeps R (docker_ContainerList X).
Proof. intros HP w. apply frame_effect, HP. Qed.

Lemma keeps_ContainerKill (id signal : string) :
  P (EContainerKill id signal) -> keeps R (docker_ContainerKill X id signal).
Proof. intros HP w. apply frame_effect, HP. Qed.

End Keeps.

(** The side condition of a primitive. *)
Ltac keep_side :=
  first
    [ exact I
    | reflexivity
    | assumption
    | match goal with
      | H : forall e : Effect, _ -> ?P e |- ?P _ => apply H; exact I
      end ].

(** One step of a proof that a run keeps a relation: a primitive, a fact at
    hand, a bind, or the cases of a scrutinee. *)
Ltac keep_step :=
  first
    [ match goal with
      | |- keeps _ (mret _) => eapply keeps_ret; typeclasses eauto
      | |- keeps _ (fun w => Blocked w) =>
          eapply keeps_blocked; typeclasses eauto
      | |- keeps _ (logInfo _) => eapply keeps_logInfo; typeclasses eauto
      | |- keeps _ (logWarn _) => eapply keeps_logWarn; typeclasses eauto
      | |- keeps _ (logError _) => eapply keeps_logError; typeclasses eauto
      | |- keeps _ (os_Getenv _) => eapply keeps_Getenv; typeclasses eauto
      | |- keeps _ (lookupKey _) => eapply keeps_lookupKey; typeclasses eauto
      end
    | match goal with
      | H : context [keeps _ _] |- keeps _ _ => apply H
      end
    | eapply keeps_Now; [typeclasses eauto | keep_side]
    | eapply keeps_GenerateKey; [typeclasses eauto | keep_side]
    | eapply keeps_CreateCSR; [typeclasses eauto | keep_side]
    | eapply keeps_ListCertificates; [typeclasses eauto | keep_side]
    | eapply keeps_GetCertificate; [typeclasses eauto | keep_side]
    | eapply keeps_CreateCertificate; [typeclasses eauto | keep_side]
    | eapply keeps_VerifyIdentifiers; [typeclasses eauto | keep_side]
    | eapply keeps_DownloadCertificate; [typeclasses eauto | keep_side]
    | eapply keeps_ReadFile; [typeclasses eauto | keep_side]
    | eapply keeps_Stat; [typeclasses eauto | keep_side]
    | eapply keeps_ContainerList; [typeclasses eauto | keep_side]
    | eapply keeps_ContainerKill; [typeclasses eauto | keep_side]
    | eapply keeps_bind; [typeclasses eauto | | intros ?]
    | progress cbv zeta
    | match goal with
      | |- keeps _ (match ?x with _ => _ end) => destruct x
      | |- keeps _ (if ?b then _ else _) => destruct b
      | |- keeps _ (let '(_, _) := ?x in _) => destruct x
      end ].

Ltac keep := repeat keep_step.

(** The request path, for a relation that its writes respect. *)
Section Chain.
Context (X : Externals) (P : Effect -> Prop) (R : World -> World -> Prop).
Context `{!Frame P R}.
Context (HP : forall e : Effect, notDocker e -> P e).
Context (Hmkdir : forall path mode, keeps R (os_MkdirAll X path mode)).
Context (Hstore : forall ip k, keeps R (storeKey ip k)).
Context (dir : string).
Context (Hvalidation :
  forall v data mode, keeps R (os_WriteFile X (validationPath dir v) data mode)).
Context (Hkey :
  forall data mode,
    keeps R (os_WriteFile X (filepath.Join ["/ipssl"; "key.pem"]) data mode)).

Lemma keeps_findLoop (ip : string) (results : list CertificateObject) :
  keeps R (findLoop ip results).
Proof. induction results as [|c rest IH]; cbn [findLoop]; keep. Qed.

Lemma keeps_findExistingCertificate (ip : string) :
  keeps R (findExistingCertificate X ip).
Proof. unfold findExistingCertificate. keep. apply keeps_findLoop. Qed.

Lemma keeps_createIPCertificate (ip : string) :
  keeps R (createIPCertificate X ip).
Proof. unfold createIPCertificate. keep. Qed.

Lemma keeps_obtainRequest (ip : string) : keeps R (obtainRequest X ip).
Proof.
  unfold obtainRequest. keep. apply keeps_findLoop.
Qed.


Lemma keeps_waitLoop (certID : string) (events : list SelectEvent) :
  keeps R (waitLoop X certID events).
Proof.
  induction events as [|e rest IH]; cbn [waitLoop]; [keep|].
  destruct e; keep.
Qed.

Lemma keeps_validationLoop (updated : bool)
    (methods : list (string * ValidationMethod)) :
  keeps R (validationLoop X updated dir methods).
Proof.
  induction methods as [|[method v] rest IH]; cbn [validationLoop]; keep.
Qed.

Lemma keeps_writeValidationFiles (updated : bool) (details : CertificateObject) :
  keeps R (writeValidationFiles X updated dir details).
Proof.
  unfold writeValidationFiles.
  destruct (Validation details) as [[[methods|]]|]; keep.
  apply keeps_validationLoop.
Qed.

Lemma keeps_ValidateCertificate (certID : string) :
  keeps R (ValidateCertificate X certID dir).
Proof.
  unfold ValidateCertificate. keep;
    first [apply keeps_writeValidationFiles | apply keeps_validationLoop].
Qed.

(** [RequestCertificate] from the point where the validation directory has
    been read. *)
Lemma keeps_request_tail (certObj : CertificateObject)
    (events : list SelectEvent) :
  keeps R
    (e ← ValidateCertificate X (ID certObj) dir;
     match e with
     | Some err => mret (Err (ErrWrap "failed to validate certificate" err))
     | None =>
         i ← waitForCertificateIssuance X (ID certObj) events;
         match i with
         | Err err =>
             mret (Err (ErrWrap "failed to wait for certificate issuance"
                          err))
         | Ok certDetails =>
             b ← api_DownloadCertificate X (ID certDetails) true;
             match b with
             | Err err =>
                 mret (Err (ErrWrap "failed to download certificate" err))
             | Ok certBundle =>
                 k ← getPrivateKey X (ID certDetails);
                 match k with
                 | Err err =>
                     mret (Err (ErrWrap "failed to get private key" err))
                 | Ok keyPEM =>
                     logInfo "Certificate downloaded successfully";;
                     mret (Ok (fullCertChain certBundle, keyPEM))
                 end
             end
         end
     end).
Proof.
  keep;
    first [ apply keeps_writeValidationFiles
          | apply keeps_validationLoop
          | apply keeps_waitLoop ].
Qed.

End Chain.

End frame_facts.

(** ** Runs that always finish *)
Module returns_facts.
Import vocabulary.
Import zerossl docker ipssl.

Section Returns.
Context (X : Externals).

Lemma returns_ret {A : Type} (a : A) : returns (mret a).
Proof. intros w. eexists _, _. reflexivity. Qed.

Lemma returns_bind {A B : Type} (m : M A) (f : A -> M B) :
  returns m -> (forall a, returns (f a)) -> returns (m ≫= f).
Proof.
  intros Hm Hf w. destruct (Hm w) as (a & w1 & Ha).
  destruct (Hf a w1) as (b & w2 & Hb).
  exists b, w2. unfold mbind, M_bind. rewrite Ha. exact Hb.
Qed.

Lemma returns_prim {A : Type} (f : World -> A) (g : World -> World) :
  returns (fun w => Ret (f w) (g w)).
Proof. intros w. eexists _, _. reflexivity. Qed.

Lemma returns_MkdirAll (path : string) (mode : Z) :
  returns (os_MkdirAll X path mode).
Proof.
  intros w. unfold os_MkdirAll.
  destruct (x_MkdirAllErr X (w_trace w) path); eexists _, _; reflexivity.
Qed.

Lemma returns_WriteFile (path data : string) (mode : Z) :
  returns (os_WriteFile X path data mode).
Proof.
  intros w. unfold os_WriteFile.
  destruct (x_WriteFileErr X (w_trace w) path); eexists _, _; reflexivity.
Qed.

Lemma returns_ReadFile (path : string) : returns (os_ReadFile X path).
Proof.
  intros w. unfold os_ReadFile.
  destruct (x_ReadFileErr X (w_trace w) path);
    [|destruct (w_files w !! path)]; eexists _, _; reflexivity.
Qed.

Lemma returns_Stat (path : string) : returns (os_Stat path).
Proof.
  intros w. unfold os_Stat.
  destruct (w_files w !! path); [|destruct (decide (path ∈ w_dirs w))];
    eexists _, _; reflexivity.
Qed.

End Returns.

(** One step of a proof that a run finishes. *)
Ltac finish_step :=
  first
    [ match goal with
      | |- returns (mret _) => apply returns_ret
      | |- returns (_ ≫= _) => apply returns_bind; [|intros ?]
      | |- returns (os_MkdirAll _ _ _) => apply returns_MkdirAll
      | |- returns (os_WriteFile _ _ _ _) => apply returns_WriteFile
      | |- returns (os_ReadFile _ _) => apply returns_ReadFile
      | |- returns (os_Stat _) => apply returns_Stat
      | |- returns (match ?x with _ => _ end) => destruct x
      | |- returns (if ?b then _ else _) => destruct b
      | |- returns (let '(_, _) := ?x in _) => destruct x
      | H : context [returns _] |- returns _ => apply H
      end
    | progress cbv zeta
    | apply returns_prim ].

Ltac finish := repeat finish_step.

Section Finishing.
Context (X : Externals).

Lemma returns_findLoop (ip : string) (results : list CertificateObject) :
  returns (findLoop ip results).
Proof. induction results as [|c rest IH]; cbn [findLoop]; finish. Qed.

Lemma returns_createIPCertificate (ip : string) :
  returns (createIPCertificate X ip).
Proof. unfold createIPCertificate. finish. Qed.

Lemma returns_obtainRequest (ip : string) : returns (obtainRequest X ip).
Proof.
  unfold obtainRequest, findExistingCertificate. finish;
    first [apply returns_findLoop | apply returns_createIPCertificate].
Qed.

Lemma returns_getPrivateKey (certID : string) :
  returns (getPrivateKey X certID).
Proof. unfold getPrivateKey. finish. Qed.

Lemma returns_validationLoop (updated : bool) (dir : string)
    (methods : list (string * ValidationMethod)) :
  returns (validationLoop X updated dir methods).
Proof.
  induction methods as [|[method v] rest IH]; cbn [validationLoop]; finish.
Qed.

Lemma returns_writeValidationFiles (updated : bool) (dir : string)
    (details : CertificateObject) :
  returns (writeValidationFiles X updated dir details).
Proof.
  unfold writeValidationFiles.
  destruct (Validation details) as [[[methods|]]|]; finish.
  apply returns_validationLoop.
Qed.

Lemma returns_ValidateCertificate (certID dir : string) :
  returns (ValidateCertificate X certID dir).
Proof.
  unfold ValidateCertificate. finish; apply returns_writeValidationFiles.
Qed.

Lemma returns_IsCertificateValid (certPath : string) (d : Duration) :
  returns (IsCertificateValid X certPath d).
Proof. unfold IsCertificateValid. finish. Qed.

Lemma returns_ReloadContainer (name : string) :
  returns (ReloadContainer X name).
Proof. unfold ReloadContainer. finish. Qed.

Lemma returns_GetContainerStatus (name : string) :
  returns (GetContainerStatus X name).
Proof. unfold GetContainerStatus. finish. Qed.

Lemma returns_mkdirs (dirs : list string) : returns (mkdirs X dirs).
Proof. induction dirs as [|d rest IH]; cbn [mkdirs]; finish. Qed.

Lemma returns_certificateFilesExist (c : Client) :
  returns (certificateFilesExist c).
Proof. unfold certificateFilesExist. finish. Qed.

Lemma returns_isCertificateValid (c : Client) :
  returns (isCertificateValid X c).
Proof.
  unfold isCertificateValid. finish;
    first [apply returns_certificateFilesExist | apply returns_IsCertificateValid].
Qed.

Lemma returns_saveCertificateFiles (c : Client) (cert key : string) :
  returns (saveCertificateFiles X c cert key).
Proof. unfold saveCertificateFiles. finish. Qed.

End Finishing.

End returns_facts.

(** ** The request to the authority, as a whole *)
Module request_facts.
Import vocabulary.
Import filepath config zerossl docker ipssl.
Import validation_failure_facts trace_facts frame_facts returns_facts.

Lemma validationFile_write (X : Externals) (dir : string)
    (v : ValidationMethod) (data : string) (mode : Z) :
  keeps (writesWithin (validationFile dir))
    (os_WriteFile X (validationPath dir v) data mode).
Proof. apply writesWithin_WriteFile. exists v. reflexivity. Qed.

Lemma fsEffect_writeValidationFiles (X : Externals) (updated : bool)
    (dir : string) (details : CertificateObject) :
  keeps (extends fsEffect) (writeValidationFiles X updated dir details).
Proof.
  eapply keeps_writeValidationFiles; [typeclasses eauto | |].
  - intros path mode. apply extends_MkdirAll. intros ok. exact I.
  - intros v data mode. apply extends_WriteFile. intros ok. exact I.
Qed.

Lemma keys_writeValidationFiles (X : Externals) (updated : bool)
    (dir : string) (details : CertificateObject) (w : World) :
  w_privateKeys (stepWorld (writeValidationFiles X updated dir details w))
  = w_privateKeys w.
Proof.
  pose (R := fun w w' : World => w_privateKeys w' = w_privateKeys w).
  assert (HR : Frame (fun _ => True) R).
  { split; unfold R; intros; cbn; congruence. }
  apply (@keeps_writeValidationFiles X (fun _ => True) R HR).
  - intros path mode w0. unfold R, os_MkdirAll.
    destruct (x_MkdirAllErr X (w_trace w0) path); reflexivity.
  - intros v data mode w0. unfold R, os_WriteFile.
    destruct (x_WriteFileErr X (w_trace w0) (validationPath dir v));
      reflexivity.
Qed.

#[global] Instance writesByEnv_frame (allowedAt : string -> string -> Prop) :
  Frame (fun _ => True) (writesByEnv allowedAt).
Proof.
  split; unfold writesByEnv.
  - intros w. apply frame_refl.
  - intros w1 w2 w3 H12 H23.
    assert (Hdir : validationDirRead w2 = validationDirRead w1).
    { unfold validationDirRead, getenv. destruct H12 as (-> & _).
      reflexivity. }
    rewrite Hdir in H23. eapply frame_trans; eassumption.
  - intros e w. apply (frame_log (R := writesWithin _)).
  - intros e w _. apply (frame_effect (R := writesWithin _)). exact I.
Qed.

Section RequestFrames.
Context (X : Externals).

(** [RequestCertificate], for a relation that every write respects. *)
Lemma keeps_RequestCertificate_any (P : Effect -> Prop)
    (R : World -> World -> Prop) `{!Frame P R}
    (HP : forall e : Effect, notDocker e -> P e)
    (Hmkdir : forall path mode, keeps R (os_MkdirAll X path mode))
    (Hstore : forall ip k, keeps R (storeKey ip k))
    (Hwrite : forall path data mode, keeps R (os_WriteFile X path data mode))
    (ip : string) (events : list SelectEvent) :
  keeps R (RequestCertificate X ip events).
Proof.
  unfold RequestCertificate.
  eapply keeps_bind; [typeclasses eauto | keep | intros ?].
  eapply keeps_bind; [typeclasses eauto | keep | intros ?].
  eapply keeps_bind;
    [typeclasses eauto | eapply keeps_obtainRequest; eauto | intros [t|e]];
    [|keep].
  eapply keeps_bind; [typeclasses eauto | keep | intros v].
  eapply keeps_request_tail; eauto.
Qed.

(** The same for writes confined to paths that include those of a
    request. *)
Lemma keeps_RequestCertificate_env (allowedAt : string -> string -> Prop)
    (Hreq : forall dir path, requestFile dir path -> allowedAt dir path)
    (ip : string) (events : list SelectEvent) :
  keeps (writesByEnv allowedAt) (RequestCertificate X ip events).
Proof.
  unfold RequestCertificate.
  eapply keeps_bind; [typeclasses eauto | keep | intros ?].
  eapply keeps_bind; [typeclasses eauto | keep | intros ?].
  eapply keeps_bind; [typeclasses eauto | | intros [t|e]]; [| |keep].
  { eapply keeps_obtainRequest;
      [typeclasses eauto | intros; exact I |].
    intros ip0 k w. apply writesWithin_storeKey. }
  apply keeps_Getenv_bind. intros w.
  change (if String.eqb (getenv w "IPSSL_VALIDATION_DIR") ""
          then "/usr/share/caddy/" else getenv w "IPSSL_VALIDATION_DIR")
    with (validationDirRead w).
  set (allowed := allowedAt (validationDirRead w)).
  assert (Hv : forall v data mode,
             keeps (writesWithin allowed)
               (os_WriteFile X (validationPath (validationDirRead w) v)
                  data mode)).
  { intros v data mode. apply writesWithin_WriteFile, Hreq.
    right. exists v. reflexivity. }
  assert (Hk : forall data mode,
             keeps (writesWithin allowed)
               (os_WriteFile X (filepath.Join ["/ipssl"; "key.pem"])
                  data mode)).
  { intros data mode. apply writesWithin_WriteFile, Hreq.
    left. reflexivity. }
  exact (@keeps_request_tail X (fun _ => True) (writesWithin allowed)
           (writesWithin_frame _) (fun _ _ => I)
           (writesWithin_MkdirAll X _) (writesWithin_storeKey _)
           (validationDirRead w) Hv Hk t events w).
Qed.

Lemma notDocker_RequestCertificate (ip : string) (events : list SelectEvent) :
  keeps (extends notDocker) (RequestCertificate X ip events).
Proof.
  eapply keeps_RequestCertificate_any.
  - typeclasses eauto.
  - intros e H. exact H.
  - intros path mode. apply extends_MkdirAll. intros ok. exact I.
  - intros ip0 k. apply extends_storeKey.
  - intros path data mode. apply extends_WriteFile. intros ok. exact I.
Qed.

Lemma notDocker_saveCertificateFiles (c : Client) (cert key : string) :
  keeps (extends notDocker) (saveCertificateFiles X c cert key).
Proof.
  unfold saveCertificateFiles. cbv zeta.
  repeat first
    [ apply extends_WriteFile; intros ok; exact I
    | keep_step ].
Qed.

Section ClientFrames.
Context (c : Client).

Lemma clientFile_request (dir path : string) :
  requestFile dir path -> clientFile c dir path.
Proof. intros H. right. right. exact H. Qed.

Lemma clientWrites_MkdirAll (path : string) (mode : Z) :
  keeps (clientWrites c) (os_MkdirAll X path mode).
Proof. intros w. apply writesWithin_MkdirAll. Qed.

Lemma keeps_mkdirs (dirs : list string) :
  keeps (clientWrites c) (mkdirs X dirs).
Proof.
  pose proof clientWrites_MkdirAll as Hmk.
  induction dirs as [|d rest IH]; cbn [mkdirs]; keep.
Qed.

Lemma keeps_isCertificateValid : keeps (clientWrites c) (isCertificateValid X c).
Proof.
  unfold isCertificateValid, certificateFilesExist, IsCertificateValid. keep.
Qed.

Lemma keeps_saveCertificateFiles (cert key : string) :
  keeps (clientWrites c) (saveCertificateFiles X c cert key).
Proof.
  assert (Hcert : forall data mode,
             keeps (clientWrites c) (os_WriteFile X (certPathOf c) data mode)).
  { intros data mode w. apply writesWithin_WriteFile. left. reflexivity. }
  assert (Hkey : forall data mode,
             keeps (clientWrites c) (os_WriteFile X (keyPathOf c) data mode)).
  { intros data mode w. apply writesWithin_WriteFile. right. left.
    reflexivity. }
  unfold saveCertificateFiles. cbv zeta.
  eapply keeps_bind; [typeclasses eauto | apply Hcert | intros [e|]]; [keep|].
  eapply keeps_bind; [typeclasses eauto | apply Hkey | intros [e|]]; keep.
Qed.

Lemma keeps_requestCertificate (events : list SelectEvent) :
  keeps (clientWrites c) (requestCertificate X c events).
Proof.
  pose proof (keeps_RequestCertificate_env (clientFile c) clientFile_request)
    as Hreq.
  pose proof keeps_saveCertificateFiles as Hsave.
  unfold requestCertificate, ReloadContainer. keep.
Qed.

Lemma keeps_renewalLoop (events : list SchedulerEvent) :
  keeps (clientWrites c) (renewalLoop X c events).
Proof.
  pose proof keeps_isCertificateValid as Hvalid.
  pose proof keeps_requestCertificate as Hreq.
  induction events as [|[|poll] rest IH]; cbn [renewalLoop]; keep.
Qed.

Lemma keeps_Start (startup : list SelectEvent) (events : list SchedulerEvent) :
  keeps (clientWrites c) (Start X c startup events).
Proof.
  pose proof keeps_isCertificateValid as Hvalid.
  pose proof keeps_requestCertificate as Hreq.
  pose proof keeps_renewalLoop as Hloop.
  pose proof keeps_mkdirs as Hdirs.
  unfold Start, ensureDirectories. keep.
Qed.

End ClientFrames.

End RequestFrames.

Section Request.
Context (X : Externals).

(** X9. [ValidateCertificate] always returns.  It changes no file outside
    the validation paths below its directory, removes nothing, and leaves
    environment, umask and key store alone.  An error is a failed fetch of
    the request or a failed directory creation or file write.  On success
    the calls were, in order: a fetch, file-system work, the trigger of the
    verification, a second fetch, file-system work; a trigger that the
    authority rejects does not change this. *)
Theorem ValidateCertificate_outcome (certID dir : string) (w : World) :
  exists (res : option error) (w' : World),
    ValidateCertificate X certID dir w = Ret res w'
    /\ writesWithin (validationFile dir) w w'
    /\ w_privateKeys w' = w_privateKeys w
    /\ (forall err, res = Some err ->
                    fetchError X certID err \/ filesystemError err)
    /\ (res = None ->
        exists fs1 fs2 : list Effect,
          w_trace w' =
          (fs2 ++ EGetCertificate certID :: EVerifyIdentifiers certID
               :: fs1 ++ EGetCertificate certID :: w_trace w)%list
          /\ Forall fsEffect fs1 /\ Forall fsEffect fs2).
Proof.
  destruct (returns_ValidateCertificate X certID dir w) as (res & w' & Hrun).
  exists res, w'. split; [exact Hrun|].
  split.
  { pose proof (@keeps_ValidateCertificate X (fun _ => True)
                  (writesWithin (validationFile dir)) _ (fun _ _ => I)
                  (writesWithin_MkdirAll X _) dir (validationFile_write X dir)
                  certID w) as H.
    rewrite Hrun in H. exact H. }
  unfold ValidateCertificate, api_GetCertificate, api_VerifyIdentifiers
    in Hrun.
  run_monad. cbn [addLog addEffect w_trace] in Hrun.
  destruct (x_GetCertificate X (w_trace w) certID) as [d|e] eqn:Hget.
  2:{ injection Hrun as <- <-. split; [reflexivity|]. split.
      - intros err [= <-]. left. exists (w_trace w), e. auto.
      - discriminate. }
  match type of Hrun with
  | context [writeValidationFiles X false dir d ?w0] =>
      pose proof (fsEffect_writeValidationFiles X false dir d w0) as Hfs1;
      pose proof (keys_writeValidationFiles X false dir d w0) as Hk1;
      destruct (writeValidationFiles X false dir d w0) as [[e1|] w1|w1]
        eqn:Hw1; [| |discriminate Hrun]
  end; cbn [stepWorld] in Hfs1, Hk1.
  { injection Hrun as <- <-. split; [exact Hk1|]. split.
    - intros err [= <-]. right.
      eapply writeValidationFiles_error. exact Hw1.
    - discriminate. }
  destruct Hfs1 as (fs1 & Htr1 & Hall1). cbn [addLog addEffect w_trace] in Htr1.
  destruct (x_VerifyIdentifiers X (w_trace w1) certID) as [ev|];
    cbn [addLog addEffect w_trace] in Hrun;
    (destruct (x_GetCertificate X (EVerifyIdentifiers certID :: w_trace w1)
                 certID) as [d2|e2] eqn:Hget2;
     [|injection Hrun as <- <-; split; [exact Hk1|]; split;
       [intros err [= <-]; left;
        exists (EVerifyIdentifiers certID :: w_trace w1), e2; auto
       |discriminate]]);
    (match type of Hrun with
     | context [writeValidationFiles X true dir d2 ?w0] =>
         pose proof (fsEffect_writeValidationFiles X true dir d2 w0) as Hfs2;
         pose proof (keys_writeValidationFiles X true dir d2 w0) as Hk2;
         destruct (writeValidationFiles X true dir d2 w0) as [[e3|] w2|w2]
           eqn:Hw2; [| |discriminate Hrun]
     end; cbn [stepWorld] in Hfs2, Hk2; injection Hrun as <- <-;
     (split; [cbn [addLog addEffect w_privateKeys] in *; congruence|]);
     (split;
      [first [ discriminate
             | intros err [= <-]; right;
               eapply writeValidationFiles_error; exact Hw2 ]
      |first [ discriminate
             | intros _; destruct Hfs2 as (fs2 & Htr2 & Hall2);
               cbn [addLog addEffect w_trace] in Htr2;
               exists fs1, fs2; cbn [addLog w_trace];
               rewrite Htr2, Htr1; auto ]])).
Qed.

(** X10. [RequestCertificate], however it ends, changes no file other than
    /ipssl/key.pem and the validation files below the directory that
    IPSSL_VALIDATION_DIR names when it starts (the default when it is not
    set); it removes no file and no directory and leaves environment and
    umask alone. *)
Theorem RequestCertificate_writes_within
    (ip : string) (events : list SelectEvent) (w : World) :
  writesWithin (requestFile (validationDirRead w)) w
    (stepWorld (RequestCertificate X ip events w)).
Proof.
  apply (keeps_RequestCertificate_env X requestFile (fun _ _ H => H)).
Qed.

(** X11. A run of the client, from [Start] on and whether it returns or
    not, changes no file other than the certificate and the key in the
    certificate directory, /ipssl/key.pem, and the validation files below
    the directory that the environment names; it removes no file and no
    directory and leaves environment and umask alone. *)
Theorem Start_writes_within (c : Client) (startup : list SelectEvent)
    (events : list SchedulerEvent) (w : World) :
  clientWrites c w (stepWorld (Start X c startup events w)).
Proof. apply keeps_Start. Qed.

(** X12. An attempt that does not succeed, by an error or by waiting
    without end, makes no call to the Docker daemon: the container is only
    looked up and signalled after certificate and key were both saved. *)
Theorem failed_attempt_leaves_container_alone
    (c : Client) (events : list SelectEvent) (w : World) :
  stepValue (requestCertificate X c events w) <> Some None ->
  extends notDocker w (stepWorld (requestCertificate X c events w)).
Proof.
  intros Hfail. unfold requestCertificate in *. run_monad.
  pose proof (notDocker_RequestCertificate X (ClientIP (cfg c)) events
                (addLog (Info, "Requesting new certificate") w)) as Hreq.
  destruct (RequestCertificate X (ClientIP (cfg c)) events
              (addLog (Info, "Requesting new certificate") w))
    as [[[cert key]|err] w1|w1]; cbn [stepWorld] in *; try exact Hreq.
  pose proof (notDocker_saveCertificateFiles X c cert key
                (addLog (Info, "Certificate chain received") w1)) as Hsave.
  destruct (saveCertificateFiles X c cert key
              (addLog (Info, "Certificate chain received") w1))
    as [[e|] w2|w2]; cbn [stepWorld] in *;
    try (eapply extends_trans; [exact Hreq | exact Hsave]).
  exfalso. apply Hfail.
  destruct (dockerClient c && negb (String.eqb (ContainerName (cfg c)) ""));
    [|reflexivity].
  destruct (returns_ReloadContainer X (ContainerName (cfg c))
              (addLog (Info, "Certificate saved successfully") w2))
    as ([e|] & w3 & Hr); rewrite Hr; reflexivity.
Qed.

End Request.

End request_facts.

(** ** The certificate store and the scheduler, in the steady state *)
Module lifecycle_facts.
Import vocabulary.
Import filepath config zerossl docker ipssl.
Import trace_facts frame_facts returns_facts.

#[global] Instance quietly_frame : Frame quietEffect quietly.
Proof.
  split.
  - intros w. unfold quietly. repeat split; try reflexivity.
    apply extends_refl. reflexivity.
  - intros w1 w2 w3 (A1 & A2 & A3 & A4 & A5 & A6) (B1 & B2 & B3 & B4 & B5 & B6).
    unfold quietly.
    split; [congruence|]. split; [congruence|]. split; [congruence|].
    split; [congruence|]. split; [set_solver|].
    eapply extends_trans; eassumption.
  - intros e w. unfold quietly. repeat split; try reflexivity.
    apply extends_refl. reflexivity.
  - intros e w HP. unfold quietly. repeat split; try reflexivity.
    eapply extends_one; [exact HP | reflexivity].
Qed.

Lemma readEffect_quiet (e : Effect) : readEffect e -> quietEffect e.
Proof. destruct e; cbn; tauto. Qed.

Lemma onlyEffects_quietly (w w' : World) :
  onlyEffects readEffect w w' -> quietly w w'.
Proof.
  intros [(A1 & A2 & A3 & A4 & A5) (new & Htr & Hall)]. unfold quietly.
  split; [exact A1|]. split; [exact A2|]. split; [exact A4|].
  split; [exact A5|]. split; [rewrite A3; reflexivity|].
  exists new. split; [exact Htr|].
  eapply Forall_impl; [exact Hall | apply readEffect_quiet].
Qed.

Lemma servable_quietly (X : Externals) (c : Client) (w w' : World) :
  quietly w w' -> servable X c w -> servable X c w'.
Proof.
  intros (He & Hf & Hu & Hk & Hd & Ht) (f & der & cert & H1 & H2 & H3).
  exists f, der, cert. rewrite Hf. split; [exact H1|].
  split; [|exact H3].
  destruct H2 as [H2|H2]; [left; exact H2 | right].
  apply (proj1 (elem_of_subseteq _ _) Hd), H2.
Qed.

Lemma certificateFilesExist_true (c : Client) (w : World) (reason : string)
    (w' : World) :
  certificateFilesExist c w = Ret (true, reason) w' ->
  (is_Some (w_files w !! certPathOf c) \/ certPathOf c ∈ w_dirs w)
  /\ (is_Some (w_files w !! keyPathOf c) \/ keyPathOf c ∈ w_dirs w)
  /\ w_files w' = w_files w.
Proof.
  unfold certificateFilesExist, os_Stat.
  fold (certPathOf c). fold (keyPathOf c).
  set (cp := certPathOf c). set (kp := keyPathOf c). run_monad.
  intros Hrun.
  assert (Hc : is_Some (w_files w !! cp) \/ cp ∈ w_dirs w).
  { destruct (w_files w !! cp); [left; eauto|].
    destruct (decide (cp ∈ w_dirs w)); [right; assumption|].
    cbn in Hrun. discriminate Hrun. }
  assert (Hstat :
    match w_files w !! cp with
    | Some _ => Ret None (addEffect (EStat cp) w)
    | None =>
        if decide (cp ∈ w_dirs w) then Ret None (addEffect (EStat cp) w)
        else Ret (Some (ErrNotExist cp)) (addEffect (EStat cp) w)
    end = Ret None (addEffect (EStat cp) w)).
  { destruct Hc as [[f Hf]|Hd]; [rewrite Hf; reflexivity|].
    destruct (w_files w !! cp); [reflexivity|].
    destruct (decide (cp ∈ w_dirs w)); [reflexivity | contradiction]. }
  rewrite Hstat in Hrun. cbn [os_IsNotExist addEffect w_files w_dirs] in Hrun.
  split; [exact Hc|].
  destruct (w_files w !! kp) as [k|];
    [|destruct (decide (kp ∈ w_dirs w))]; cbn in Hrun;
    try discriminate Hrun; injection Hrun as _ <-;
    (split; [eauto | reflexivity]).
Qed.

Lemma IsCertificateValid_true_file (X : Externals) (path : string)
    (d : Duration) (w : World) (e : option error) (w' : World) :
  IsCertificateValid X path d w = Ret (true, e) w' ->
  is_Some (w_files w !! path).
Proof.
  unfold IsCertificateValid, os_ReadFile, time_Now. run_monad. intros Hrun.
  destruct (x_ReadFileErr X (w_trace w) path); [discriminate Hrun|].
  destruct (w_files w !! path); [eauto | discriminate Hrun].
Qed.

Section Lifecycle.
Context (X : Externals).

Lemma readOnly_isCertificateValid (c : Client) :
  keeps (onlyEffects readEffect) (isCertificateValid X c).
Proof.
  unfold isCertificateValid, certificateFilesExist, IsCertificateValid. keep.
Qed.

Lemma quietly_mkdirs (dirs : list string) : keeps quietly (mkdirs X dirs).
Proof.
  assert (Hmk : forall path mode, keeps quietly (os_MkdirAll X path mode)).
  { intros path mode w. unfold os_MkdirAll.
    destruct (x_MkdirAllErr X (w_trace w) path); cbn [stepWorld];
      unfold quietly; cbn; repeat split; try reflexivity;
      try set_solver;
      (eapply extends_one; cycle 1; [reflexivity | exact I]). }
  induction dirs as [|d rest IH]; cbn [mkdirs]; keep.
Qed.

(** The check of a servable store. *)
Lemma isCertificateValid_servable (c : Client) (w : World) :
  servable X c w ->
  exists w1 : World,
    isCertificateValid X c w = Ret true w1
    /\ onlyEffects readEffect w w1.
Proof.
  intros (f & der & cert & Hcert & Hkey & Hpem & Hparse & Hall).
  pose proof (readOnly_isCertificateValid c w) as Hro.
  assert (Hrun : stepValue (isCertificateValid X c w) = Some true).
  { unfold isCertificateValid, certificateFilesExist, IsCertificateValid,
      os_Stat, os_ReadFile, time_Now.
    fold (certPathOf c). fold (keyPathOf c). run_monad.
    rewrite Hcert. cbn [os_IsNotExist addEffect w_files w_dirs w_trace].
    assert (Hstat :
      match w_files w !! keyPathOf c with
      | Some _ => Ret None (addEffect (EStat (keyPathOf c))
                              (addEffect (EStat (certPathOf c)) w))
      | None =>
          if decide (keyPathOf c ∈ w_dirs w)
          then Ret None (addEffect (EStat (keyPathOf c))
                           (addEffect (EStat (certPathOf c)) w))
          else Ret (Some (ErrNotExist (keyPathOf c)))
                 (addEffect (EStat (keyPathOf c))
                    (addEffect (EStat (certPathOf c)) w))
      end
      = Ret None (addEffect (EStat (keyPathOf c))
                    (addEffect (EStat (certPathOf c)) w))).
    { destruct Hkey as [[k Hk]|Hk]; [rewrite Hk; reflexivity|].
      destruct (w_files w !! keyPathOf c); [reflexivity|].
      destruct (decide (keyPathOf c ∈ w_dirs w)); [reflexivity|contradiction]. }
    unfold addEffect in Hstat |- *. cbn [w_files w_dirs w_trace] in Hstat |- *.
    rewrite Hstat. cbn [os_IsNotExist negb w_files w_trace].
    rewrite (proj1 (Hall _)), Hcert. cbn [f_data]. rewrite Hpem, Hparse.
    cbn [w_trace]. unfold Time_After, Time_Before, Time_Add.
    match goal with
    | |- context [Z.ltb (NotAfter cert) (x_Now X ?tr)] =>
        destruct (Z.ltb_spec (NotAfter cert) (x_Now X tr)) as [Hlt|_];
        [pose proof (proj1 (proj2 (Hall tr))); lia|]
    end.
    cbn [w_trace].
    match goal with
    | |- context [Z.ltb (NotAfter cert) (x_Now X ?tr + ?d)] =>
        destruct (Z.ltb_spec (NotAfter cert) (x_Now X tr + d)) as [Hlt|_];
        [pose proof (proj2 (proj2 (Hall tr))); lia|]
    end.
    reflexivity. }
  destruct (isCertificateValid X c w) as [b w1|w1]; [|discriminate Hrun].
  injection Hrun as ->. exists w1. split; [reflexivity | exact Hro].
Qed.

Lemma renewalLoop_servable (c : Client) (events : list SchedulerEvent) :
  forall w : World,
    servable X c w ->
    onlyEffects readEffect w (stepWorld (renewalLoop X c events w)).
Proof.
  induction events as [|[|poll] rest IH]; intros w Hs.
  - apply frame_refl.
  - cbn [renewalLoop]. run_monad. cbn [stepWorld]. apply frame_log.
  - cbn [renewalLoop]. run_monad.
    destruct (isCertificateValid_servable c w Hs) as (w1 & Hrun & Hro).
    rewrite Hrun. cbn [negb].
    eapply frame_trans; [exact Hro|].
    eapply frame_trans; [apply frame_log|].
    apply IH. eapply servable_quietly; [|exact Hs].
    apply onlyEffects_quietly.
    eapply frame_trans; [exact Hro | apply frame_log].
Qed.

(** X13. The validity check always returns and is read-only: it changes
    nothing but log and trace, and all it does is stat and read files and
    read the clock.  It answers true only if the certificate file exists
    and the key path exists too ([os_Stat] fails only for a path that
    does not exist). *)
Theorem isCertificateValid_read_only (c : Client) (w : World) :
  exists (b : bool) (w' : World),
    isCertificateValid X c w = Ret b w'
    /\ onlyEffects readEffect w w'
    /\ (b = true ->
        is_Some (w_files w !! certPathOf c)
        /\ (is_Some (w_files w !! keyPathOf c) \/ keyPathOf c ∈ w_dirs w)).
Proof.
  destruct (returns_isCertificateValid X c w) as (b & w' & Hrun).
  exists b, w'. split; [exact Hrun|].
  split.
  { pose proof (readOnly_isCertificateValid c w) as H.
    rewrite Hrun in H. exact H. }
  intros ->.
  unfold isCertificateValid in Hrun. fold (certPathOf c) in Hrun. run_monad.
  destruct (certificateFilesExist c w) as [[[|] reason] w1|w1] eqn:Hex;
    cbn [negb] in Hrun; try discriminate Hrun.
  apply certificateFilesExist_true in Hex as (Hc & Hk & Hf).
  split; [|exact Hk].
  destruct (IsCertificateValid X (certPathOf c) (CertValidity (cfg c)) w1)
    as [[valid [e|]] w2|w2] eqn:Hv; try discriminate Hrun.
  destruct valid; [|discriminate Hrun].
  rewrite <- Hf. eapply IsCertificateValid_true_file. exact Hv.
Qed.

(** X14. While the store is servable the scheduler only looks: whatever
    events arrive, the renewal loop changes nothing but log and trace and
    makes no call to the authority or to Docker; and [Start] does the same
    apart from creating its directories. *)
Theorem valid_certificate_is_never_renewed (c : Client) (w : World) :
  servable X c w ->
  (forall events : list SchedulerEvent,
      onlyEffects readEffect w (stepWorld (renewalLoop X c events w)))
  /\ (forall (startup : list SelectEvent) (events : list SchedulerEvent),
         quietly w (stepWorld (Start X c startup events w))).
Proof.
  intros Hs. split.
  - intros events. apply renewalLoop_servable. exact Hs.
  - intros startup events. unfold Start, ensureDirectories. run_monad.
    pose proof (quietly_mkdirs (directoriesOf c)
                  (addLog (Info, "Starting IPSSL client") w)) as Hq.
    unfold directoriesOf in Hq.
    destruct (mkdirs X _ (addLog (Info, "Starting IPSSL client") w))
      as [[e|] w1|w1]; cbn [stepWorld] in *.
    + eapply frame_trans; [apply frame_log | exact Hq].
    + assert (Hq1 : quietly w w1)
        by (eapply frame_trans; [apply frame_log | exact Hq]).
      pose proof (servable_quietly X c w w1 Hq1 Hs) as Hs1.
      destruct (isCertificateValid_servable c w1 Hs1) as (w2 & Hrun & Hro).
      rewrite Hrun.
      assert (Hq2 : quietly w1 w2) by (apply onlyEffects_quietly, Hro).
      eapply frame_trans; [exact Hq1|].
      eapply frame_trans; [exact Hq2|].
      eapply frame_trans; [apply frame_log|].
      apply onlyEffects_quietly, renewalLoop_servable.
      eapply servable_quietly; [|exact Hs1].
      eapply frame_trans; [exact Hq2 | apply frame_log].
    + eapply frame_trans; [apply frame_log | exact Hq].
Qed.

End Lifecycle.

End lifecycle_facts.

(** ** Directories and files: what failures leave behind *)
Module outcome_facts.
Import vocabulary.
Import filepath config zerossl docker ipssl.
Import returns_facts.

Section Outcomes.
Context (X : Externals).

Lemma mkdirs_outcome (dirs : list string) :
  forall w : World,
  exists (res : option error) (w' : World),
    mkdirs X dirs w = Ret res w'
    /\ w_files w' = w_files w
    /\ match res with
       | None =>
           w_trace w' = (created dirs ++ w_trace w)%list
           /\ forall d, In d dirs -> d ∈ w_dirs w'
       | Some err =>
           exists (pre : list string) (d : string) (post : list string)
                  (inner : error),
             dirs = (pre ++ d :: post)%list
             /\ err = ErrWrap ("failed to create directory " +:+ d) inner
             /\ x_MkdirAllErr X (created pre ++ w_trace w)%list d = Some inner
             /\ w_trace w' =
                (EMkdirAll d mode_0755 false :: created pre ++ w_trace w)%list
       end.
Proof.
  induction dirs as [|d rest IH]; intros w.
  - exists None, w. cbn. repeat split; tauto.
  - cbn [mkdirs]. unfold os_MkdirAll. run_monad.
    destruct (x_MkdirAllErr X (w_trace w) d) as [e|] eqn:Hmk.
    + eexists _, _. split; [reflexivity|]. split; [reflexivity|].
      exists [], d, rest, e. repeat split; assumption.
    + destruct (IH (addEffect (EMkdirAll d mode_0755 true)
                      (setDirs ({[d]} ∪ w_dirs w) w)))
        as (res & w' & Hrun & Hfiles & Hres).
      exists res, w'. split; [exact Hrun|]. split; [exact Hfiles|].
      cbn [addEffect setDirs w_trace] in Hres.
      assert (Hcr : forall l : list string,
                 (created l ++ EMkdirAll d mode_0755 true :: w_trace w
                  = created (d :: l) ++ w_trace w)%list).
      { intros l. unfold created. cbn [map rev].
        rewrite <- List.app_assoc. reflexivity. }
      destruct res as [err|].
      * destruct Hres as (pre & d' & post & inner & -> & -> & Herr & Htr).
        exists (d :: pre), d', post, inner.
        rewrite <- Hcr. repeat split; assumption.
      * destruct Hres as [Htr Hin]. rewrite <- Hcr.
        split; [exact Htr|].
        intros d' [<-|Hd']; [|apply Hin, Hd'].
        assert (Hgrow : forall (l : list string) (w0 w1 : World),
                   mkdirs X l w0 = Ret None w1 -> w_dirs w0 ⊆ w_dirs w1).
        { clear. induction l as [|x l IHl]; intros w0 w1 H.
          - injection H as <-. reflexivity.
          - cbn [mkdirs] in H. unfold os_MkdirAll in H. run_monad.
            destruct (x_MkdirAllErr X (w_trace w0) x); [discriminate H|].
            apply IHl in H. cbn [addEffect setDirs w_dirs] in H.
            set_solver. }
        apply Hgrow in Hrun. cbn [addEffect setDirs w_dirs] in Hrun.
        set_solver.
Qed.

(** X15. [ensureDirectories] always returns and touches no file.  On
    success the three directories (certificates, validation root,
    validation root/.well-known/pki-validation) exist and were created in
    this order.  On failure the error names the first directory that could
    not be created, the later ones were not tried, and [Start] returns at
    once with this error, before looking at any certificate and whatever
    events are pending. *)
Theorem ensureDirectories_outcome (c : Client) (w : World) :
  let w0 := addLog (Info, "Starting IPSSL client") w in
  exists (res : option error) (w' : World),
    ensureDirectories X c w0 = Ret res w'
    /\ w_files w' = w_files w
    /\ match res with
       | None =>
           w_trace w' = (created (directoriesOf c) ++ w_trace w)%list
           /\ forall d, In d (directoriesOf c) -> d ∈ w_dirs w'
       | Some err =>
           (exists (pre : list string) (d : string) (post : list string)
                   (inner : error),
              directoriesOf c = (pre ++ d :: post)%list
              /\ err = ErrWrap ("failed to create directory " +:+ d) inner
              /\ x_MkdirAllErr X (created pre ++ w_trace w)%list d
                 = Some inner
              /\ w_trace w' =
                 (EMkdirAll d mode_0755 false :: created pre ++ w_trace w)%list)
           /\ forall (startup : list SelectEvent)
                     (events : list SchedulerEvent),
               Start X c startup events w =
               Ret (ErrWrap "failed to ensure directories" err) w'
       end.
Proof.
  intros w0.
  destruct (mkdirs_outcome (directoriesOf c) w0)
    as (res & w' & Hrun & Hfiles & Hres).
  exists res, w'. split; [exact Hrun|]. split; [exact Hfiles|].
  destruct res as [err|]; [|exact Hres].
  split; [exact Hres|].
  intros startup events. unfold Start. run_monad. fold w0.
  unfold ensureDirectories, directoriesOf in *. rewrite Hrun. reflexivity.
Qed.

(** X16. [saveCertificateFiles] fails in one of two ways.  If the
    certificate cannot be written, the key is not attempted, and no file
    other than the certificate can have changed.  If the key cannot be
    written, the new certificate is in place all the same, as the write
    left it: nothing is rolled back; and no file other than these two has
    changed. *)
Theorem saveCertificateFiles_failure (c : Client) (cert key : string)
    (w : World) (err : error) (w' : World) :
  saveCertificateFiles X c cert key w = Ret (Some err) w' ->
  (exists e : error,
      x_WriteFileErr X (w_trace w) (certPathOf c) = Some e
      /\ err = ErrWrap "failed to save certificate" e
      /\ w_trace w' = EWriteFile (certPathOf c) mode_0644 false :: w_trace w
      /\ forall p, p <> certPathOf c -> w_files w' !! p = w_files w !! p)
  \/ (exists e : error,
         x_WriteFileErr X (w_trace w) (certPathOf c) = None
         /\ x_WriteFileErr X
              (EWriteFile (certPathOf c) mode_0644 true :: w_trace w)
              (keyPathOf c) = Some e
         /\ err = ErrWrap "failed to save private key" e
         /\ w_trace w' =
            EWriteFile (keyPathOf c) mode_0600 false
              :: EWriteFile (certPathOf c) mode_0644 true :: w_trace w
         /\ w_files w' !! certPathOf c =
            Some (written w (certPathOf c) cert mode_0644)
         /\ forall p, p <> certPathOf c -> p <> keyPathOf c ->
                      w_files w' !! p = w_files w !! p).
Proof.
  unfold saveCertificateFiles, os_WriteFile.
  fold (certPathOf c). fold (keyPathOf c). run_monad. intros Hrun.
  destruct (x_WriteFileErr X (w_trace w) (certPathOf c)) as [e|] eqn:Hc.
  - injection Hrun as <- <-. left. exists e.
    split; [reflexivity|]. split; [reflexivity|]. split; [reflexivity|].
    intros p _. reflexivity.
  - cbn [addEffect setFiles w_trace w_files w_umask] in Hrun.
    destruct (x_WriteFileErr X
                (EWriteFile (certPathOf c) mode_0644 true :: w_trace w)
                (keyPathOf c)) as [e|] eqn:Hk.
    + injection Hrun as <- <-. right. exists e.
      split; [reflexivity|]. split; [reflexivity|]. split; [reflexivity|].
      split; [reflexivity|].
      cbn [addEffect setFiles w_files].
      split.
      * rewrite lookup_insert_eq. unfold written.
        destruct (w_files w !! certPathOf c); reflexivity.
      * intros p Hp _. apply lookup_insert_ne. congruence.
    + discriminate Hrun.
Qed.

(** X17. A longer renewal threshold never makes a certificate valid: if the
    check answers true for a threshold, then in the same world it answers
    true for every shorter one, with the same effects. *)
Theorem IsCertificateValid_threshold_monotone (certPath : string)
    (d d' : Duration) (w : World) (e : option error) (w' : World) :
  IsCertificateValid X certPath d w = Ret (true, e) w' ->
  d' <= d ->
  IsCertificateValid X certPath d' w = Ret (true, e) w'.
Proof.
  unfold IsCertificateValid, os_ReadFile, time_Now. run_monad.
  intros Hrun Hle.
  destruct (x_ReadFileErr X (w_trace w) certPath); [discriminate Hrun|].
  destruct (w_files w !! certPath) as [f|]; [|discriminate Hrun].
  destruct (x_pemDecode X (f_data f)) as [der|]; [|discriminate Hrun].
  destruct (x_ParseCertificate X der) as [cert|]; [|discriminate Hrun].
  destruct (Time_After _ (NotAfter cert)); [discriminate Hrun|].
  unfold Time_Before, Time_Add in *.
  match type of Hrun with
  | context [Z.ltb (NotAfter cert) (?n + d)] =>
      destruct (Z.ltb_spec (NotAfter cert) (n + d)) as [Hlt|Hge];
      [discriminate Hrun|];
      destruct (Z.ltb_spec (NotAfter cert) (n + d')) as [Hlt'|Hge'];
      [lia | exact Hrun]
  end.
Qed.

End Outcomes.

End outcome_facts.

(** ** The container, the lookup of a request, the wait, and [main] *)
Module service_facts.
Import vocabulary.
Import filepath config zerossl docker ipssl.
Import zerossl_facts returns_facts.

Lemma nameMatches_spec (name n : string) :
  nameMatches name n = true <-> n = "/" +:+ name \/ n = name.
Proof.
  unfold nameMatches. rewrite orb_true_iff, !String.eqb_eq. reflexivity.
Qed.

Lemma carries_spec (name : string) (container : Container) :
  existsb (nameMatches name) (c_Names container) = true
  <-> carries name container.
Proof.
  unfold carries. rewrite existsb_exists.
  split; intros (n & Hin & Hn); exists n; (split; [exact Hin|]);
    apply nameMatches_spec; exact Hn.
Qed.

Lemma findContainer_first (name : string) (containers : list Container)
    (target : Container) :
  findContainer name containers = Some target
  <-> firstCarrying name containers target.
Proof.
  induction containers as [|c rest IH]; cbn [findContainer].
  - split; [discriminate|]. intros (pre & post & H & _).
    destruct pre; discriminate H.
  - destruct (existsb (nameMatches name) (c_Names c)) eqn:Hc.
    + apply carries_spec in Hc. split.
      * intros [= <-]. exists [], rest.
        split; [reflexivity|]. split; [constructor | exact Hc].
      * intros (pre & post & H & Hpre & Ht). destruct pre as [|p pre].
        -- injection H as -> _. reflexivity.
        -- injection H as -> _. inversion Hpre; contradiction.
    + assert (Hn : ~ carries name c).
      { intros H. apply carries_spec in H. congruence. }
      rewrite IH. split.
      * intros (pre & post & -> & Hpre & Ht). exists (c :: pre), post.
        split; [reflexivity|]. split; [constructor; assumption | exact Ht].
      * intros (pre & post & H & Hpre & Ht). destruct pre as [|p pre].
        -- injection H as <- _. contradiction.
        -- injection H as <- ->. inversion Hpre; subst.
           exists pre, post. split; [reflexivity|]. split; assumption.
Qed.

Lemma findLoop_at (ip : string) (pre : list CertificateObject)
    (c : CertificateObject) (post : list CertificateObject) :
  Forall (fun c' => ~ qualifies ip c') pre -> qualifies ip c ->
  forall w : World,
  exists w' : World,
    findLoop ip (pre ++ c :: post) w = Ret (Ok (ID c)) w'
    /\ sameStore w w' /\ w_trace w' = w_trace w.
Proof.
  intros Hpre Hq. induction Hpre as [|x pre Hx Hpre IH]; intros w.
  - cbn [app findLoop]. destruct Hq as [Hcn Hlive].
    apply String.eqb_eq in Hcn. apply isLiveStatus_spec in Hlive.
    rewrite Hcn. run_monad. rewrite Hlive.
    eexists. split; [reflexivity|]. split; [apply sameStore_addLog|].
    reflexivity.
  - cbn [app findLoop].
    destruct (String.eqb_spec (CommonName x) ip) as [Hcn|Hcn].
    + run_monad. destruct (isLiveStatus (Status x)) eqn:Hlive.
      * exfalso. apply Hx. split; [exact Hcn|].
        apply isLiveStatus_spec. exact Hlive.
      * destruct (IH (addLog (Info, "Skipping certificate with invalid status")
                        (addLog (Info, "Found existing certificate") w)))
          as (w' & Hrun & Hs & Ht).
        exists w'. split; [exact Hrun|]. split; [|exact Ht].
        eapply sameStore_trans; [|exact Hs].
        eapply sameStore_trans; apply sameStore_addLog.
    + apply IH.
Qed.

Lemma findLoop_none (ip : string) (results : list CertificateObject) :
  Forall (fun c => ~ qualifies ip c) results ->
  forall w : World,
  exists w' : World,
    findLoop ip results w = Ret (Ok "") w'
    /\ sameStore w w' /\ w_trace w' = w_trace w.
Proof.
  intros Hall. induction Hall as [|x rest Hx Hall IH]; intros w.
  - exists w. split; [reflexivity|]. split; [apply sameStore_refl|].
    reflexivity.
  - cbn [findLoop].
    destruct (String.eqb_spec (CommonName x) ip) as [Hcn|Hcn].
    + run_monad. destruct (isLiveStatus (Status x)) eqn:Hlive.
      * exfalso. apply Hx. split; [exact Hcn|].
        apply isLiveStatus_spec. exact Hlive.
      * destruct (IH (addLog (Info, "Skipping certificate with invalid status")
                        (addLog (Info, "Found existing certificate") w)))
          as (w' & Hrun & Hs & Ht).
        exists w'. split; [exact Hrun|]. split; [|exact Ht].
        eapply sameStore_trans; [|exact Hs].
        eapply sameStore_trans; apply sameStore_addLog.
    + apply IH.
Qed.

Section Service.
Context (X : Externals).

(** X18. [ReloadContainer] always returns and changes nothing but log and
    trace.  It sends one signal, SIGHUP, exactly when the listing succeeds
    and the first listed container that carries the name is running; the
    signal goes to that container, and the result is nil exactly when
    Docker accepts it.  In every other case, among them a stopped container
    listed before a running one of the same name, it returns an error after
    the listing and sends nothing. *)
Theorem ReloadContainer_signals_first_match (name : string) (w : World) :
  exists (res : option error) (w' : World),
    ReloadContainer X name w = Ret res w'
    /\ sameStore w w'
    /\ ((exists (containers : list Container) (target : Container),
            x_ContainerList X (w_trace w) = Ok containers
            /\ firstCarrying name containers target
            /\ c_State target = "running"
            /\ w_trace w' =
               EContainerKill (c_ID target) "SIGHUP" :: EContainerList
                 :: w_trace w
            /\ (res = None <->
                x_ContainerKill X (EContainerList :: w_trace w)
                  (c_ID target) "SIGHUP" = None))
        \/ (res <> None
            /\ w_trace w' = EContainerList :: w_trace w
            /\ ~ exists (containers : list Container) (target : Container),
                   x_ContainerList X (w_trace w) = Ok containers
                   /\ firstCarrying name containers target
                   /\ c_State target = "running")).
Proof.
  unfold ReloadContainer, docker_ContainerList, docker_ContainerKill.
  run_monad. cbn [addLog addEffect w_trace].
  destruct (x_ContainerList X (w_trace w)) as [containers|e] eqn:Hlist.
  2:{ eexists _, _. split; [reflexivity|]. split; [repeat split|].
      right. split; [discriminate|]. split; [reflexivity|].
      intros (cs & t & H & _). discriminate H. }
  destruct (findContainer name containers) as [target|] eqn:Hfind.
  2:{ eexists _, _. split; [reflexivity|]. split; [repeat split|].
      right. split; [discriminate|]. split; [reflexivity|].
      intros (cs & t & [= <-] & Hfirst & _).
      apply findContainer_first in Hfirst. congruence. }
  destruct (String.eqb_spec (c_State target) "running") as [Hrun|Hrun];
    cbn [negb].
  2:{ eexists _, _. split; [reflexivity|]. split; [repeat split|].
      right. split; [discriminate|]. split; [reflexivity|].
      intros (cs & t & [= <-] & Hfirst & Hstate).
      apply findContainer_first in Hfirst. congruence. }
  apply findContainer_first in Hfind. cbn [addLog addEffect w_trace].
  destruct (x_ContainerKill X (EContainerList :: w_trace w) (c_ID target)
              "SIGHUP") as [e|] eqn:Hkill;
    (eexists _, _; split; [reflexivity|]; split; [repeat split|];
     left; exists containers, target;
     split; [reflexivity|]; split; [exact Hfind|]; split; [exact Hrun|];
     split; [reflexivity|]; split; congruence).
Qed.

(** X19. [GetContainerStatus] always returns, lists the containers once and
    changes nothing else; it answers with a state exactly when the listing
    succeeds and that is the state of the first listed container that
    carries the name. *)
Theorem GetContainerStatus_first_match (name : string) (w : World) :
  exists (res : result string) (w' : World),
    GetContainerStatus X name w = Ret res w'
    /\ sameStore w w'
    /\ w_trace w' = EContainerList :: w_trace w
    /\ forall state : string,
         res = Ok state <->
         exists (containers : list Container) (target : Container),
           x_ContainerList X (w_trace w) = Ok containers
           /\ firstCarrying name containers target
           /\ c_State target = state.
Proof.
  unfold GetContainerStatus, docker_ContainerList. run_monad.
  destruct (x_ContainerList X (w_trace w)) as [containers|e] eqn:Hlist.
  2:{ eexists _, _. split; [reflexivity|]. split; [repeat split|].
      split; [reflexivity|]. intros state. split; [discriminate|].
      intros (cs & t & H & _). discriminate H. }
  destruct (findContainer name containers) as [target|] eqn:Hfind;
    (eexists _, _; split; [reflexivity|]; split; [repeat split|];
     split; [reflexivity|]; intros state; split).
  - intros [= <-]. exists containers, target.
    split; [reflexivity|]. split; [|reflexivity].
    apply findContainer_first. exact Hfind.
  - intros (cs & t & [= <-] & Hfirst & <-).
    apply findContainer_first in Hfirst. congruence.
  - discriminate.
  - intros (cs & t & [= <-] & Hfirst & _).
    apply findContainer_first in Hfirst. congruence.
Qed.

(** X20. When the listing shows a request that qualifies, with an id, the
    first such request is fetched and becomes the request of the attempt:
    no key is generated, no request is created, and nothing changes but log
    and trace. *)
Theorem obtainRequest_reuses (ip : string) (w : World)
    (pre : list CertificateObject) (c : CertificateObject)
    (post : list CertificateObject) :
  x_ListCertificates X (w_trace w) = Ok (pre ++ c :: post)%list ->
  Forall (fun c' => ~ qualifies ip c') pre ->
  qualifies ip c ->
  ID c <> "" ->
  exists w' : World,
    obtainRequest X ip w =
    Ret match x_GetCertificate X (EListCertificates :: w_trace w) (ID c) with
        | Ok d => Ok d
        | Err e =>
            Err (ErrWrap "failed to get existing certificate details" e)
        end w'
    /\ sameStore w w'
    /\ w_trace w' = EGetCertificate (ID c) :: EListCertificates :: w_trace w.
Proof.
  intros Hlist Hpre Hq Hid.
  unfold obtainRequest, findExistingCertificate, api_ListCertificates,
    api_GetCertificate.
  run_monad. cbn [addLog addEffect w_trace]. rewrite Hlist.
  set (w0 := addEffect EListCertificates
               (addLog (Info, "Checking for existing certificate") w)).
  destruct (findLoop_at ip pre c post Hpre Hq w0) as (w1 & Hrun & Hs & Ht).
  rewrite Hrun. apply String.eqb_neq in Hid. rewrite Hid. cbn [negb].
  cbn [addLog w_trace]. rewrite Ht. cbn [w0 addLog addEffect w_trace].
  assert (Hs' : forall entries : World -> World,
             (forall x, sameStore x (entries x)) ->
             sameStore w
               (addEffect (EGetCertificate (ID c)) (entries w1))).
  { intros entries He.
    assert (Hs0 : sameStore w w1).
    { destruct Hs as (A1 & A2 & A3 & A4 & A5).
      split; [exact A1|]. split; [exact A2|]. split; [exact A3|].
      split; [exact A4 | exact A5]. }
    destruct Hs0 as (A1 & A2 & A3 & A4 & A5).
    destruct (He w1) as (B1 & B2 & B3 & B4 & B5).
    repeat split; cbn [addEffect w_env w_files w_dirs w_umask w_privateKeys];
      congruence. }
  destruct (x_GetCertificate X (EListCertificates :: w_trace w) (ID c));
    (eexists; split; [reflexivity|]; split;
     [|cbn [addEffect addLog w_trace]; rewrite Ht; reflexivity]);
    apply (Hs' (fun x => addLog _ (addLog _ x)));
    intros x; repeat split.
Qed.

(** X21. A listing that fails is not fatal, and neither is one without a
    usable request: the attempt goes on to create a new request, and its
    result is that of the creation. *)
Theorem obtainRequest_creates (ip : string) (w : World) :
  nothingToReuse X ip w ->
  exists w1 : World,
    sameStore w w1
    /\ w_trace w1 = EListCertificates :: w_trace w
    /\ obtainRequest X ip w =
       (r ← createIPCertificate X ip;
        match r with
        | Err err =>
            mret (Err (ErrWrap "failed to create IP certificate" err))
        | Ok newCertObj =>
            logInfo "Certificate request created";;
            mret (Ok newCertObj)
        end) w1.
Proof.
  intros Hnone.
  unfold obtainRequest, findExistingCertificate, api_ListCertificates.
  set (tail := (createIPCertificate X ip ≫= _)).
  run_monad. cbn [addLog addEffect w_trace].
  destruct Hnone as [(e & Hlist)|(results & Hlist & Hcase)]; rewrite Hlist.
  - eexists. split; [|split; [|reflexivity]]; [repeat split | reflexivity].
  - set (w0 := addEffect EListCertificates
                 (addLog (Info, "Checking for existing certificate") w)).
    assert (Hfind : exists (id : string) (w1 : World),
               findLoop ip results w0 = Ret (Ok id) w1
               /\ sameStore w0 w1 /\ w_trace w1 = w_trace w0 /\ id = "").
    { destruct Hcase as [Hall|(pre & c & post & -> & Hpre & Hq & Hid)].
      - destruct (findLoop_none ip results Hall w0) as (w1 & H1 & H2 & H3).
        exists "", w1. auto.
      - destruct (findLoop_at ip pre c post Hpre Hq w0)
          as (w1 & H1 & H2 & H3).
        exists (ID c), w1. auto. }
    destruct Hfind as (id & w1 & Hrun & Hs & Ht & ->).
    fold w0. rewrite Hrun. cbn [String.eqb negb].
    eexists. split; [|split; [|reflexivity]].
    + destruct Hs as (A1 & A2 & A3 & A4 & A5). repeat split; cbn; assumption.
    + cbn. exact Ht.
Qed.

(** X22. The wait only asks for the status of its request: whether it
    returns or not, it changes nothing but log and trace, and what it adds
    to the trace is fetches of that request only, at most one for each
    tick that arrived before the context was done: none before the first
    tick, and none for a tick that comes after the cancellation. *)
Theorem waitLoop_only_fetches (certID : string) (events : list SelectEvent)
    (w : World) :
  let w' := stepWorld (waitLoop X certID events w) in
  sameStore w w'
  /\ exists n : nat,
       (n <= ticksUntilDone events)%nat
       /\ w_trace w' =
          (repeat (EGetCertificate certID) n ++ w_trace w)%list.
Proof.
  cbv zeta. revert w.
  induction events as [|[|] rest IH]; intros w.
  - split; [apply sameStore_refl|]. exists 0%nat. split; [lia | reflexivity].
  - split; [apply sameStore_refl|]. exists 0%nat.
    split; [cbn [ticksUntilDone]; lia | reflexivity].
  - assert (Hstep : forall w1 : World,
               sameStore w w1 ->
               w_trace w1 = EGetCertificate certID :: w_trace w ->
               sameStore w w1
               /\ exists n : nat,
                    (n <= ticksUntilDone (TickerC :: rest))%nat
                    /\ w_trace w1 =
                       (repeat (EGetCertificate certID) n ++ w_trace w)%list).
    { intros w1 Hs Ht. split; [exact Hs|]. exists 1%nat.
      split; [cbn [ticksUntilDone]; lia | exact Ht]. }
    assert (Hnext : forall w1 : World,
               sameStore w w1 ->
               w_trace w1 = EGetCertificate certID :: w_trace w ->
               sameStore w (stepWorld (waitLoop X certID rest w1))
               /\ exists n : nat,
                    (n <= ticksUntilDone (TickerC :: rest))%nat
                    /\ w_trace (stepWorld (waitLoop X certID rest w1)) =
                       (repeat (EGetCertificate certID) n ++ w_trace w)%list).
    { intros w1 Hs Ht. destruct (IH w1) as (Hs1 & n & Hn & Htr).
      split; [eapply sameStore_trans; eassumption|].
      exists (S n).
      split; [cbn [ticksUntilDone]; lia|].
      rewrite Htr, Ht. cbn [repeat app].
      change (EGetCertificate certID :: w_trace w)
        with (repeat (EGetCertificate certID) 1 ++ w_trace w)%list.
      rewrite List.app_assoc, <- repeat_app, Nat.add_1_r. reflexivity. }
    cbn [waitLoop]. unfold api_GetCertificate. run_monad.
    destruct (x_GetCertificate X (w_trace w) certID) as [d|e].
    + destruct (String.eqb (Status d) "issued");
        [apply Hstep; [repeat split | reflexivity]|].
      destruct (String.eqb (Status d) "cancelled"
                || String.eqb (Status d) "expired");
        [apply Hstep; [repeat split | reflexivity]|].
      destruct (String.eqb (Status d) "draft"
                || String.eqb (Status d) "pending_validation");
        apply Hnext; first [repeat split; fail | reflexivity | idtac];
        repeat split.
    + apply Hnext; [repeat split | reflexivity].
Qed.

(** X23. [main] never ends with status 0: whenever it returns, the status
    is 1 and the newest log line is an error.  This is for a renewal
    interval that is positive, as [time.NewTicker] requires: with another
    one the process ends in a panic when the ticker is created, which
    [Start] above does not describe.  When IPSSL_API_KEY is unset or empty,
    [main] returns at once and has done nothing but log. *)
Theorem main_exit_status (startup : list SelectEvent)
    (events : list SchedulerEvent) (w : World) :
  (0 < durationOr X w "RENEWAL_INTERVAL" (24 * time_Hour) ->
   forall (status : Z) (w' : World),
      main.main X startup events w = Ret status w' ->
      status = 1
      /\ exists (msg : string) (older : list LogEntry),
           w_log w' = (Error, msg) :: older)
  /\ (getenv w "IPSSL_API_KEY" = "" ->
      main.main X startup events w =
      Ret 1 (addLog (Error, "Failed to load configuration") w)).
Proof.
  split.
  - intros _ status w'. unfold main.main, logger.Fatal. run_monad.
    destruct (Load X w) as [[c|e] w1|w1]; try discriminate;
      [|intros [= <- <-]; split; [reflexivity | eexists _, _; reflexivity]].
    destruct (NewClient X c w1) as [[client|e] w2|w2]; try discriminate;
      [|intros [= <- <-]; split; [reflexivity | eexists _, _; reflexivity]].
    destruct (Start X client startup events _) as [err w3|w3];
      try discriminate.
    intros [= <- <-]. split; [reflexivity | eexists _, _; reflexivity].
  - intros Hkey. unfold main.main, logger.Fatal. run_monad.
    rewrite load_facts.Load_run. unfold envOr. rewrite Hkey.
    reflexivity.
Qed.

End Service.

End service_facts.

(** ** A successful attempt *)
Module attempt_facts.
Import vocabulary.
Import filepath config zerossl docker ipssl.
Import poll_facts store_facts frame_facts.

Section Attempt.
Context (X : Externals).

Lemma saveCertificateFiles_saved (c : Client) (cert key : string)
    (w w1 : World) :
  saveCertificateFiles X c cert key w = Ret None w1 ->
  w_files w1 =
  <[keyPathOf c := written w (keyPathOf c) key mode_0600]>
    (<[certPathOf c := written w (certPathOf c) cert mode_0644]> (w_files w)).
Proof.
  intros Hrun.
  assert (Hc : x_WriteFileErr X (w_trace w) (certPathOf c) = None).
  { unfold saveCertificateFiles, os_WriteFile in Hrun.
    fold (certPathOf c) in Hrun. run_monad.
    destruct (x_WriteFileErr X (w_trace w) (certPathOf c));
      [discriminate Hrun | reflexivity]. }
  assert (Hk : x_WriteFileErr X
                 (EWriteFile (certPathOf c) mode_0644 true :: w_trace w)
                 (keyPathOf c) = None).
  { unfold saveCertificateFiles, os_WriteFile in Hrun.
    fold (certPathOf c) in Hrun. fold (keyPathOf c) in Hrun. run_monad.
    rewrite Hc in Hrun. cbn [addEffect setFiles w_trace] in Hrun.
    destruct (x_WriteFileErr X _ (keyPathOf c));
      [discriminate Hrun | reflexivity]. }
  destruct (saveCertificateFiles_run X c cert key w Hc Hk)
    as (w2 & Hrun2 & Hfiles & _).
  rewrite Hrun in Hrun2. injection Hrun2 as <-. exact Hfiles.
Qed.

Lemma sameFiles_reload (c : Client) (w : World) :
  let m : M unit :=
    if dockerClient c && negb (String.eqb (ContainerName (cfg c)) "") then
      e ← ReloadContainer X (ContainerName (cfg c));
      match e with
      | Some _ => logError "Failed to reload Caddy container"
      | None => mret tt
      end
    else
      logInfo
        "Skipping container reload - Docker client not available or no container name specified" in
  onlyEffects (fun _ => True) w (stepWorld (m w)).
Proof.
  cbv zeta. revert w.
  change (keeps (onlyEffects (fun _ => True))
            (if dockerClient c && negb (String.eqb (ContainerName (cfg c)) "")
             then
               e ← ReloadContainer X (ContainerName (cfg c));
               match e with
               | Some _ => logError "Failed to reload Caddy container"
               | None => mret tt
               end
             else
               logInfo
                 "Skipping container reload - Docker client not available or no container name specified")).
  unfold ReloadContainer. keep.
Qed.

(** X24. A successful attempt leaves a complete store: when
    [requestCertificate] returns nil, the authority client had returned a
    certificate chain and a key, the certificate file holds that chain and
    the key file that key, no other file was changed by saving and
    reloading, and a check for the files right afterwards finds both,
    whatever the reload of the container did. *)
Theorem requestCertificate_success_stores (c : Client)
    (events : list SelectEvent) (w w' : World) :
  requestCertificate X c events w = Ret None w' ->
  exists (cert key : string) (w1 : World),
    RequestCertificate X (ClientIP (cfg c)) events
      (addLog (Info, "Requesting new certificate") w)
    = Ret (Ok (cert, key)) w1
    /\ f_data <$> w_files w' !! certPathOf c = Some cert
    /\ f_data <$> w_files w' !! keyPathOf c = Some key
    /\ (forall p, p <> certPathOf c -> p <> keyPathOf c ->
                  w_files w' !! p = w_files w1 !! p)
    /\ stepValue (certificateFilesExist c w') = Some (true, "both files exist").
Proof.
  unfold requestCertificate. run_monad. intros Hrun.
  destruct (RequestCertificate X (ClientIP (cfg c)) events
              (addLog (Info, "Requesting new certificate") w))
    as [[[cert key]|err] w1|w1] eqn:Hreq; try discriminate Hrun.
  destruct (saveCertificateFiles X c cert key
              (addLog (Info, "Certificate chain received") w1))
    as [[e|] w2|w2] eqn:Hsave; try discriminate Hrun.
  apply saveCertificateFiles_saved in Hsave.
  cbn [addLog w_files] in Hsave.
  pose proof (sameFiles_reload c
                (addLog (Info, "Certificate saved successfully") w2))
    as [(_ & Hfiles & _) _].
  cbv zeta in Hfiles.
  match type of Hrun with
  | context [match ?m ?w0 with _ => _ end] =>
      match type of Hfiles with
      | context [stepWorld ?s] => change s with (m w0) in Hfiles
      end;
      destruct (m w0) as [[] w3|w3]; [|discriminate Hrun]
  end.
  injection Hrun as <-. cbn [stepWorld addLog w_files] in Hfiles.
  assert (Hcert : w_files w3 !! certPathOf c
                  = Some (written w1 (certPathOf c) cert mode_0644)).
  { rewrite Hfiles, Hsave.
    rewrite lookup_insert_ne by (apply not_eq_sym, paths_differ).
    apply lookup_insert_eq. }
  assert (Hkey : w_files w3 !! keyPathOf c
                 = Some (written w1 (keyPathOf c) key mode_0600)).
  { rewrite Hfiles, Hsave. apply lookup_insert_eq. }
  exists cert, key, w1. split; [reflexivity|].
  split; [rewrite Hcert; reflexivity|].
  split; [rewrite Hkey; reflexivity|].
  split.
  - intros p Hp1 Hp2. rewrite Hfiles, Hsave.
    rewrite !lookup_insert_ne by congruence. reflexivity.
  - apply certificateFilesExist_present; [rewrite Hcert | rewrite Hkey]; eauto.
Qed.


End Attempt.

End attempt_facts.

(** * The model at work *)
Module examples.

Example Base_table :
  filepath.Base "/foo/bar/baz.js" = "baz.js"
  /\ filepath.Base "/foo/bar/baz/" = "baz"
  /\ filepath.Base "dev.txt" = "dev.txt"
  /\ filepath.Base "../todo.txt" = "todo.txt"
  /\ filepath.Base ".." = ".."
  /\ filepath.Base "." = "."
  /\ filepath.Base "/" = "/"
  /\ filepath.Base "" = ".".
Proof. repeat split; reflexivity. Qed.

Example Dir_table :
  filepath.Dir "/foo/bar/baz.js" = "/foo/bar"
  /\ filepath.Dir "/foo/bar/baz/" = "/foo/bar/baz"
  /\ filepath.Dir "/dirty//path///" = "/dirty/path"
  /\ filepath.Dir "dev.txt" = "."
  /\ filepath.Dir "../todo.txt" = ".."
  /\ filepath.Dir ".." = "."
  /\ filepath.Dir "/" = "/"
  /\ filepath.Dir "" = ".".
Proof. repeat split; reflexivity. Qed.

Example Clean_table :
  filepath.Clean "abc//def//ghi" = "abc/def/ghi"
  /\ filepath.Clean "abc/def/../ghi/../jkl" = "abc/jkl"
  /\ filepath.Clean "abc/def/../../.." = ".."
  /\ filepath.Clean "abc/../../././../def" = "../../def"
  /\ filepath.Clean "/../abc" = "/abc"
  /\ filepath.Clean "/abc/def/../../.." = "/"
  /\ filepath.Clean "abc/./../def" = "def"
  /\ filepath.Clean "../../abc" = "../../abc"
  /\ filepath.Clean "abc/" = "abc"
  /\ filepath.Clean "" = ".".
Proof. repeat split; reflexivity. Qed.

Example Join_table :
  filepath.Join ["a"; "b"] = "a/b"
  /\ filepath.Join ["a"; ""] = "a"
  /\ filepath.Join [""; "b"] = "b"
  /\ filepath.Join ["/"; "a"] = "/a"
  /\ filepath.Join ["a/"; "b"] = "a/b"
  /\ filepath.Join [""; ""] = ""
  /\ filepath.Join ["/ipssl/"; "cert.pem"] = "/ipssl/cert.pem".
Proof. repeat split; reflexivity. Qed.

(** From an empty disk: no request exists, one is created as abc123, the
    validation file is written, the request is issued while the client
    waits, leaf and chain go to cert.pem and the key to key.pem with owner
    only access; at the next tick the certificate is found valid, and the
    shutdown ends [Start] with the cancellation error. *)
Example lifecycle_from_scratch :
  let run :=
    ipssl.Start scenario.progressingExternals scenario.client
      [TickerC; TickerC; TickerC] [RenewalTick []; Shutdown]
      scenario.freshWorld in
  stepValue run = Some ErrCanceled
  /\ w_files (stepWorld run) !! "/ipssl/cert.pem"
     = Some {| f_data := "LEAF:b" +:+ newline +:+ "CHAIN";
               f_mode := mode_0644 |}
  /\ w_files (stepWorld run) !! "/ipssl/key.pem"
     = Some {| f_data := "KEY"; f_mode := mode_0600 |}
  /\ w_files (stepWorld run)
       !! "/usr/share/caddy/.well-known/pki-validation/XYZ123"
     = Some {| f_data := "abc" +:+ newline +:+ "def"; f_mode := mode_0644 |}
  /\ In (ECreateCertificate scenario.ip 90) (w_trace (stepWorld run))
  /\ In (Info, "Certificate is still valid, skipping renewal")
       (w_log (stepWorld run)).
Proof.
  split; [vm_compute; reflexivity|].
  split; [vm_compute; reflexivity|].
  split; [vm_compute; reflexivity|].
  split; [vm_compute; reflexivity|].
  split; vm_compute; repeat ((left; reflexivity) || right).
Qed.

End examples.

(** * Worked instances

    Each general statement above, applied to one of the concrete scenarios,
    with its premises checked by evaluation. *)
Module instances.
Import vocabulary.
Import config ipssl.

Lemma Load_malformed_duration_defaults_instance :
  let X := scenario.quietExternals in
  getenv scenario.sloppyWorld "IPSSL_API_KEY" <> ""
  /\ malformed X (getenv scenario.sloppyWorld "RENEWAL_INTERVAL")
  /\ malformed X (getenv scenario.sloppyWorld "CERT_VALIDITY")
  /\ exists c : Config,
      Load X scenario.sloppyWorld = Ret (Ok c) scenario.sloppyWorld
      /\ RenewalInterval c = 24 * time_Hour
      /\ CertValidity c = 720 * time_Hour.
Proof.
  intros X.
  assert (Hkey : getenv scenario.sloppyWorld "IPSSL_API_KEY" <> "")
    by (vm_compute; discriminate).
  assert (Hr : malformed X (getenv scenario.sloppyWorld "RENEWAL_INTERVAL"))
    by (split; [vm_compute; discriminate | reflexivity]).
  assert (Hv : malformed X (getenv scenario.sloppyWorld "CERT_VALIDITY"))
    by (split; [vm_compute; discriminate | reflexivity]).
  split; [exact Hkey|]. split; [exact Hr|]. split; [exact Hv|].
  destruct (proj2 (config_facts.Load_malformed_duration_defaults X
                     scenario.sloppyWorld) Hkey) as (c & Hload & Hri & Hcv).
  exists c. split; [exact Hload|]. split; [exact (Hri Hr) | exact (Hcv Hv)].
Defined.

Lemma findExistingCertificate_first_match_instance :
  let X := scenario.mixedExternals in
  let w := scenario.world ∅ ∅ in
  x_ListCertificates X (w_trace w) = Ok scenario.mixedList
  /\ stepValue (zerossl.findExistingCertificate X scenario.ip w)
     = Some (Ok "pending")
  /\ exists w' : World,
      sameStore w w'
      /\ w_trace w' = EListCertificates :: w_trace w
      /\ ((exists pre c post,
              scenario.mixedList = (pre ++ c :: post)%list
              /\ Forall (fun c' => ~ qualifies scenario.ip c')
                   pre
              /\ qualifies scenario.ip c
              /\ zerossl.findExistingCertificate X scenario.ip w
                 = Ret (Ok (ID c)) w')
          \/ (Forall (fun c' => ~ qualifies scenario.ip c')
                scenario.mixedList
              /\ zerossl.findExistingCertificate X scenario.ip w
                 = Ret (Ok "") w')).
Proof.
  intros X w. split; [reflexivity|]. split; [vm_compute; reflexivity|].
  apply (zerossl_facts.findExistingCertificate_first_match X scenario.ip
           scenario.mixedList w).
  reflexivity.
Defined.

Lemma scheduler_attempt_failures_instance :
  let X := scenario.offlineExternals in
  let c := scenario.client in
  let w := scenario.freshWorld in
  let w1 := stepWorld (isCertificateValid X c w) in
  let w1' :=
    addLog (Info,
            "Certificate needs renewal (missing, expired, or expiring soon)")
      w1 in
  let w2 := stepWorld (requestCertificate X c [TickerC] w1') in
  isCertificateValid X c w = Ret false w1
  /\ requestCertificate X c [TickerC] w1' = Ret (Some scenario.tickError) w2
  /\ renewalLoop X c [RenewalTick [TickerC]; Shutdown] w =
     renewalLoop X c [Shutdown]
       (addLog (Error, "Failed to renew certificate") w2)
  /\ stepValue (renewalLoop X c [RenewalTick [TickerC]; Shutdown] w)
     = Some ErrCanceled.
Proof.
  intros X c w w1 w1' w2.
  assert (Hvalid : isCertificateValid X c w = Ret false w1)
    by (vm_compute; reflexivity).
  assert (Hreq : requestCertificate X c [TickerC] w1'
                 = Ret (Some scenario.tickError) w2)
    by (vm_compute; reflexivity).
  split; [exact Hvalid|]. split; [exact Hreq|].
  split; [|vm_compute; reflexivity].
  exact (proj1 (scheduler_facts.scheduler_attempt_failures X c)
           [TickerC] [Shutdown] w w1 w2 scenario.tickError Hvalid Hreq).
Defined.


Lemma ValidateCertificate_fs_failure_is_final_instance :
  let X := scenario.readOnlyExternals in
  let w := scenario.world ∅ ∅ in
  let w0 :=
    addLog (Info, "=== ENTERING RequestCertificate METHOD ===")
      (addLog (Info, "Requesting certificate from ZeroSSL") w) in
  let w1 := stepWorld (zerossl.obtainRequest X scenario.ip w0) in
  let w2 :=
    stepWorld (zerossl.ValidateCertificate X "abc123" "/usr/share/caddy/" w1) in
  let osError := ErrNew "read-only file system" in
  let err := ErrWrap "failed to create validation directory" osError in
  let dir := "/usr/share/caddy/.well-known/pki-validation" in
  let path := "/usr/share/caddy/.well-known/pki-validation/XYZ123" in
  let methods := [(scenario.ip, scenario.xyzMethod)] in
  zerossl.obtainRequest X scenario.ip w0
  = Ret (Ok (scenario.request "draft")) w1
  /\ zerossl.ValidateCertificate X "abc123" "/usr/share/caddy/" w1
     = Ret (Some err) w2
  /\ filesystemError err
  /\ endsInFsFailure w2
  /\ zerossl.RequestCertificate X scenario.ip [TickerC] w =
     Ret (Err (ErrWrap "failed to validate certificate" err)) w2
  /\ (exists w4 : World,
        zerossl.validationLoop X false "/usr/share/caddy/" methods w =
        Ret (Some err) w4
        /\ w_trace w4 = [EMkdirAll dir mode_0755 false])
  /\ (exists w4 : World,
        zerossl.validationLoop scenario.writeFaultExternals false
          "/usr/share/caddy/" methods w =
        Ret (Some (ErrWrap "failed to write validation file" osError)) w4
        /\ w_trace w4 =
           [EWriteFile path mode_0644 false; EMkdirAll dir mode_0755 true]).
Proof.
  intros X w w0 w1 w2 osError err dir path methods.
  assert (Hreq : zerossl.obtainRequest X scenario.ip w0
                 = Ret (Ok (scenario.request "draft")) w1)
    by (vm_compute; reflexivity).
  assert (Hval : zerossl.ValidateCertificate X "abc123" "/usr/share/caddy/" w1
                 = Ret (Some err) w2)
    by (vm_compute; reflexivity).
  assert (Hfs : filesystemError err)
    by (eexists; left; reflexivity).
  assert (Htok : FileValidationContent scenario.xyzMethod <> [])
    by discriminate.
  split; [exact Hreq|]. split; [exact Hval|]. split; [exact Hfs|].
  pose proof (validation_failure_facts.ValidateCertificate_fs_failure_is_final
                X scenario.ip [TickerC] w (scenario.request "draft") w1
                (Some err) w2) as (Hmkdir & _ & Hwhole).
  destruct (Hwhole Hreq Hval) as (new & _ & _ & Hfinal).
  destruct (Hfinal err eq_refl Hfs) as (_ & Hends & Hgives).
  split; [exact Hends|]. split; [exact Hgives|].
  split.
  - exact (Hmkdir false "/usr/share/caddy/" scenario.ip scenario.xyzMethod
             [] w osError Htok eq_refl).
  - exact (proj1 (proj2
             (validation_failure_facts.ValidateCertificate_fs_failure_is_final
                scenario.writeFaultExternals scenario.ip [TickerC] w
                (scenario.request "draft") w1 None w2))
             false "/usr/share/caddy/" scenario.ip scenario.xyzMethod
             [] w osError Htok eq_refl eq_refl).
Defined.



Lemma RequestCertificate_download_instance :
  let X := scenario.issuedExternals in
  let w := scenario.world ∅ ∅ in
  let cert := "LEAF:b" +:+ lineFeed +:+ "CHAIN" in
  let w' := stepWorld (zerossl.RequestCertificate X scenario.ip [TickerC] w) in
  zerossl.RequestCertificate X scenario.ip [TickerC] w
  = Ret (Ok (cert, "KEY")) w'
  /\ exists (id : string) (bundle : CertificateBundle)
            (later earlier : list Effect),
      w_trace w' = (later ++ EDownloadCertificate id true :: earlier)%list
      /\ Forall notDownload later
      /\ x_DownloadCertificate X earlier id true = Ok bundle
      /\ (CertificateCrt bundle <> "" -> CABundleCrt bundle <> "" ->
          cert = CertificateCrt bundle +:+ lineFeed +:+ CABundleCrt bundle)
      /\ (CABundleCrt bundle = "" -> cert = CertificateCrt bundle)
      /\ (CertificateCrt bundle = "" -> cert = CABundleCrt bundle).
Proof.
  intros X w cert w'.
  assert (Hrun : zerossl.RequestCertificate X scenario.ip [TickerC] w
                 = Ret (Ok (cert, "KEY")) w')
    by (vm_compute; reflexivity).
  split; [exact Hrun|].
  exact (proj2 (download_facts.RequestCertificate_download X scenario.ip
                  [TickerC] w) cert "KEY" w' Hrun).
Defined.

Lemma saveCertificateFiles_persist_instance :
  let X := scenario.quietExternals in
  let c := scenario.client in
  let w := scenario.looseKeyWorld in
  let certPath := certPathOf c in
  let keyPath := keyPathOf c in
  x_WriteFileErr X (w_trace w) certPath = None
  /\ x_WriteFileErr X (EWriteFile certPath mode_0644 true :: w_trace w) keyPath
     = None
  /\ exists w1 : World,
      saveCertificateFiles X c "LEAF:b" "KEY" w = Ret None w1
      /\ w_files w1 !! certPath
         = Some (written w certPath "LEAF:b" mode_0644)
      /\ w_files w1 !! keyPath
         = Some (written w keyPath "KEY" mode_0600)
      /\ (forall p, p <> certPath -> p <> keyPath ->
                    w_files w1 !! p = w_files w !! p)
      /\ stepValue (certificateFilesExist c w1)
         = Some (true, "both files exist")
      /\ exists w2 : World,
          saveCertificateFiles X c "LEAF:b" "KEY" w1 = Ret None w2
          /\ w_files w2 = w_files w1
          /\ stepValue (certificateFilesExist c w2)
             = Some (true, "both files exist").
Proof.
  intros X c w certPath keyPath.
  split; [reflexivity|]. split; [reflexivity|].
  destruct (store_facts.saveCertificateFiles_persist X c "LEAF:b" "KEY" w
              eq_refl eq_refl)
    as (w1 & Hrun & Hcert & Hkey & Hrest & Hexists & Hagain).
  exists w1. split; [exact Hrun|]. split; [exact Hcert|].
  split; [exact Hkey|]. split; [exact Hrest|]. split; [exact Hexists|].
  exact (Hagain eq_refl eq_refl).
Defined.

End instances.

(** * Worked instances of the further properties *)
Module further_instances.
Import vocabulary.
Import config zerossl docker ipssl.

Lemma Load_fields_instance :
  let X := scenario.quietExternals in
  let w := scenario.freshWorld in
  Load X w = Ret (Ok scenario.configuration) w
  /\ ContainerName scenario.configuration
     = envOr w "IPSSL_CONTAINER_NAME" "caddy-1"
  /\ ContainerName scenario.configuration <> "".
Proof.
  intros X w.
  assert (Hload : Load X w = Ret (Ok scenario.configuration) w)
    by (vm_compute; reflexivity).
  split; [exact Hload|].
  destruct (load_facts.Load_fields X w _ _ Hload)
    as (_ & _ & _ & _ & _ & Hname & _ & _ & _ & _ & _ & _ & Hne).
  split; [exact Hname | exact Hne].
Defined.

Lemma Load_then_NewClient_instance :
  let X := scenario.quietExternals in
  let w := scenario.freshWorld in
  Load X w = Ret (Ok scenario.configuration) w
  /\ ipssl.NewClient X scenario.configuration w =
     Ret (Ok scenario.client) (addLog (Info, "Docker client initialized") w).
Proof.
  intros X w.
  assert (Hload : Load X w = Ret (Ok scenario.configuration) w)
    by (vm_compute; reflexivity).
  split; [exact Hload|].
  exact (load_facts.Load_then_NewClient X w _ _ Hload).
Defined.

Lemma createIPCertificate_success_instance :
  let X := scenario.quietExternals in
  let w := scenario.world ∅ ∅ in
  let obj :=
    {| ID := "abc123"; CommonName := scenario.ip; Status := "draft";
       Validation := None |} in
  let w' := stepWorld (createIPCertificate X scenario.ip w) in
  createIPCertificate X scenario.ip w = Ret (Ok obj) w'
  /\ exists (key : PrivateKey) (der : string) (csr : CertificateRequest),
       x_GenerateKey X (w_trace w) = Ok key
       /\ x_ParseIP X scenario.ip = true
       /\ x_CreateCertificateRequest X (EGenerateKey :: w_trace w)
            (csrTemplateFor scenario.ip) key = Ok der
       /\ x_ParseCertificateRequest X der = Ok csr
       /\ x_CreateCertificate X (ECreateCSR :: EGenerateKey :: w_trace w)
            csr 90 = Ok obj
       /\ w_trace w' =
          ECreateCertificate (csr_CommonName csr) 90 :: ECreateCSR
            :: EGenerateKey :: w_trace w
       /\ w_privateKeys w' = <[scenario.ip := key]> (w_privateKeys w)
       /\ w_files w' = w_files w /\ w_dirs w' = w_dirs w
       /\ w_env w' = w_env w.
Proof.
  intros X w obj w'.
  assert (Hrun : createIPCertificate X scenario.ip w = Ret (Ok obj) w')
    by (vm_compute; reflexivity).
  split; [exact Hrun|].
  exact (key_facts.createIPCertificate_success X scenario.ip w obj w' Hrun).
Defined.

Lemma createIPCertificate_rejected_instance :
  let X := scenario.quietExternals in
  let w := scenario.world ∅ ∅ in
  x_ParseIP X "" = false
  /\ exists (err : error) (w' : World),
       createIPCertificate X "" w = Ret (Err err) w'
       /\ w_trace w' = EGenerateKey :: w_trace w
       /\ sameStore w w'
       /\ (forall key, x_GenerateKey X (w_trace w) = Ok key ->
                       err = ErrNew ("invalid IP address: " +:+ "")).
Proof.
  intros X w.
  assert (Hip : x_ParseIP X "" = false) by reflexivity.
  split; [exact Hip|].
  exact (key_facts.createIPCertificate_rejected X "" w (or_introl Hip)).
Defined.

Lemma created_key_is_retrieved_instance :
  let X := scenario.quietExternals in
  let w := scenario.world ∅ ∅ in
  let obj :=
    {| ID := "abc123"; CommonName := scenario.ip; Status := "draft";
       Validation := None |} in
  let w1 := stepWorld (createIPCertificate X scenario.ip w) in
  createIPCertificate X scenario.ip w = Ret (Ok obj) w1
  /\ x_GetCertificate X (w_trace w1) "abc123" = Ok (scenario.request "issued")
  /\ exists key : PrivateKey,
       x_GenerateKey X (w_trace w) = Ok key
       /\ getPrivateKey X "abc123" w1 =
          Ret (Ok (x_EncodeKeyPEM X key))
            (addEffect (EGetCertificate "abc123") w1).
Proof.
  intros X w obj w1.
  assert (Hrun : createIPCertificate X scenario.ip w = Ret (Ok obj) w1)
    by (vm_compute; reflexivity).
  assert (Hget : x_GetCertificate X (w_trace w1) "abc123"
                 = Ok (scenario.request "issued")) by reflexivity.
  split; [exact Hrun|]. split; [exact Hget|].
  exact (key_facts.created_key_is_retrieved X scenario.ip w obj w1 w1
           "abc123" (scenario.request "issued") Hrun eq_refl Hget eq_refl).
Defined.

Lemma getPrivateKey_fallback_instance :
  let X := scenario.quietExternals in
  let w := scenario.looseKeyWorld in
  let tr := EGetCertificate "abc123" :: w_trace w in
  x_GetCertificate X (w_trace w) "abc123" = Ok (scenario.request "issued")
  /\ w_privateKeys w !! scenario.ip = None
  /\ exists w' : World,
       getPrivateKey X "abc123" w = Ret (Ok "OLD KEY") w'
       /\ sameStore w w'
       /\ w_trace w' = EReadFile "/ipssl/key.pem" :: tr.
Proof.
  intros X w tr.
  assert (Hget : x_GetCertificate X (w_trace w) "abc123"
                 = Ok (scenario.request "issued")) by reflexivity.
  assert (Hnone : w_privateKeys w !! CommonName (scenario.request "issued")
                  = None) by (vm_compute; reflexivity).
  split; [exact Hget|]. split; [exact Hnone|].
  exact (proj1 (key_facts.getPrivateKey_fallback X "abc123" w
                  (scenario.request "issued") Hget Hnone)
           {| f_data := "OLD KEY"; f_mode := mode_0644 |}
           eq_refl ltac:(vm_compute; reflexivity)).
Defined.

Lemma getPrivateKey_repeatable_instance :
  let X := scenario.quietExternals in
  let w := scenario.looseKeyWorld in
  let w1 := stepWorld (getPrivateKey X "abc123" w) in
  getPrivateKey X "abc123" w = Ret (Ok "OLD KEY") w1
  /\ exists w2 : World, getPrivateKey X "abc123" w1 = Ret (Ok "OLD KEY") w2.
Proof.
  intros X w w1.
  assert (Hrun : getPrivateKey X "abc123" w = Ret (Ok "OLD KEY") w1)
    by (vm_compute; reflexivity).
  split; [exact Hrun|].
  exact (key_facts.getPrivateKey_repeatable X "abc123" w "OLD KEY" w1
           (scenario.request "issued") (scenario.request "issued")
           Hrun eq_refl eq_refl eq_refl eq_refl).
Defined.

Lemma ValidateCertificate_outcome_instance :
  let X := scenario.quietExternals in
  let w := scenario.world ∅ ∅ in
  let w' :=
    stepWorld (ValidateCertificate X "abc123" "/usr/share/caddy/" w) in
  ValidateCertificate X "abc123" "/usr/share/caddy/" w = Ret None w'
  /\ writesWithin (validationFile "/usr/share/caddy/") w w'
  /\ exists fs1 fs2 : list Effect,
       w_trace w' =
       (fs2 ++ EGetCertificate "abc123" :: EVerifyIdentifiers "abc123"
            :: fs1 ++ EGetCertificate "abc123" :: w_trace w)%list
       /\ Forall fsEffect fs1 /\ Forall fsEffect fs2.
Proof.
  intros X w w'.
  assert (Hrun : ValidateCertificate X "abc123" "/usr/share/caddy/" w
                 = Ret None w') by (vm_compute; reflexivity).
  split; [exact Hrun|].
  destruct (request_facts.ValidateCertificate_outcome X "abc123"
              "/usr/share/caddy/" w)
    as (res & w0 & Hrun0 & Hwithin & _ & _ & Hnone).
  rewrite Hrun in Hrun0. injection Hrun0 as <- <-.
  split; [exact Hwithin | exact (Hnone eq_refl)].
Defined.

Lemma failed_attempt_leaves_container_alone_instance :
  let X := scenario.offlineExternals in
  let w := scenario.freshWorld in
  stepValue (requestCertificate X scenario.client [TickerC] w)
  = Some (Some scenario.tickError)
  /\ extends notDocker w
       (stepWorld (requestCertificate X scenario.client [TickerC] w)).
Proof.
  intros X w.
  assert (Hrun : stepValue (requestCertificate X scenario.client [TickerC] w)
                 = Some (Some scenario.tickError))
    by (vm_compute; reflexivity).
  split; [exact Hrun|].
  apply (request_facts.failed_attempt_leaves_container_alone X
           scenario.client [TickerC] w).
  rewrite Hrun. discriminate.
Defined.

Lemma isCertificateValid_read_only_instance :
  let X := scenario.quietExternals in
  let w := scenario.servedWorld in
  exists w' : World,
    isCertificateValid X scenario.client w = Ret true w'
    /\ onlyEffects readEffect w w'
    /\ is_Some (w_files w !! certPathOf scenario.client).
Proof.
  intros X w.
  assert (Hrun : stepValue (isCertificateValid X scenario.client w)
                 = Some true) by (vm_compute; reflexivity).
  destruct (lifecycle_facts.isCertificateValid_read_only X scenario.client w)
    as (b & w' & Hrun' & Hro & Htrue).
  rewrite Hrun' in Hrun. injection Hrun as ->.
  exists w'. split; [exact Hrun'|]. split; [exact Hro|].
  exact (proj1 (Htrue eq_refl)).
Defined.

Lemma valid_certificate_is_never_renewed_instance :
  let X := scenario.quietExternals in
  let w := scenario.servedWorld in
  let events := [RenewalTick [TickerC]; RenewalTick []; Shutdown] in
  servable X scenario.client w
  /\ onlyEffects readEffect w
       (stepWorld (renewalLoop X scenario.client events w))
  /\ quietly w (stepWorld (Start X scenario.client [TickerC] events w)).
Proof.
  intros X w events.
  assert (Hs : servable X scenario.client w).
  { exists {| f_data := "LEAF:b"; f_mode := mode_0644 |}, "LEAF:b",
      {| NotAfter := 2160 * time_Hour |}.
    split; [vm_compute; reflexivity|].
    split; [left; vm_compute; eauto|].
    split; [reflexivity|]. split; [reflexivity|].
    intros tr. split; [reflexivity|].
    split; vm_compute; discriminate. }
  split; [exact Hs|].
  destruct (lifecycle_facts.valid_certificate_is_never_renewed X
              scenario.client w Hs) as [Hloop Hstart].
  split; [apply Hloop | apply Hstart].
Defined.

Lemma ensureDirectories_outcome_instance :
  let X := scenario.readOnlyExternals in
  let w := scenario.freshWorld in
  let err :=
    ErrWrap "failed to create directory /ipssl/"
      (ErrNew "read-only file system") in
  exists w' : World,
    ensureDirectories X scenario.client
      (addLog (Info, "Starting IPSSL client") w) = Ret (Some err) w'
    /\ w_files w' = w_files w
    /\ Start X scenario.client [TickerC] [Shutdown] w =
       Ret (ErrWrap "failed to ensure directories" err) w'.
Proof.
  intros X w err.
  assert (Hrun : stepValue
                   (ensureDirectories X scenario.client
                      (addLog (Info, "Starting IPSSL client") w))
                 = Some (Some err)) by (vm_compute; reflexivity).
  destruct (outcome_facts.ensureDirectories_outcome X scenario.client w)
    as (res & w' & Hrun' & Hfiles & Hres).
  rewrite Hrun' in Hrun. injection Hrun as ->.
  exists w'. split; [exact Hrun'|]. split; [exact Hfiles|].
  exact (proj2 Hres [TickerC] [Shutdown]).
Defined.

Lemma saveCertificateFiles_failure_instance :
  let X := scenario.keyFaultExternals in
  let w := scenario.looseKeyWorld in
  let c := scenario.client in
  let err := ErrWrap "failed to save private key" (ErrNew "disk full") in
  let w' := stepWorld (saveCertificateFiles X c "LEAF:b" "KEY" w) in
  saveCertificateFiles X c "LEAF:b" "KEY" w = Ret (Some err) w'
  /\ w_files w' !! "/ipssl/cert.pem"
     = Some {| f_data := "LEAF:b"; f_mode := mode_0644 |}.
Proof.
  intros X w c err w'.
  assert (Hrun : saveCertificateFiles X c "LEAF:b" "KEY" w = Ret (Some err) w')
    by (vm_compute; reflexivity).
  split; [exact Hrun|].
  destruct (outcome_facts.saveCertificateFiles_failure X c "LEAF:b" "KEY" w
              err w' Hrun)
    as [(e & Hc & _)|(e & _ & _ & _ & _ & Hfile & _)].
  - discriminate Hc.
  - change "/ipssl/cert.pem" with (certPathOf c). rewrite Hfile.
    vm_compute. reflexivity.
Defined.

Lemma IsCertificateValid_threshold_monotone_instance :
  let X := scenario.boundaryExternals in
  let w := scenario.boundaryWorld in
  let w' := stepWorld (IsCertificateValid X "/ipssl/cert.pem" 500 w) in
  IsCertificateValid X "/ipssl/cert.pem" 500 w = Ret (true, None) w'
  /\ IsCertificateValid X "/ipssl/cert.pem" 100 w = Ret (true, None) w'.
Proof.
  intros X w w'.
  assert (Hrun : IsCertificateValid X "/ipssl/cert.pem" 500 w
                 = Ret (true, None) w') by (vm_compute; reflexivity).
  split; [exact Hrun|].
  apply (outcome_facts.IsCertificateValid_threshold_monotone X
           "/ipssl/cert.pem" 500 100 w None w' Hrun).
  lia.
Defined.

Lemma ReloadContainer_signals_first_match_instance :
  let X := scenario.dockerExternals in
  let w := scenario.world ∅ ∅ in
  exists (res : option error) (w' : World),
    ReloadContainer X "caddy-1" w = Ret res w'
    /\ res <> None
    /\ w_trace w' = [EContainerList].
Proof.
  intros X w.
  destruct (service_facts.ReloadContainer_signals_first_match X "caddy-1" w)
    as (res & w' & Hrun & _ & [Hsent|(Herr & Htr & _)]).
  - exfalso. destruct Hsent as (cs & t & _ & _ & _ & Htr & _).
    assert (Hrun' : w_trace (stepWorld (ReloadContainer X "caddy-1" w))
                    = [EContainerList]) by (vm_compute; reflexivity).
    rewrite Hrun in Hrun'. cbn [stepWorld] in Hrun'.
    rewrite Htr in Hrun'. discriminate Hrun'.
  - exists res, w'. split; [exact Hrun|]. split; [exact Herr | exact Htr].
Defined.

Lemma GetContainerStatus_first_match_instance :
  let X := scenario.dockerExternals in
  let w := scenario.world ∅ ∅ in
  exists w' : World,
    GetContainerStatus X "caddy-1" w = Ret (Ok "exited") w'
    /\ exists (containers : list Container) (target : Container),
         x_ContainerList X (w_trace w) = Ok containers
         /\ firstCarrying "caddy-1" containers target
         /\ c_State target = "exited".
Proof.
  intros X w.
  assert (Hval : stepValue (GetContainerStatus X "caddy-1" w)
                 = Some (Ok "exited")) by (vm_compute; reflexivity).
  destruct (service_facts.GetContainerStatus_first_match X "caddy-1" w)
    as (res & w' & Hrun & _ & _ & Hiff).
  rewrite Hrun in Hval. injection Hval as ->.
  exists w'. split; [exact Hrun|].
  exact (proj1 (Hiff "exited") eq_refl).
Defined.

Lemma obtainRequest_reuses_instance :
  let X := scenario.mixedExternals in
  let w := scenario.world ∅ ∅ in
  exists w' : World,
    obtainRequest X scenario.ip w = Ret (Ok (scenario.request "issued")) w'
    /\ sameStore w w'
    /\ w_trace w' = [EGetCertificate "pending"; EListCertificates].
Proof.
  intros X w.
  assert (Hq : forall id status,
             live status ->
             qualifies scenario.ip
               {| ID := id; CommonName := scenario.ip; Status := status;
                  Validation := None |})
    by (intros id status Hl; split; [reflexivity | exact Hl]).
  exact (service_facts.obtainRequest_reuses X scenario.ip w
           [ {| ID := "old"; CommonName := scenario.ip; Status := "expired";
                Validation := None |};
             {| ID := "other"; CommonName := "198.51.100.1";
                Status := "issued"; Validation := None |} ]
           {| ID := "pending"; CommonName := scenario.ip;
              Status := "pending_validation"; Validation := None |}
           [ {| ID := "newer"; CommonName := scenario.ip; Status := "issued";
                Validation := None |} ]
           eq_refl
           ltac:(repeat constructor;
                 [ intros [_ [H|[H|H]]]; discriminate H
                 | intros [H _]; discriminate H ])
           (Hq "pending" "pending_validation" (or_intror (or_introl eq_refl)))
           ltac:(discriminate)).
Defined.

Lemma obtainRequest_creates_instance :
  let X := scenario.offlineExternals in
  let w := scenario.world ∅ ∅ in
  nothingToReuse X scenario.ip w
  /\ stepValue (obtainRequest X scenario.ip w)
     = Some (Ok {| ID := "abc123"; CommonName := scenario.ip;
                   Status := "draft"; Validation := None |}).
Proof.
  intros X w.
  assert (Hnone : nothingToReuse X scenario.ip w)
    by (left; exists scenario.unreachable; reflexivity).
  split; [exact Hnone|].
  destruct (service_facts.obtainRequest_creates X scenario.ip w Hnone)
    as (w1 & _ & _ & ->).
  vm_compute. reflexivity.
Defined.

Lemma main_exit_status_instance :
  let X := scenario.issuedExternals in
  let w := scenario.freshWorld in
  let w' := stepWorld (main.main X [TickerC] [Shutdown] w) in
  0 < durationOr X w "RENEWAL_INTERVAL" (24 * time_Hour)
  /\ main.main X [TickerC] [Shutdown] w = Ret 1 w'
  /\ (exists (msg : string) (older : list LogEntry),
        w_log w' = (Error, msg) :: older)
  /\ main.main X [TickerC] [Shutdown] (scenario.world ∅ ∅) =
     Ret 1 (addLog (Error, "Failed to load configuration")
              (scenario.world ∅ ∅)).
Proof.
  intros X w w'.
  assert (Hpos : 0 < durationOr X w "RENEWAL_INTERVAL" (24 * time_Hour))
    by (vm_compute; reflexivity).
  assert (Hrun : main.main X [TickerC] [Shutdown] w = Ret 1 w')
    by (vm_compute; reflexivity).
  split; [exact Hpos|]. split; [exact Hrun|].
  split.
  - exact (proj2 (proj1 (service_facts.main_exit_status X [TickerC]
                           [Shutdown] w) Hpos 1 w' Hrun)).
  - exact (proj2 (service_facts.main_exit_status X [TickerC] [Shutdown]
                    (scenario.world ∅ ∅)) eq_refl).
Defined.

Lemma requestCertificate_success_stores_instance :
  let X := scenario.issuedExternals in
  let c := scenario.client in
  let w := scenario.freshWorld in
  let w' := stepWorld (requestCertificate X c [TickerC] w) in
  requestCertificate X c [TickerC] w = Ret None w'
  /\ exists cert key : string,
       f_data <$> w_files w' !! certPathOf c = Some cert
       /\ f_data <$> w_files w' !! keyPathOf c = Some key
       /\ stepValue (certificateFilesExist c w')
          = Some (true, "both files exist").
Proof.
  intros X c w w'.
  assert (Hrun : requestCertificate X c [TickerC] w = Ret None w')
    by (vm_compute; reflexivity).
  split; [exact Hrun|].
  destruct (attempt_facts.requestCertificate_success_stores X c [TickerC] w w'
              Hrun) as (cert & key & w1 & _ & Hc & Hk & _ & Hex).
  exists cert, key. split; [exact Hc|]. split; [exact Hk | exact Hex].
Defined.


End further_instances.
